(** * tf-retinanet: anchor shifting, box decoding, box clipping, version gate

    A shallow embedding of
      - [tf_retinanet/backend/anchors.py]   ([shift], [bbox_transform_inv]),
      - [tf_retinanet/layers/clip_boxes.py] ([ClipBoxes.call]),
      - [tf_retinanet/utils/version.py]     ([tf_version_ok]).

    Tensors are dense row-major buffers with a shape, as TensorFlow stores
    them.  Their entries are exact rationals ([Q]): on tensors the arithmetic
    of the ambient [floatx()] type is treated as real arithmetic, and numeric
    equality is [Qeq] ([==]).  Rounding, overflow, infinities and NaN are
    covered by a second embedding of [bbox_transform_inv], on the four
    numbers of one box in IEEE 754 arithmetic ([Floatx]).  Every TensorFlow
    operation that can raise (indexing, broadcasting, reshaping, stacking, a
    range with a negative limit) returns a [result]. *)

From Stdlib Require Import List Arith ZArith QArith Qminmax Lia Lqa Bool.
From Stdlib Require Ascii String DecimalString SpecFloat.
Import ListNotations.

Local Open Scope nat_scope.

(** ** Errors *)

Inductive error : Type :=
| IndexOutOfRange   (* Python IndexError, or a TF slice index out of bounds *)
| ShapeMismatch     (* TF: incompatible shapes in a broadcast, reshape or stack *)
| InvalidArgument.  (* TF InvalidArgumentError: a range whose limit is below
                       its start *)

Inductive result (A : Type) : Type :=
| Ok  : A -> result A
| Err : error -> result A.

Arguments Ok {A} _.
Arguments Err {A} _.

Definition bind {A B : Type} (r : result A) (k : A -> result B) : result B :=
  match r with
  | Ok a => k a
  | Err e => Err e
  end.

Notation "x <- r ;; k" := (bind r (fun x => k))
  (at level 61, r at next level, right associativity).

Definition is_ok {A : Type} (r : result A) : bool :=
  match r with Ok _ => true | Err _ => false end.

(** ** Row-major index arithmetic *)

Definition size (sh : list nat) : nat := fold_right Nat.mul 1 sh.

Fixpoint ravel (sh idx : list nat) : nat :=
  match sh, idx with
  | _ :: sh', i :: idx' => i * size sh' + ravel sh' idx'
  | _, _ => 0
  end.

Fixpoint unravel (sh : list nat) (n : nat) : list nat :=
  match sh with
  | [] => []
  | _ :: sh' => (n / size sh') :: unravel sh' (n mod size sh')
  end.

Fixpoint in_bounds (sh idx : list nat) : bool :=
  match sh, idx with
  | [], [] => true
  | d :: sh', i :: idx' => (i <? d) && in_bounds sh' idx'
  | _, _ => false
  end.

(** ** Tensors *)

Record tensor : Type := mkTensor { shape : list nat; data : list Q }.

Definition wf (t : tensor) : Prop := length (data t) = size (shape t).

Definition has_shape (t : tensor) (sh : list nat) : Prop :=
  shape t = sh /\ wf t.

(** [t[i0, i1, ...]]; zero outside the bounds, where the operations below
    never read. *)
Definition get (t : tensor) (idx : list nat) : Q :=
  if in_bounds (shape t) idx then nth (ravel (shape t) idx) (data t) 0%Q
  else 0%Q.

(** The tensor of shape [sh] whose entry at [idx] is [f idx]. *)
Definition build (sh : list nat) (f : list nat -> Q) : tensor :=
  mkTensor sh (map (fun n => f (unravel sh n)) (seq 0 (size sh))).

Definition scalar (q : Q) : tensor := mkTensor [] [q].

(** Numeric equality of tensors: same shape, entries equal as rationals. *)
Definition tensor_eq (a b : tensor) : Prop :=
  shape a = shape b /\ Forall2 Qeq (data a) (data b).

(** ** TensorFlow operations *)

(** Broadcasting of two dimensions: equal, or one of them is 1. *)
Definition broadcast_dim (x y : nat) : option nat :=
  if x =? y then Some x
  else if x =? 1 then Some y
  else if y =? 1 then Some x
  else None.

(** Broadcasting of two shapes given innermost axis first. *)
Fixpoint broadcast_rev (a b : list nat) : option (list nat) :=
  match a, b with
  | [], _ => Some b
  | _, [] => Some a
  | x :: a', y :: b' =>
      match broadcast_dim x y, broadcast_rev a' b' with
      | Some d, Some r => Some (d :: r)
      | _, _ => None
      end
  end.

(** Shapes are aligned at their trailing axes. *)
Definition broadcast_shape (a b : list nat) : option (list nat) :=
  option_map (@rev nat) (broadcast_rev (rev a) (rev b)).

Fixpoint bidx_rev (sh idx : list nat) : list nat :=
  match sh, idx with
  | d :: sh', i :: idx' => (if d =? 1 then 0 else i) :: bidx_rev sh' idx'
  | _, _ => []
  end.

(** The index an operand of shape [sh] is read at for the result index [idx]:
    the trailing axes of [idx], with 0 along every axis of extent 1. *)
Definition broadcast_index (sh idx : list nat) : list nat :=
  rev (bidx_rev (rev sh) (rev idx)).

(** An elementwise binary operation ([+], [-], [*], [minimum], [maximum]). *)
Definition binop (f : Q -> Q -> Q) (a b : tensor) : result tensor :=
  match broadcast_shape (shape a) (shape b) with
  | Some sh =>
      Ok (build sh (fun idx => f (get a (broadcast_index (shape a) idx))
                                 (get b (broadcast_index (shape b) idx))))
  | None => Err ShapeMismatch
  end.

(** [tf.keras.backend.arange(start=0, stop=stop, dtype=floatx())]: the
    backend hands [start], [stop] and the step 1 to [tf.range], which requires
    [start <= limit] for a positive step and raises [InvalidArgumentError]
    otherwise; [stop = 0] gives the empty vector. *)
Definition arange (stop : Z) : result tensor :=
  if (stop <? 0)%Z then Err InvalidArgument
  else
    let n := Z.to_nat stop in
    Ok (mkTensor [n] (map (fun i => inject_Z (Z.of_nat i)) (seq 0 n))).

(** The [j]-th entry of the buffer. *)
Definition flat_get (t : tensor) (j : nat) : Q := nth j (data t) 0%Q.

(** [tf.meshgrid(x, y)] with the default ['xy'] indexing: both outputs have
    shape [(size y, size x)], the first repeats [x] along the rows and the
    second repeats [y] along the columns. *)
Definition meshgrid (x y : tensor) : tensor * tensor :=
  let sh := [size (shape y); size (shape x)] in
  (build sh (fun idx => flat_get x (nth 1 idx 0)),
   build sh (fun idx => flat_get y (nth 0 idx 0))).

(** [reshape(x, [-1])]. *)
Definition reshape_flat (t : tensor) : tensor :=
  mkTensor [size (shape t)] (data t).

(** [reshape(x, shape)] for a fully given shape. *)
Definition reshape (t : tensor) (sh : list nat) : result tensor :=
  if size sh =? size (shape t) then Ok (mkTensor sh (data t))
  else Err ShapeMismatch.

Fixpoint insert_at {A : Type} (n : nat) (x : A) (l : list A) : list A :=
  match n, l with
  | S n', y :: l' => y :: insert_at n' x l'
  | _, _ => x :: l
  end.

Fixpoint remove_at {A : Type} (n : nat) (l : list A) : list A :=
  match n, l with
  | _, [] => []
  | 0, _ :: l' => l'
  | S n', y :: l' => y :: remove_at n' l'
  end.

Fixpoint shape_eqb (a b : list nat) : bool :=
  match a, b with
  | [], [] => true
  | x :: a', y :: b' => (x =? y) && shape_eqb a' b'
  | _, _ => false
  end.

(** [stack(ts, axis)]: the tensors must share one shape; the result has a new
    axis of extent [length ts] at position [axis]. *)
Definition stack (ts : list tensor) (axis : nat) : result tensor :=
  match ts with
  | [] => Err ShapeMismatch
  | t0 :: _ =>
      if (axis <=? length (shape t0))
         && forallb (fun t => shape_eqb (shape t) (shape t0)) ts
      then Ok (build (insert_at axis (length ts) (shape t0))
                     (fun idx => get (nth (nth axis idx 0) ts t0)
                                     (remove_at axis idx)))
      else Err ShapeMismatch
  end.

(** [transpose(x)]: the axes in reverse order. *)
Definition transpose (t : tensor) : tensor :=
  build (rev (shape t)) (fun idx => get t (rev idx)).

(** Indexing one axis at [c] and keeping the others whole:
    [take_axis 2 c t] is [t[:, :, c]]. *)
Definition take_axis (axis c : nat) (t : tensor) : result tensor :=
  if (axis <? length (shape t)) && (c <? nth axis (shape t) 0)
  then Ok (build (remove_at axis (shape t))
                 (fun idx => get t (insert_at axis c idx)))
  else Err IndexOutOfRange.

(** [l[i]] for a Python sequence and [i >= 0]. *)
Definition py_index {A : Type} (l : list A) (i : nat) : result A :=
  match nth_error l i with
  | Some x => Ok x
  | None => Err IndexOutOfRange
  end.

(** [tf.clip_by_value(t, lo, hi)] is [maximum(minimum(t, hi), lo)]. *)
Definition clip_by_value (t : tensor) (lo hi : Q) : result tensor :=
  t_min <- binop Qmin t (scalar hi) ;;
  binop Qmax t_min (scalar lo).

(** ** backend/anchors.py *)

(** [cast(image_shape[1] - (features_shape[1] - 1) * stride) / 2.0] *)
Definition offset_x (image_shape features_shape : list Z) (stride : Z)
  : result Q :=
  w <- py_index image_shape 1 ;;
  wf_ <- py_index features_shape 1 ;;
  Ok (inject_Z (w - (wf_ - 1) * stride) / 2)%Q.

(** [cast(image_shape[0] - (features_shape[0] - 1) * stride) / 2.0] *)
Definition offset_y (image_shape features_shape : list Z) (stride : Z)
  : result Q :=
  h <- py_index image_shape 0 ;;
  hf <- py_index features_shape 0 ;;
  Ok (inject_Z (h - (hf - 1) * stride) / 2)%Q.

Definition shift (image_shape features_shape : list Z) (stride : Z)
                 (anchors : tensor) : result tensor :=
  off_x <- offset_x image_shape features_shape stride ;;
  off_y <- offset_y image_shape features_shape stride ;;
  wf_ <- py_index features_shape 1 ;;
  range_x <- arange wf_ ;;
  xs <- binop Qmult range_x (scalar (inject_Z stride)) ;;
  shift_x <- binop Qplus xs (scalar off_x) ;;
  hf <- py_index features_shape 0 ;;
  range_y <- arange hf ;;
  ys <- binop Qmult range_y (scalar (inject_Z stride)) ;;
  shift_y <- binop Qplus ys (scalar off_y) ;;
  let (grid_x, grid_y) := meshgrid shift_x shift_y in
  let shift_x := reshape_flat grid_x in
  let shift_y := reshape_flat grid_y in
  stacked <- stack [shift_x; shift_y; shift_x; shift_y] 0 ;;
  let shifts := transpose stacked in
  number_of_anchors <- py_index (shape anchors) 0 ;;
  k <- py_index (shape shifts) 0 ;;
  anchors3 <- reshape anchors [1; number_of_anchors; 4] ;;
  shifts3 <- reshape shifts [k; 1; 4] ;;
  shifted_anchors <- binop Qplus anchors3 shifts3 ;;
  reshape shifted_anchors [k * number_of_anchors; 4].

(** [boxes[:, :, i] + (deltas[:, :, i] * std[i] + mean[i]) * extent], the
    right-hand side of each of the four coordinate assignments. *)
Definition decode_coordinate (i : nat) (boxes deltas : tensor)
                             (mean std : list Q) (extent : tensor)
  : result tensor :=
  b <- take_axis 2 i boxes ;;
  d <- take_axis 2 i deltas ;;
  s <- py_index std i ;;
  ds <- binop Qmult d (scalar s) ;;
  m <- py_index mean i ;;
  dsm <- binop Qplus ds (scalar m) ;;
  off <- binop Qmult dsm extent ;;
  binop Qplus b off.

Definition bbox_transform_inv (boxes deltas : tensor)
                              (mean std : option (list Q))
  : result tensor :=
  let mean := match mean with None => [0; 0; 0; 0]%Q | Some m => m end in
  let std := match std with None => [0.2; 0.2; 0.2; 0.2]%Q | Some s => s end in
  b2 <- take_axis 2 2 boxes ;;
  b0 <- take_axis 2 0 boxes ;;
  width <- binop Qminus b2 b0 ;;
  b3 <- take_axis 2 3 boxes ;;
  b1 <- take_axis 2 1 boxes ;;
  height <- binop Qminus b3 b1 ;;
  x_1 <- decode_coordinate 0 boxes deltas mean std width ;;
  y_1 <- decode_coordinate 1 boxes deltas mean std height ;;
  x_2 <- decode_coordinate 2 boxes deltas mean std width ;;
  y_2 <- decode_coordinate 3 boxes deltas mean std height ;;
  stack [x_1; y_1; x_2; y_2] 2.

(** *** One box in the arithmetic of [floatx()]

    The tensor operations of [bbox_transform_inv] act on every box
    [(b, n)] on its own.  This is the same sequence of assignments on the
    four numbers of one box, evaluated in IEEE 754 binary arithmetic with
    [prec] bits of mantissa and exponent bound [emax] (float32: 24 and 128;
    float64: 53 and 1024), rounding to nearest even, with signed zeros,
    infinities and NaN. *)

Module Floatx.

Import SpecFloat.

Definition float : Type := spec_float.

(** The four numbers of a box, of a delta, of [mean] or of [std]. *)
Record quad : Type :=
  mkQuad { at0 : float; at1 : float; at2 : float; at3 : float }.

Section Format.

Variables prec emax : Z.

Local Notation "a + b" := (SFadd prec emax a b).
Local Notation "a - b" := (SFsub prec emax a b).
Local Notation "a * b" := (SFmul prec emax a b).

(** [boxes[:, :, 2] - boxes[:, :, 0]] *)
Definition width (boxes : quad) : float := at2 boxes - at0 boxes.

(** [boxes[:, :, 3] - boxes[:, :, 1]] *)
Definition height (boxes : quad) : float := at3 boxes - at1 boxes.

(** [deltas[:, :, i] * std[i] + mean[i]] *)
Definition scaled (delta std mean : float) : float := delta * std + mean.

Definition bbox_transform_inv (boxes deltas mean std : quad) : quad :=
  let width := width boxes in
  let height := height boxes in
  let x_1 := at0 boxes + scaled (at0 deltas) (at0 std) (at0 mean) * width in
  let y_1 := at1 boxes + scaled (at1 deltas) (at1 std) (at1 mean) * height in
  let x_2 := at2 boxes + scaled (at2 deltas) (at2 std) (at2 mean) * width in
  let y_2 := at3 boxes + scaled (at3 deltas) (at3 std) (at3 mean) * height in
  mkQuad x_1 y_1 x_2 y_2.

(** The float nearest to an integer. *)
Definition of_Z (n : Z) : float := binary_normalize prec emax n 0 false.

End Format.

Definition float32 : Z -> float := of_Z 24 128.

Definition float64 : Z -> float := of_Z 53 1024.

Definition is_zero (x : float) : bool :=
  match x with S754_zero _ => true | _ => false end.

Definition is_nan (x : float) : bool :=
  match x with S754_nan => true | _ => false end.

(** Neither an infinity nor NaN. *)
Definition finite (x : float) : bool :=
  match x with S754_zero _ | S754_finite _ _ _ => true | _ => false end.

(** [x == y] on floats: [-0.0 == 0.0], and NaN equals nothing. *)
Definition equal (x y : float) : bool := SFeqb x y.

Definition all (p : float -> bool) (q : quad) : bool :=
  p (at0 q) && p (at1 q) && p (at2 q) && p (at3 q).

(** [mean = [0, 0, 0, 0]], the default. *)
Definition zero_mean : quad :=
  mkQuad (S754_zero false) (S754_zero false) (S754_zero false)
         (S754_zero false).

End Floatx.

(** ** layers/clip_boxes.py *)

(** [tf.keras.backend.image_data_format()] *)
Inductive data_format : Type := channels_first | channels_last.

Module ClipBoxes.

Definition call (fmt : data_format) (image boxes : tensor)
  : result tensor :=
  let shape_ := map (fun d => inject_Z (Z.of_nat d)) (shape image) in
  hw <- match fmt with
        | channels_first =>
            height <- py_index shape_ 2 ;;
            width <- py_index shape_ 3 ;;
            Ok (height, width)
        | channels_last =>
            height <- py_index shape_ 1 ;;
            width <- py_index shape_ 2 ;;
            Ok (height, width)
        end ;;
  let (height, width) := (hw : Q * Q) in
  b0 <- take_axis 2 0 boxes ;;
  x_1 <- clip_by_value b0 0 (width - 1) ;;
  b1 <- take_axis 2 1 boxes ;;
  y_1 <- clip_by_value b1 0 (height - 1) ;;
  b2 <- take_axis 2 2 boxes ;;
  x_2 <- clip_by_value b2 0 (width - 1) ;;
  b3 <- take_axis 2 3 boxes ;;
  y_2 <- clip_by_value b3 0 (height - 1) ;;
  stack [x_1; y_1; x_2; y_2] 2.

Definition compute_output_shape (input_shape : list (list nat))
  : result (list nat) :=
  py_index input_shape 1.

End ClipBoxes.

(** ** utils/version.py *)

Definition MINIMUM_TF_VERSION : list Z := [1; 14; 0]%Z.

Definition BLACKLISTED_TF_VERSIONS : list (list Z) :=
  [[2; 0; 0]; [2; 0; 1]]%Z.

(** Python's [a >= b] on tuples of integers: the first position where the
    two differ decides; when one is a prefix of the other, the lengths do. *)
Fixpoint tuple_ge (a b : list Z) : bool :=
  match a, b with
  | x :: a', y :: b' => if (x =? y)%Z then tuple_ge a' b' else (y <=? x)%Z
  | _, [] => true
  | [], _ :: _ => false
  end.

Fixpoint tuple_eqb (a b : list Z) : bool :=
  match a, b with
  | [], [] => true
  | x :: a', y :: b' => (x =? y)%Z && tuple_eqb a' b'
  | _, _ => false
  end.

(** Python's [v in l]. *)
Definition tuple_in (v : list Z) (l : list (list Z)) : bool :=
  existsb (tuple_eqb v) l.

(** [tf_version()] parses the global [tf.version.VERSION]; the parsed tuple is
    the argument [version] here. *)
Definition tf_version_ok (version minimum_tf_version : list Z)
                         (blacklisted : list (list Z)) : bool :=
  tuple_ge version minimum_tf_version && negb (tuple_in version blacklisted).

(** ** Specification vocabulary *)

(** [t] is the well-formed tensor of shape [sh] whose entry at every index
    [idx] within the bounds is [g idx]. *)
Definition represents (t : tensor) (sh : list nat) (g : list nat -> Q) : Prop :=
  shape t = sh /\ wf t /\
  forall idx, in_bounds sh idx = true -> get t idx = g idx.

(** Coordinate [c] of box [i] of an array of shape [(n, 4)]. *)
Definition entry (t : tensor) (i c : nat) : Q := get t [i; c].

(** Coordinate [c] of box [n] of batch element [b]. *)
Definition coord (t : tensor) (b n c : nat) : Q := get t [b; n; c].

(** The value of [v] clamped to the interval from [lo] to [hi]. *)
Definition clamp (lo hi v : Q) : Q :=
  match (v ?= lo)%Q with
  | Lt => lo
  | _ => match (v ?= hi)%Q with
         | Gt => hi
         | _ => v
         end
  end.

(** The shape of a batch of [n] images of height [H], width [W] and [C]
    channels under either Keras layout. *)
Definition image_layout (fmt : data_format) (n H W C : nat) : list nat :=
  match fmt with
  | channels_first => [n; C; H; W]
  | channels_last => [n; H; W; C]
  end.

(** Two dimensions that do not broadcast. *)
Definition incompatible (x y : nat) : Prop := x <> y /\ x <> 1 /\ y <> 1.

(** The shift of grid point [k], the points enumerated row-major with [x]
    running fastest over a grid [Wf] points wide. *)
Definition grid_shift_x (W Wf stride : Z) (k : nat) : Q :=
  (inject_Z (Z.of_nat (k mod Z.to_nat Wf)) * inject_Z stride
   + (inject_Z W - (inject_Z Wf - 1) * inject_Z stride) / 2)%Q.

Definition grid_shift_y (H Hf Wf stride : Z) (k : nat) : Q :=
  (inject_Z (Z.of_nat (k / Z.to_nat Wf)) * inject_Z stride
   + (inject_Z H - (inject_Z Hf - 1) * inject_Z stride) / 2)%Q.

(** Lexicographic order on integer sequences. *)
Inductive lex_lt : list Z -> list Z -> Prop :=
| lex_lt_nil : forall y b, lex_lt [] (y :: b)
| lex_lt_head : forall x y a b, (x < y)%Z -> lex_lt (x :: a) (y :: b)
| lex_lt_tail : forall x a b, lex_lt a b -> lex_lt (x :: a) (x :: b).

Definition lex_ge (a b : list Z) : Prop := a = b \/ lex_lt b a.

(** ** Sample inputs *)

(** One anchor template, [(0, 0, 0, 0)]. *)
Definition origin_anchor : tensor := mkTensor [1; 4] [0; 0; 0; 0]%Q.

(** Two anchor templates. *)
Definition two_anchors : tensor :=
  mkTensor [2; 4] [-4; -4; 4; 4; -8; -2; 8; 2]%Q.

(** No anchor template. *)
Definition no_anchor : tensor := mkTensor [0; 4] [].

(** One box per array, shape [(1, 1, 4)]. *)
Definition one_box (x1 y1 x2 y2 : Q) : tensor :=
  mkTensor [1; 1; 4] [x1; y1; x2; y2].

Definition sample_box : tensor := one_box 2 4 12 24.
Definition sample_delta : tensor := one_box 1 1 (-1) (-1).
Definition other_delta : tensor := one_box 7 9 5 3.

(** Three boxes, shape [(1, 3, 4)]. *)
Definition three_boxes : tensor :=
  mkTensor [1; 3; 4] [0; 0; 10; 10; 5; 5; 20; 30; 1; 2; 3; 4]%Q.

(** Deltas for four boxes, shape [(1, 4, 4)]. *)
Definition four_deltas : tensor := mkTensor [1; 4; 4] (repeat 0%Q 16).

(** A batch of one 10x10 image with three channels, in either layout. *)
Definition image_10x10 (fmt : data_format) : tensor :=
  mkTensor (image_layout fmt 1 10 10 3) (repeat 0%Q 300).

(** The axes of the image shape that [ClipBoxes.call] reads as height and
    width. *)
Definition height_axis (fmt : data_format) : nat :=
  match fmt with channels_first => 2 | channels_last => 1 end.

Definition width_axis (fmt : data_format) : nat :=
  match fmt with channels_first => 3 | channels_last => 2 end.

(** The box [(-3e38, 0, 3e38, 1)] in float32 and the box
    [(-15e307, 0, 15e307, 1)] in float64: all coordinates are finite, the
    width is not. *)
Definition wide_box_float32 : Floatx.quad :=
  Floatx.mkQuad (Floatx.float32 (-3 * 10 ^ 38)) (Floatx.float32 0)
                (Floatx.float32 (3 * 10 ^ 38)) (Floatx.float32 1).

Definition wide_box_float64 : Floatx.quad :=
  Floatx.mkQuad (Floatx.float64 (-15 * 10 ^ 307)) (Floatx.float64 0)
                (Floatx.float64 (15 * 10 ^ 307)) (Floatx.float64 1).

(** The same number four times. *)
Definition four_times (x : Floatx.float) : Floatx.quad :=
  Floatx.mkQuad x x x x.

(** ** utils/version.py: reading and checking the version string *)

Module Version.

Import Ascii String DecimalString.
Local Open Scope string_scope.

(** The exceptions the version check can raise. *)
Inductive exn : Type :=
| ValueError                        (* [int] on a string it cannot read *)
| IndexError                        (* indexing past the end of a list *)
| AssertionError (message : string).

Inductive outcome (A : Type) : Type :=
| Returns : A -> outcome A
| Raises : exn -> outcome A.

Arguments Returns {A} _.
Arguments Raises {A} _.

(** [s.split(sep)] for a separator of one character: the pieces between the
    occurrences of [sep], empty pieces included. *)
Fixpoint split (sep : ascii) (s : string) : list string :=
  match s with
  | EmptyString => [EmptyString]
  | String c s' =>
      if Ascii.eqb c sep then EmptyString :: split sep s'
      else match split sep s' with
           | piece :: rest => String c piece :: rest
           | [] => [String c EmptyString]
           end
  end.

(** [c in s] *)
Fixpoint contains (c : ascii) (s : string) : bool :=
  match s with
  | EmptyString => false
  | String c' s' => Ascii.eqb c' c || contains c s'
  end.

(** [str(n)] for an integer. *)
Definition str_int (n : Z) : string := NilZero.string_of_int (Z.to_int n).

(** [repr(t)] for a tuple of integers. *)
Definition repr_tuple (t : list Z) : string :=
  match t with
  | [n] => "(" ++ str_int n ++ ",)"
  | _ => "(" ++ concat ", " (map str_int t) ++ ")"
  end.

(** [repr(l)] for a list of tuples of integers. *)
Definition repr_list (l : list (list Z)) : string :=
  "[" ++ concat ", " (map repr_tuple l) ++ "]".




Section WithInt.

(** Python's builtin [int] on a string; [None] stands for its
    [ValueError]. *)
Variable int : string -> option Z.

(** [tuple(map(int, pieces))] *)
Fixpoint map_int (pieces : list string) : outcome (list Z) :=
  match pieces with
  | [] => Returns []
  | s :: rest =>
      match int s with
      | None => Raises ValueError
      | Some n =>
          match map_int rest with
          | Returns ns => Returns (n :: ns)
          | Raises e => Raises e
          end
      end
  end.

(** [tf_version()], with the global [tf.version.VERSION] as argument. *)
Definition tf_version (VERSION : string) : outcome (list Z) :=
  match split "-" VERSION with
  | first :: _ => map_int (split "." first)
  | [] => Raises IndexError
  end.

(** [tf_version() >= minimum_tf_version and tf_version() not in blacklisted];
    the second call is made only when the first comparison holds. *)
Definition tf_version_ok (VERSION : string) (minimum_tf_version : list Z)
                         (blacklisted : list (list Z)) : outcome bool :=
  match tf_version VERSION with
  | Raises e => Raises e
  | Returns v =>
      if tuple_ge v minimum_tf_version then
        match tf_version VERSION with
        | Raises e => Raises e
        | Returns v' => Returns (negb (tuple_in v' blacklisted))
        end
      else Returns false
  end.

(** The message of the assertion. *)
Definition message (detected required : string) (blacklisted : list (list Z))
  : string :=
  "You are using tensorflow version " ++ detected
  ++ ". The minimum required version is " ++ required
  ++ " (blacklisted: " ++ repr_list blacklisted ++ ").".

(** [assert_tf_version]; [debug] is Python's [__debug__], false under
    [-O], where an [assert] statement does nothing. *)
Definition assert_tf_version (debug : bool) (VERSION : string)
                             (minimum_tf_version : list Z)
                             (blacklisted : list (list Z)) : outcome unit :=
  let detected := VERSION in
  let required := concat "." (map str_int minimum_tf_version) in
  if debug then
    match tf_version_ok VERSION minimum_tf_version blacklisted with
    | Raises e => Raises e
    | Returns true => Returns tt
    | Returns false =>
        Raises (AssertionError (message detected required blacklisted))
    end
  else Returns tt.


End WithInt.

(** An [int] to run the examples with: it reads the non-empty strings of
    ASCII digits, which is how Python's [int] reads them; Python's [int]
    reads further spellings too. *)
Definition digit_value (c : ascii) : option Z :=
  let n := nat_of_ascii c in
  if ((48 <=? n) && (n <=? 57))%nat then Some (Z.of_nat (n - 48)) else None.

Fixpoint digits_value (acc : Z) (s : string) : option Z :=
  match s with
  | EmptyString => Some acc
  | String c s' =>
      match digit_value c with
      | Some d => digits_value (acc * 10 + d)%Z s'
      | None => None
      end
  end.

Definition int_of_digits (s : string) : option Z :=
  match s with
  | EmptyString => None
  | _ => digits_value 0 s
  end.

End Version.

(** ** utils/visualization.py: what is drawn

    OpenCV draws into the image in place.  The image is not modelled: a
    drawing function is described by the OpenCV drawings it gets made, in
    order, and by how it ends.  Drawings made before an exception stay made.
    An OpenCV call draws when it hands over the image under the keyword the
    binding has for it, and raises [cv2.error] otherwise.  Boxes, scores and
    labels are numbers; a matrix is given by its rows. *)

Module Visualization.

Import Ascii String.
Local Open Scope string_scope.

Inductive exn : Type :=
| IndexError       (* indexing past the end of a sequence or an axis *)
| TypeError        (* adding a string to a number *)
| KeyError         (* a key missing from a dictionary *)
| AssertionError   (* an [assert] without message *)
| Cv2Error.        (* [cv2.error]: the binding refuses the arguments of a call *)

Inductive outcome (A : Type) : Type :=
| Returns : A -> outcome A
| Raises : exn -> outcome A.

Arguments Returns {A} _.
Arguments Raises {A} _.

Definition color : Type := (Z * Z * Z)%type.

Inductive line_type : Type := LINE_AA.
Inductive font : Type := FONT_HERSHEY_PLAIN.

Inductive cv2_call : Type :=
| rectangle (pt1 pt2 : Z * Z) (col : color) (thickness : Z)
            (lineType : line_type)
| putText (text : string) (org : Z * Z) (fontFace : font) (fontScale : Z)
          (col : color) (thickness : Z).

(** The calls made and the way the function ends. *)
Definition drawing (A : Type) : Type := (list cv2_call * outcome A)%type.

Definition pure {A : Type} (a : A) : drawing A := ([], Returns a).

Definition raise {A : Type} (e : exn) : drawing A := ([], Raises e).

Definition and_then {A B : Type} (d : drawing A) (k : A -> drawing B)
  : drawing B :=
  match d with
  | (calls, Returns a) => let (calls', r) := k a in ((calls ++ calls')%list, r)
  | (calls, Raises e) => (calls, Raises e)
  end.

(** [l[i]] *)
Definition index {A : Type} (l : list A) (i : nat) : drawing A :=
  match nth_error l i with
  | Some x => pure x
  | None => raise IndexError
  end.

(** The keyword under which a call hands over the image.  OpenCV's Python
    binding names that parameter [img], for [rectangle] as for [putText]. *)
Inductive image_keyword : Type := kw_img | kw_image.

(** A call of an OpenCV drawing function.  With the image under [img] the
    drawing is made.  Under another keyword the binding finds no image among
    the arguments: it raises [cv2.error] and nothing is drawn. *)
Definition cv2_draw (keyword : image_keyword) (call : cv2_call)
  : drawing unit :=
  match keyword with
  | kw_img => ([call], Returns tt)
  | kw_image => raise Cv2Error
  end.

(** [astype(int)] on one number: the fraction is dropped, towards zero. *)
Definition astype_int (q : Q) : Z := Z.quot (Qnum q) (Z.pos (Qden q)).

(** [draw_box]: [box] is a sequence of numbers.  The arguments are
    evaluated, then [cv2.rectangle(image=image, ...)] is called. *)
Definition draw_box (box : list Q) (col : color) (thickness : Z)
  : drawing unit :=
  let box_array := map astype_int box in
  and_then (index box_array 0) (fun b0 =>
  and_then (index box_array 1) (fun b1 =>
  and_then (index box_array 2) (fun b2 =>
  and_then (index box_array 3) (fun b3 =>
  cv2_draw kw_image
           (rectangle (b0, b1) (b2, b3) col thickness LINE_AA))))).

(** [draw_caption]: two calls [cv2.putText(img=image, ...)]. *)
Definition draw_caption (box : list Q) (caption : string) : drawing unit :=
  let box_array := map astype_int box in
  and_then (index box_array 0) (fun x =>
  and_then (index box_array 1) (fun y =>
  and_then (cv2_draw kw_img
              (putText caption (x, y - 10)%Z FONT_HERSHEY_PLAIN 1
                       (0, 0, 0)%Z 2)) (fun _ =>
  and_then (index box_array 0) (fun x' =>
  and_then (index box_array 1) (fun y' =>
  cv2_draw kw_img
    (putText caption (x', y' - 10)%Z FONT_HERSHEY_PLAIN 1
             (255, 255, 255)%Z 1)))))).

(** [draw_boxes] *)
Fixpoint draw_boxes (boxes : list (list Q)) (col : color) (thickness : Z)
  : drawing unit :=
  match boxes with
  | [] => pure tt
  | box :: rest =>
      and_then (draw_box box col thickness) (fun _ =>
      draw_boxes rest col thickness)
  end.

(** [np.where(scores > score_threshold)[0]] *)
Definition selection (scores : list Q) (score_threshold : Q) : list nat :=
  filter (fun i => negb (Qle_bool (nth i scores 0%Q) score_threshold))
         (seq 0 (List.length scores)).

(** [for i in indices: body(i)] *)
Fixpoint for_each (indices : list nat) (body : nat -> drawing unit)
  : drawing unit :=
  match indices with
  | [] => pure tt
  | i :: rest => and_then (body i) (fun _ => for_each rest body)
  end.

(** The annotations [draw_annotations] accepts: a matrix with [columns]
    columns, or a dictionary, of which the entries under ['bboxes'] and
    ['labels'] are given where they exist. *)
Inductive annotations : Type :=
| NdArray (columns : nat) (rows : list (list Q))
| Dict (bboxes : option (list (list Q))) (labels : option (list Q)).

(** [d[key]] *)
Definition lookup {A : Type} (entry : option A) : drawing A :=
  match entry with
  | Some x => pure x
  | None => raise KeyError
  end.

(** [assert condition]; [debug] is Python's [__debug__]. *)
Definition assert (debug : bool) (condition : drawing bool) : drawing unit :=
  if debug then
    and_then condition (fun holds =>
    if holds then pure tt else raise AssertionError)
  else pure tt.

(** [key in d] *)
Definition has_key {A : Type} (entry : option A) : bool :=
  match entry with Some _ => true | None => false end.

(** The two texts of a caption, thick black under thin white, 10 pixels
    above the first corner. *)
Definition caption_texts (box : list Q) (caption : string)
  : list cv2_call :=
  let org := (astype_int (nth 0 box 0%Q),
              (astype_int (nth 1 box 0%Q) - 10)%Z) in
  [putText caption org FONT_HERSHEY_PLAIN 1 (0, 0, 0)%Z 2;
   putText caption org FONT_HERSHEY_PLAIN 1 (255, 255, 255)%Z 1].

(** How [draw_box] ends on a box with [n] entries. *)
Definition box_failure (n : nat) : exn :=
  if (4 <=? n)%nat then Cv2Error else IndexError.

(** How a round of [draw_detections] ends: the label is read only when no
    colour is given, then the box, then [draw_box] is called. *)
Definition detection_failure (boxes : list (list Q)) (labels : list Q)
                             (col : option color) (i : nat) : exn :=
  match col, nth_error labels i with
  | None, None => IndexError
  | _, _ =>
      match nth_error boxes i with
      | None => IndexError
      | Some box => box_failure (List.length box)
      end
  end.

Section WithCollaborators.

(** [label_color] of [utils/colors.py]. *)
Variable label_color : Q -> color.

(** ['{0:.2f}'.format(x)] *)
Variable format_2f : Q -> string.

(** ['{}'.format(x)] for a number. *)
Variable format_number : Q -> string.

(** One round of the loop of [draw_detections]. *)
Definition draw_detection (boxes : list (list Q)) (scores : list Q)
                          (labels : list Q) (col : option color)
                          (label_to_name : option (Q -> string)) (i : nat)
  : drawing unit :=
  and_then (match col with
            | Some c => pure c
            | None => and_then (index labels i) (fun l => pure (label_color l))
            end) (fun c =>
  and_then (index boxes i) (fun box =>
  and_then (draw_box box c 2) (fun _ =>
  and_then (index labels i) (fun l =>
  and_then (match label_to_name with
            | Some name => pure (name l ++ ": " ++ format_2f (nth i scores 0%Q))
            | None => raise TypeError
            end) (fun caption =>
  and_then (index boxes i) (fun box' =>
  draw_caption box' caption)))))).

Definition draw_detections (boxes : list (list Q)) (scores : list Q)
                           (labels : list Q) (col : option color)
                           (label_to_name : option (Q -> string))
                           (score_threshold : Q) : drawing unit :=
  for_each (selection scores score_threshold)
           (draw_detection boxes scores labels col label_to_name).

(** One round of the loop of [draw_annotations]. *)
Definition draw_annotation (bboxes : option (list (list Q)))
                           (labels : option (list Q)) (col : option color)
                           (label_to_name : option (Q -> string)) (i : nat)
  : drawing unit :=
  and_then (lookup labels) (fun ls =>
  and_then (index ls i) (fun label =>
  let c := match col with Some c => c | None => label_color label end in
  let caption := match label_to_name with
                 | Some name => name label
                 | None => format_number label
                 end in
  and_then (lookup bboxes) (fun bs =>
  and_then (index bs i) (fun box =>
  and_then (draw_caption box caption) (fun _ =>
  and_then (lookup bboxes) (fun bs' =>
  and_then (index bs' i) (fun box' =>
  draw_box box' c 2))))))).

Definition draw_annotations (debug : bool) (a : annotations)
                            (col : option color)
                            (label_to_name : option (Q -> string))
  : drawing unit :=
  and_then (match a with
            | NdArray columns rows =>
                if (4 <? columns)%nat
                then pure (Some (map (firstn 4) rows),
                           Some (map (fun row => nth 4 row 0%Q) rows))
                else raise IndexError
            | Dict bboxes labels => pure (bboxes, labels)
            end) (fun d =>
  let (bboxes, labels) := (d : option (list (list Q)) * option (list Q)) in
  and_then (assert debug (pure (has_key bboxes))) (fun _ =>
  and_then (assert debug (pure (has_key labels))) (fun _ =>
  and_then (assert debug
              (and_then (lookup bboxes) (fun bs =>
               and_then (lookup labels) (fun ls =>
               pure (List.length bs =? List.length ls)%nat)))) (fun _ =>
  and_then (lookup bboxes) (fun bs =>
  for_each (seq 0 (List.length bs))
           (draw_annotation bboxes labels col label_to_name)))))).

End WithCollaborators.

End Visualization.

(** * Lemmas *)

(** ** The operations on the examples of TensorFlow's documentation *)

Example arange_three :
  arange 3 = Ok (mkTensor [3] [0; 1; 2]%Q).
Proof. reflexivity. Qed.

Example arange_zero_is_empty :
  arange 0 = Ok (mkTensor [0] []).
Proof. reflexivity. Qed.

Example arange_negative_is_refused :
  arange (-2) = Err InvalidArgument.
Proof. reflexivity. Qed.

Example meshgrid_xy :
  meshgrid (mkTensor [3] [1; 2; 3]%Q) (mkTensor [3] [4; 5; 6]%Q)
  = (mkTensor [3; 3] [1; 2; 3; 1; 2; 3; 1; 2; 3]%Q,
     mkTensor [3; 3] [4; 4; 4; 5; 5; 5; 6; 6; 6]%Q).
Proof. reflexivity. Qed.

Example stack_axis_0 :
  stack [mkTensor [2] [1; 4]%Q; mkTensor [2] [2; 5]%Q; mkTensor [2] [3; 6]%Q] 0
  = Ok (mkTensor [3; 2] [1; 4; 2; 5; 3; 6]%Q).
Proof. reflexivity. Qed.

Example stack_axis_1 :
  stack [mkTensor [2] [1; 4]%Q; mkTensor [2] [2; 5]%Q; mkTensor [2] [3; 6]%Q] 1
  = Ok (mkTensor [2; 3] [1; 2; 3; 4; 5; 6]%Q).
Proof. reflexivity. Qed.

Example stack_unequal_shapes :
  stack [mkTensor [2] [1; 4]%Q; mkTensor [3] [2; 5; 7]%Q] 0
  = Err ShapeMismatch.
Proof. reflexivity. Qed.

Example transpose_matrix :
  transpose (mkTensor [2; 3] [1; 2; 3; 4; 5; 6]%Q)
  = mkTensor [3; 2] [1; 4; 2; 5; 3; 6]%Q.
Proof. reflexivity. Qed.

Example take_last_axis :
  take_axis 2 1 (mkTensor [1; 2; 3] [1; 2; 3; 4; 5; 6]%Q)
  = Ok (mkTensor [1; 2] [2; 5]%Q).
Proof. reflexivity. Qed.

Example take_out_of_range :
  take_axis 2 3 (mkTensor [1; 2; 3] [1; 2; 3; 4; 5; 6]%Q)
  = Err IndexOutOfRange.
Proof. reflexivity. Qed.

Example broadcast_row_against_column :
  binop Qplus (mkTensor [1; 3] [1; 2; 3]%Q) (mkTensor [2; 1] [10; 20]%Q)
  = Ok (mkTensor [2; 3] [11; 12; 13; 21; 22; 23]%Q).
Proof. vm_compute. reflexivity. Qed.

Example broadcast_incompatible :
  binop Qplus (mkTensor [1; 3] [1; 2; 3]%Q) (mkTensor [1; 4] [1; 2; 3; 4]%Q)
  = Err ShapeMismatch.
Proof. reflexivity. Qed.

Example clip_by_value_vector :
  clip_by_value (mkTensor [4] [-5; 3; 9; 15]%Q) 0 9
  = Ok (mkTensor [4] [0; 3; 9; 9]%Q).
Proof. reflexivity. Qed.

Example reshape_wrong_size :
  reshape (mkTensor [2; 3] [1; 2; 3; 4; 5; 6]%Q) [4; 2] = Err ShapeMismatch.
Proof. reflexivity. Qed.

Example tuple_ge_python :
  tuple_ge [1; 14; 0]%Z [1; 14; 0]%Z = true
  /\ tuple_ge [1; 15]%Z [1; 14; 0]%Z = true
  /\ tuple_ge [1; 14]%Z [1; 14; 0]%Z = false
  /\ tuple_ge [1; 13; 9]%Z [1; 14; 0]%Z = false.
Proof. repeat split. Qed.

(** The defaults of [bbox_transform_inv]. *)
Remark bbox_transform_inv_defaults boxes deltas :
  bbox_transform_inv boxes deltas None None
  = bbox_transform_inv boxes deltas (Some [0; 0; 0; 0]%Q)
                       (Some [0.2; 0.2; 0.2; 0.2]%Q).
Proof. reflexivity. Qed.

(** ** Index lemmas *)

Lemma in_bounds_cons d sh i idx :
  in_bounds (d :: sh) (i :: idx) = true <-> i < d /\ in_bounds sh idx = true.
Proof.
  simpl. rewrite andb_true_iff, Nat.ltb_lt. tauto.
Qed.

Lemma in_bounds_length sh : forall idx,
  in_bounds sh idx = true -> length idx = length sh.
Proof.
  induction sh as [|d sh IH]; intros [|i idx] H; simpl in *; try discriminate; auto.
  apply andb_true_iff in H. destruct H as [_ H]. f_equal. auto.
Qed.

Lemma ravel_lt sh : forall idx,
  in_bounds sh idx = true -> ravel sh idx < size sh.
Proof.
  induction sh as [|d sh IH]; intros [|i idx] H; simpl in *; try discriminate.
  - lia.
  - apply andb_true_iff in H. destruct H as [Hi H].
    apply Nat.ltb_lt in Hi. specialize (IH _ H). nia.
Qed.

Lemma unravel_ravel sh : forall idx,
  in_bounds sh idx = true -> unravel sh (ravel sh idx) = idx.
Proof.
  induction sh as [|d sh IH]; intros [|i idx] H; simpl in *; try discriminate; auto.
  apply andb_true_iff in H. destruct H as [_ H].
  pose proof (ravel_lt _ _ H) as Hlt.
  assert (Hnz : size sh <> 0) by lia.
  rewrite Nat.div_add_l by exact Hnz.
  rewrite (Nat.div_small (ravel sh idx)) by exact Hlt.
  rewrite Nat.add_0_r.
  rewrite Nat.add_comm, Nat.Div0.mod_add.
  rewrite Nat.mod_small by exact Hlt.
  f_equal. apply IH. exact H.
Qed.

Lemma in_bounds_unravel sh : forall n,
  n < size sh -> in_bounds sh (unravel sh n) = true.
Proof.
  induction sh as [|d sh IH]; intros n H; simpl in *; auto.
  assert (Hnz : size sh <> 0) by (intro E; rewrite E in H; lia).
  apply andb_true_iff. split.
  - apply Nat.ltb_lt. apply Nat.Div0.div_lt_upper_bound. lia.
  - apply IH. apply Nat.mod_upper_bound. exact Hnz.
Qed.

Lemma ravel_unravel sh : forall n,
  n < size sh -> ravel sh (unravel sh n) = n.
Proof.
  induction sh as [|d sh IH]; intros n H; simpl in *.
  - lia.
  - assert (Hnz : size sh <> 0) by (intro E; rewrite E in H; lia).
    rewrite IH by (apply Nat.mod_upper_bound; exact Hnz).
    pose proof (Nat.div_mod_eq n (size sh)). lia.
Qed.

Lemma shape_build sh f : shape (build sh f) = sh.
Proof. reflexivity. Qed.

Lemma wf_build sh f : wf (build sh f).
Proof.
  unfold wf, build. simpl. rewrite length_map, length_seq. reflexivity.
Qed.

Lemma get_build sh f idx :
  in_bounds sh idx = true -> get (build sh f) idx = f idx.
Proof.
  intro H. unfold get. rewrite shape_build, H. unfold build. simpl.
  pose proof (ravel_lt _ _ H) as Hlt.
  rewrite (nth_indep _ 0%Q (f (unravel sh 0))) by (rewrite length_map, length_seq; exact Hlt).
  rewrite (map_nth (fun n => f (unravel sh n)) (seq 0 (size sh)) 0).
  rewrite seq_nth by exact Hlt. simpl.
  rewrite unravel_ravel by exact H. reflexivity.
Qed.

Lemma in_bounds_app sh1 : forall idx1 sh2 idx2,
  length sh1 = length idx1 ->
  in_bounds (sh1 ++ sh2) (idx1 ++ idx2)
  = in_bounds sh1 idx1 && in_bounds sh2 idx2.
Proof.
  induction sh1 as [|d sh1 IH]; intros [|i idx1] sh2 idx2 Hlen;
    simpl in *; try discriminate; auto.
  rewrite IH by lia. apply andb_assoc.
Qed.

Lemma in_bounds_length_neq sh idx :
  length idx <> length sh -> in_bounds sh idx = false.
Proof.
  intro H. destruct (in_bounds sh idx) eqn:E; auto.
  apply in_bounds_length in E. contradiction.
Qed.

Lemma in_bounds_rev sh idx :
  in_bounds (rev sh) (rev idx) = in_bounds sh idx.
Proof.
  destruct (Nat.eq_dec (length idx) (length sh)) as [Hlen|Hlen].
  - revert idx Hlen.
    induction sh as [|d sh IH]; intros [|i idx] Hlen; simpl in *;
      try discriminate; auto.
    rewrite in_bounds_app by (rewrite !length_rev; lia).
    rewrite IH by lia. simpl. rewrite andb_true_r. apply andb_comm.
  - rewrite (in_bounds_length_neq sh idx) by exact Hlen.
    apply in_bounds_length_neq. rewrite !length_rev. exact Hlen.
Qed.

(** ** Broadcasting *)

Lemma broadcast_dim_refl x : broadcast_dim x x = Some x.
Proof. unfold broadcast_dim. rewrite Nat.eqb_refl. reflexivity. Qed.

Lemma broadcast_dim_1_l y : broadcast_dim 1 y = Some y.
Proof.
  unfold broadcast_dim. destruct (1 =? y) eqn:E; simpl; auto.
  apply Nat.eqb_eq in E. congruence.
Qed.

Lemma broadcast_dim_1_r x : broadcast_dim x 1 = Some x.
Proof.
  unfold broadcast_dim. destruct (x =? 1) eqn:E; reflexivity.
Qed.

Lemma broadcast_dim_some x y d :
  broadcast_dim x y = Some d ->
  (x = d \/ x = 1) /\ (y = d \/ y = 1).
Proof.
  unfold broadcast_dim.
  destruct (x =? y) eqn:E1; [apply Nat.eqb_eq in E1|].
  { intros [= <-]. subst. auto. }
  destruct (x =? 1) eqn:E2; [apply Nat.eqb_eq in E2|].
  { intros [= <-]. auto. }
  destruct (y =? 1) eqn:E3; [apply Nat.eqb_eq in E3|]; [|discriminate].
  intros [= <-]. auto.
Qed.

Lemma broadcast_dim_none x y :
  broadcast_dim x y = None <-> x <> y /\ x <> 1 /\ y <> 1.
Proof.
  unfold broadcast_dim.
  destruct (x =? y) eqn:E1; [apply Nat.eqb_eq in E1|apply Nat.eqb_neq in E1].
  { split; [discriminate|]. intros [H _]. contradiction. }
  destruct (x =? 1) eqn:E2; [apply Nat.eqb_eq in E2|apply Nat.eqb_neq in E2].
  { split; [discriminate|]. intros (_ & H & _). contradiction. }
  destruct (y =? 1) eqn:E3; [apply Nat.eqb_eq in E3|apply Nat.eqb_neq in E3].
  { split; [discriminate|]. intros (_ & _ & H). contradiction. }
  tauto.
Qed.

Lemma bidx_rev_same sh : forall idx,
  in_bounds sh idx = true -> bidx_rev sh idx = idx.
Proof.
  induction sh as [|d sh IH]; intros [|i idx] H; simpl in *;
    try discriminate; auto.
  apply andb_true_iff in H. destruct H as [Hi H]. apply Nat.ltb_lt in Hi.
  rewrite IH by exact H.
  destruct (d =? 1) eqn:E; auto.
  apply Nat.eqb_eq in E. f_equal. lia.
Qed.

Lemma bidx_rev_in_bounds_l a : forall b r idx,
  broadcast_rev a b = Some r ->
  in_bounds r idx = true ->
  in_bounds a (bidx_rev a idx) = true.
Proof.
  induction a as [|x a IH]; intros b r idx Hb Hin.
  - destruct idx; reflexivity.
  - destruct b as [|y b].
    + simpl in Hb. injection Hb as <-.
      rewrite bidx_rev_same by exact Hin. exact Hin.
    + simpl in Hb.
      destruct (broadcast_dim x y) as [d|] eqn:Ed; [|discriminate].
      destruct (broadcast_rev a b) as [r'|] eqn:Er; [|discriminate].
      injection Hb as <-.
      destruct idx as [|i idx]; [discriminate|].
      apply in_bounds_cons in Hin. destruct Hin as [Hi Hin].
      simpl. apply andb_true_iff. split.
      * apply Nat.ltb_lt. apply broadcast_dim_some in Ed.
        destruct (x =? 1) eqn:E; [apply Nat.eqb_eq in E|apply Nat.eqb_neq in E];
          lia.
      * eapply IH; eassumption.
Qed.

Lemma bidx_rev_in_bounds_r b : forall a r idx,
  broadcast_rev a b = Some r ->
  in_bounds r idx = true ->
  in_bounds b (bidx_rev b idx) = true.
Proof.
  induction b as [|y b IH]; intros a r idx Hb Hin.
  - destruct idx; reflexivity.
  - destruct a as [|x a].
    + simpl in Hb. injection Hb as <-.
      rewrite bidx_rev_same by exact Hin. exact Hin.
    + simpl in Hb.
      destruct (broadcast_dim x y) as [d|] eqn:Ed; [|discriminate].
      destruct (broadcast_rev a b) as [r'|] eqn:Er; [|discriminate].
      injection Hb as <-.
      destruct idx as [|i idx]; [discriminate|].
      apply in_bounds_cons in Hin. destruct Hin as [Hi Hin].
      simpl. apply andb_true_iff. split.
      * apply Nat.ltb_lt. apply broadcast_dim_some in Ed.
        destruct (y =? 1) eqn:E; [apply Nat.eqb_eq in E|apply Nat.eqb_neq in E];
          lia.
      * eapply IH; eassumption.
Qed.

Lemma broadcast_index_in_bounds sa sb sh idx :
  broadcast_shape sa sb = Some sh ->
  in_bounds sh idx = true ->
  in_bounds sa (broadcast_index sa idx) = true
  /\ in_bounds sb (broadcast_index sb idx) = true.
Proof.
  unfold broadcast_shape, broadcast_index. intros Hb Hin.
  destruct (broadcast_rev (rev sa) (rev sb)) as [r|] eqn:Er; [|discriminate].
  simpl in Hb. injection Hb as <-.
  rewrite <- (rev_involutive idx) in Hin. rewrite in_bounds_rev in Hin.
  split.
  - rewrite <- in_bounds_rev, rev_involutive.
    eapply bidx_rev_in_bounds_l; eassumption.
  - rewrite <- in_bounds_rev, rev_involutive.
    eapply bidx_rev_in_bounds_r; eassumption.
Qed.

Lemma broadcast_index_same sh idx :
  in_bounds sh idx = true -> broadcast_index sh idx = idx.
Proof.
  intro H. unfold broadcast_index.
  rewrite bidx_rev_same by (rewrite in_bounds_rev; exact H).
  apply rev_involutive.
Qed.

Lemma broadcast_index_scalar idx : broadcast_index [] idx = [].
Proof. reflexivity. Qed.

Lemma broadcast_rev_nil_r a : broadcast_rev a [] = Some a.
Proof. destruct a; reflexivity. Qed.

Lemma broadcast_shape_scalar_r sh : broadcast_shape sh [] = Some sh.
Proof.
  unfold broadcast_shape. change (rev []) with (@nil nat).
  rewrite broadcast_rev_nil_r. simpl. rewrite rev_involutive. reflexivity.
Qed.

Lemma broadcast_rev_same a : broadcast_rev a a = Some a.
Proof.
  induction a as [|x a IH]; simpl; auto.
  rewrite broadcast_dim_refl, IH. reflexivity.
Qed.

Lemma broadcast_shape_same sh : broadcast_shape sh sh = Some sh.
Proof.
  unfold broadcast_shape. rewrite broadcast_rev_same. simpl.
  rewrite rev_involutive. reflexivity.
Qed.

(** ** What each operation returns *)

Lemma represents_ext t sh g g' :
  represents t sh g ->
  (forall idx, in_bounds sh idx = true -> g idx = g' idx) ->
  represents t sh g'.
Proof.
  intros (Hs & Hw & Hg) He. repeat split; auto.
  intros idx Hin. rewrite Hg by exact Hin. apply He. exact Hin.
Qed.

Lemma represents_self t sh : has_shape t sh -> represents t sh (get t).
Proof. intros [Hs Hw]. repeat split; auto. Qed.

Lemma represents_build sh f : represents (build sh f) sh f.
Proof.
  repeat split.
  - apply wf_build.
  - intros idx H. apply get_build. exact H.
Qed.

Lemma scalar_rep q : represents (scalar q) [] (fun _ => q).
Proof.
  repeat split. intros [|i idx] H; [reflexivity|discriminate].
Qed.

Lemma binop_rep f a b sa sb sh ga gb :
  represents a sa ga -> represents b sb gb ->
  broadcast_shape sa sb = Some sh ->
  exists t, binop f a b = Ok t /\
    represents t sh (fun idx => f (ga (broadcast_index sa idx))
                                  (gb (broadcast_index sb idx))).
Proof.
  intros (Hsa & _ & Hga) (Hsb & _ & Hgb) Hb.
  unfold binop. rewrite Hsa, Hsb, Hb.
  eexists. split; [reflexivity|].
  eapply represents_ext; [apply represents_build|].
  intros idx Hin. simpl.
  destruct (broadcast_index_in_bounds _ _ _ _ Hb Hin) as [Ha Hb'].
  rewrite Hga, Hgb by assumption. reflexivity.
Qed.

Lemma binop_err f a b :
  broadcast_shape (shape a) (shape b) = None ->
  binop f a b = Err ShapeMismatch.
Proof. intro H. unfold binop. rewrite H. reflexivity. Qed.

Lemma binop_scalar_rep f a sh g q :
  represents a sh g ->
  exists t, binop f a (scalar q) = Ok t /\
    represents t sh (fun idx => f (g idx) q).
Proof.
  intro Ha.
  destruct (binop_rep f a (scalar q) sh [] sh g (fun _ => q) Ha (scalar_rep q)
              (broadcast_shape_scalar_r sh)) as (t & Ht & Hr).
  exists t. split; [exact Ht|].
  eapply represents_ext; [exact Hr|].
  intros idx Hin. simpl. rewrite broadcast_index_same by exact Hin. reflexivity.
Qed.

Lemma binop_same_rep f a b sh ga gb :
  represents a sh ga -> represents b sh gb ->
  exists t, binop f a b = Ok t /\
    represents t sh (fun idx => f (ga idx) (gb idx)).
Proof.
  intros Ha Hb.
  destruct (binop_rep f a b sh sh sh ga gb Ha Hb (broadcast_shape_same sh))
    as (t & Ht & Hr).
  exists t. split; [exact Ht|].
  eapply represents_ext; [exact Hr|].
  intros idx Hin. simpl. rewrite broadcast_index_same by exact Hin. reflexivity.
Qed.

Lemma in_bounds_insert_at axis : forall sh idx c,
  axis < length sh -> c < nth axis sh 0 ->
  in_bounds (remove_at axis sh) idx = true ->
  in_bounds sh (insert_at axis c idx) = true.
Proof.
  induction axis as [|n IH]; intros [|d sh] idx c Hlen Hc Hin;
    simpl in *; try lia.
  - destruct idx; simpl; apply andb_true_iff; split; auto;
      apply Nat.ltb_lt; exact Hc.
  - destruct idx as [|i idx]; [discriminate|].
    apply andb_true_iff in Hin. destruct Hin as [Hi Hin].
    simpl. rewrite Hi. simpl. apply IH; auto. lia.
Qed.

Lemma in_bounds_remove_at axis : forall sh idx n,
  axis <= length sh ->
  in_bounds (insert_at axis n sh) idx = true ->
  nth axis idx 0 < n /\ in_bounds sh (remove_at axis idx) = true.
Proof.
  induction axis as [|m IH]; intros sh idx n Hlen Hin.
  - assert (E : insert_at 0 n sh = n :: sh) by (destruct sh; reflexivity).
    rewrite E in Hin. destruct idx as [|i idx]; [discriminate|].
    apply in_bounds_cons in Hin. exact Hin.
  - destruct sh as [|d sh]; [simpl in Hlen; lia|].
    simpl in Hin. destruct idx as [|i idx]; [discriminate|].
    apply andb_true_iff in Hin. destruct Hin as [Hi Hin].
    simpl in Hlen. destruct (IH sh idx n ltac:(lia) Hin) as [H1 H2].
    simpl. rewrite Hi, H2. auto.
Qed.

Lemma take_axis_rep axis c t sh g :
  represents t sh g ->
  axis < length sh -> c < nth axis sh 0 ->
  exists t', take_axis axis c t = Ok t' /\
    represents t' (remove_at axis sh) (fun idx => g (insert_at axis c idx)).
Proof.
  intros (Hs & _ & Hg) Hlen Hc. unfold take_axis. rewrite Hs.
  apply Nat.ltb_lt in Hlen as Hlen'. apply Nat.ltb_lt in Hc as Hc'.
  rewrite Hlen', Hc'. simpl.
  eexists. split; [reflexivity|].
  eapply represents_ext; [apply represents_build|].
  intros idx Hin. simpl. apply Hg. apply in_bounds_insert_at; assumption.
Qed.

Lemma shape_eqb_refl sh : shape_eqb sh sh = true.
Proof.
  induction sh as [|d sh IH]; simpl; auto.
  rewrite Nat.eqb_refl, IH. reflexivity.
Qed.

Lemma stack4_rep axis sh t0 t1 t2 t3 g0 g1 g2 g3 :
  represents t0 sh g0 -> represents t1 sh g1 ->
  represents t2 sh g2 -> represents t3 sh g3 ->
  axis <= length sh ->
  exists t, stack [t0; t1; t2; t3] axis = Ok t /\
    represents t (insert_at axis 4 sh)
      (fun idx => nth (nth axis idx 0) [g0; g1; g2; g3] g0 (remove_at axis idx)).
Proof.
  intros (Hs0 & _ & Hg0) (Hs1 & _ & Hg1) (Hs2 & _ & Hg2) (Hs3 & _ & Hg3) Hax.
  unfold stack. simpl forallb. rewrite Hs0, Hs1, Hs2, Hs3.
  rewrite shape_eqb_refl. apply Nat.leb_le in Hax as Hax'. rewrite Hax'.
  simpl andb. eexists. split; [reflexivity|].
  eapply represents_ext; [apply represents_build|].
  intros idx Hin. simpl.
  destruct (in_bounds_remove_at _ _ _ _ Hax Hin) as [Hc Hin'].
  destruct (nth axis idx 0) as [|[|[|[|c]]]]; simpl; auto. lia.
Qed.

Lemma transpose_rep t sh g :
  represents t sh g ->
  represents (transpose t) (rev sh) (fun idx => g (rev idx)).
Proof.
  intros (Hs & _ & Hg). unfold transpose. rewrite Hs.
  eapply represents_ext; [apply represents_build|].
  intros idx Hin. simpl. apply Hg.
  rewrite <- in_bounds_rev, rev_involutive. exact Hin.
Qed.

Lemma get_unravel t sh g n :
  represents t sh g -> n < size sh ->
  nth n (data t) 0%Q = g (unravel sh n).
Proof.
  intros (Hs & _ & Hg) Hn.
  rewrite <- Hg by (apply in_bounds_unravel; exact Hn).
  unfold get. rewrite Hs, in_bounds_unravel by exact Hn.
  rewrite ravel_unravel by exact Hn. reflexivity.
Qed.

Lemma reshape_rep t sh g sh' :
  represents t sh g -> size sh' = size sh ->
  exists t', reshape t sh' = Ok t' /\
    represents t' sh' (fun idx => g (unravel sh (ravel sh' idx))).
Proof.
  intros Hr Hsz. pose proof Hr as (Hs & Hw & Hg).
  unfold reshape. rewrite Hs. apply Nat.eqb_eq in Hsz as Hsz'. rewrite Hsz'.
  eexists. split; [reflexivity|].
  repeat split.
  - unfold wf in *. simpl. rewrite Hw, Hs. symmetry. exact Hsz.
  - intros idx Hin. unfold get. simpl. rewrite Hin.
    apply (get_unravel t sh g); [exact Hr|].
    rewrite <- Hsz. apply ravel_lt. exact Hin.
Qed.

Lemma reshape_err t sh' :
  size sh' <> size (shape t) -> reshape t sh' = Err ShapeMismatch.
Proof.
  intro H. unfold reshape. apply Nat.eqb_neq in H. rewrite H. reflexivity.
Qed.

Lemma ravel_rank1 n j : ravel [n] [j] = j.
Proof. simpl. lia. Qed.

Lemma reshape_flat_rep t sh g :
  represents t sh g ->
  represents (reshape_flat t) [size sh]
    (fun idx => g (unravel sh (nth 0 idx 0))).
Proof.
  intros Hr. pose proof Hr as (Hs & Hw & Hg).
  unfold reshape_flat. rewrite Hs. repeat split.
  - unfold wf in *. simpl. rewrite Hw, Hs. lia.
  - intros [|j [|? ?]] Hin; simpl in Hin; try discriminate;
      [|rewrite andb_false_r in Hin; discriminate].
    rewrite andb_true_r in Hin. apply Nat.ltb_lt in Hin.
    unfold get. cbn [shape data in_bounds]. apply Nat.ltb_lt in Hin as Hin'.
    rewrite Hin'. cbn [andb]. rewrite ravel_rank1. cbn [nth].
    apply (get_unravel t sh g); assumption.
Qed.

Lemma in_bounds_rank1 n idx :
  in_bounds [n] idx = true -> exists j, idx = [j] /\ j < n.
Proof.
  destruct idx as [|j [|? ?]]; simpl; try discriminate.
  - rewrite andb_true_r. intro H. apply Nat.ltb_lt in H. eauto.
  - rewrite andb_false_r. discriminate.
Qed.

Lemma in_bounds_rank2 n m idx :
  in_bounds [n; m] idx = true -> exists i j, idx = [i; j] /\ i < n /\ j < m.
Proof.
  destruct idx as [|i [|j [|? ?]]]; simpl; try discriminate.
  - rewrite andb_false_r. discriminate.
  - rewrite andb_true_r, andb_true_iff, !Nat.ltb_lt. eauto.
  - rewrite !andb_false_r. discriminate.
Qed.

Lemma in_bounds_rank3 n m p idx :
  in_bounds [n; m; p] idx = true ->
  exists i j l, idx = [i; j; l] /\ i < n /\ j < m /\ l < p.
Proof.
  destruct idx as [|i [|j [|l [|? ?]]]]; simpl; try discriminate.
  - rewrite andb_false_r. discriminate.
  - rewrite !andb_false_r. discriminate.
  - rewrite andb_true_r, !andb_true_iff, !Nat.ltb_lt.
    intros (? & ? & ?). eauto 10.
  - rewrite !andb_false_r. discriminate.
Qed.

Lemma in_bounds_rank1_intro n j : j < n -> in_bounds [n] [j] = true.
Proof. intro H. simpl. apply Nat.ltb_lt in H. rewrite H. reflexivity. Qed.

Lemma in_bounds_rank2_intro n m i j :
  i < n -> j < m -> in_bounds [n; m] [i; j] = true.
Proof.
  intros H1 H2. simpl. apply Nat.ltb_lt in H1, H2. rewrite H1, H2. reflexivity.
Qed.

Lemma in_bounds_rank3_intro n m p i j l :
  i < n -> j < m -> l < p -> in_bounds [n; m; p] [i; j; l] = true.
Proof.
  intros H1 H2 H3. simpl. apply Nat.ltb_lt in H1, H2, H3.
  rewrite H1, H2, H3. reflexivity.
Qed.

Lemma flat_get_rank1 t n g j :
  represents t [n] g -> j < n -> flat_get t j = g [j].
Proof.
  intros (Hs & _ & Hg) Hj.
  rewrite <- Hg by (apply in_bounds_rank1_intro; exact Hj).
  unfold get, flat_get. rewrite Hs, in_bounds_rank1_intro by exact Hj.
  rewrite ravel_rank1. reflexivity.
Qed.

Lemma meshgrid_rep x y nx ny gx gy :
  represents x [nx] gx -> represents y [ny] gy ->
  represents (fst (meshgrid x y)) [ny; nx] (fun idx => gx [nth 1 idx 0])
  /\ represents (snd (meshgrid x y)) [ny; nx] (fun idx => gy [nth 0 idx 0]).
Proof.
  intros Hx Hy. pose proof Hx as (Hsx & _ & _). pose proof Hy as (Hsy & _ & _).
  unfold meshgrid. rewrite Hsx, Hsy. simpl size. rewrite !Nat.mul_1_r.
  simpl fst. simpl snd. split.
  - eapply represents_ext; [apply represents_build|].
    intros idx Hin. apply in_bounds_rank2 in Hin.
    destruct Hin as (i & j & -> & Hi & Hj). simpl.
    apply (flat_get_rank1 x nx gx); assumption.
  - eapply represents_ext; [apply represents_build|].
    intros idx Hin. apply in_bounds_rank2 in Hin.
    destruct Hin as (i & j & -> & Hi & Hj). simpl.
    apply (flat_get_rank1 y ny gy); assumption.
Qed.

Lemma arange_negative stop :
  (stop < 0)%Z -> arange stop = Err InvalidArgument.
Proof.
  intro Hs. unfold arange.
  destruct (stop <? 0)%Z eqn:E; [reflexivity|].
  apply Z.ltb_ge in E. lia.
Qed.

Lemma arange_rep stop :
  (0 <= stop)%Z ->
  exists t,
    arange stop = Ok t
    /\ represents t [Z.to_nat stop]
         (fun idx => inject_Z (Z.of_nat (nth 0 idx 0))).
Proof.
  intro Hs. unfold arange.
  destruct (stop <? 0)%Z eqn:E; [apply Z.ltb_lt in E; lia|].
  eexists. split; [reflexivity|]. repeat split.
  - unfold wf. simpl. rewrite length_map, length_seq. lia.
  - intros idx Hin. pose proof Hin as Hin'. apply in_bounds_rank1 in Hin'.
    destruct Hin' as (j & -> & Hj).
    unfold get. cbn [shape data]. rewrite Hin, ravel_rank1. cbn [nth].
    rewrite (nth_indep _ 0%Q (inject_Z (Z.of_nat 0)))
      by (rewrite length_map, length_seq; exact Hj).
    rewrite (map_nth (fun i => inject_Z (Z.of_nat i))).
    rewrite seq_nth by exact Hj. reflexivity.
Qed.

Lemma py_index_0 {A : Type} (x : A) l : py_index (x :: l) 0 = Ok x.
Proof. reflexivity. Qed.

Lemma py_index_1 {A : Type} (x y : A) l : py_index (x :: y :: l) 1 = Ok y.
Proof. reflexivity. Qed.

(** ** [shift] *)

Lemma unravel_as sh sh' idx idx' :
  in_bounds sh idx' = true ->
  ravel sh' idx = ravel sh idx' ->
  unravel sh (ravel sh' idx) = idx'.
Proof. intros Hin E. rewrite E. apply unravel_ravel. exact Hin. Qed.

Lemma broadcast_index_anchors A k a c :
  a < A -> broadcast_index [1; A; 4] [k; a; c] = [0; a; c].
Proof.
  intro Ha. unfold broadcast_index. simpl.
  destruct (A =? 1) eqn:E; [apply Nat.eqb_eq in E|]; auto.
  repeat f_equal. lia.
Qed.

Lemma broadcast_index_shifts K k a c :
  k < K -> broadcast_index [K; 1; 4] [k; a; c] = [k; 0; c].
Proof.
  intro Hk. unfold broadcast_index. simpl.
  destruct (K =? 1) eqn:E; [apply Nat.eqb_eq in E|]; auto.
  repeat f_equal. lia.
Qed.

Lemma broadcast_shape_anchors_shifts A K :
  broadcast_shape [1; A; 4] [K; 1; 4] = Some [K; A; 4].
Proof.
  unfold broadcast_shape. simpl.
  rewrite broadcast_dim_1_r, broadcast_dim_1_l. reflexivity.
Qed.

Lemma unravel_grid ny nx k :
  unravel [ny; nx] k = [k / nx; k mod nx].
Proof.
  unfold unravel, size. cbn [fold_right].
  rewrite !Nat.mul_1_r, Nat.div_1_r. reflexivity.
Qed.

Lemma represents_shape t sh sh' g :
  represents t sh g -> sh = sh' -> represents t sh' g.
Proof. intros H <-. exact H. Qed.

(** The [shifts] matrix: row [k] is [(x, y, x, y)] for the grid point [k],
    [x] running fastest. *)
Lemma shifts_rep sx sy nx ny gx gy :
  represents sx [nx] gx -> represents sy [ny] gy ->
  exists stacked,
    stack [reshape_flat (fst (meshgrid sx sy));
           reshape_flat (snd (meshgrid sx sy));
           reshape_flat (fst (meshgrid sx sy));
           reshape_flat (snd (meshgrid sx sy))] 0 = Ok stacked
    /\ represents (transpose stacked) [ny * nx; 4]
         (fun idx =>
            nth (nth 1 idx 0)
              [gx [nth 0 idx 0 mod nx]; gy [nth 0 idx 0 / nx];
               gx [nth 0 idx 0 mod nx]; gy [nth 0 idx 0 / nx]] 0%Q).
Proof.
  intros Hsx Hsy.
  destruct (meshgrid_rep sx sy _ _ _ _ Hsx Hsy) as [Hgx Hgy].
  pose proof (reshape_flat_rep _ _ _ Hgx) as Hfx.
  pose proof (reshape_flat_rep _ _ _ Hgy) as Hfy.
  destruct (stack4_rep 0 _ _ _ _ _ _ _ _ _ Hfx Hfy Hfx Hfy ltac:(simpl; lia))
    as (stacked & Est & Hst).
  exists stacked. split; [exact Est|].
  pose proof (transpose_rep _ _ _ Hst) as Htr.
  assert (Esh : rev (insert_at 0 4 [size [ny; nx]]) = [ny * nx; 4]).
  { unfold size. cbn [fold_right insert_at rev app].
    rewrite Nat.mul_1_r. reflexivity. }
  apply (represents_shape _ _ _ _ Htr) in Esh.
  eapply represents_ext; [exact Esh|].
  intros idx Hin. apply in_bounds_rank2 in Hin.
  destruct Hin as (k & c & -> & Hk & Hc).
  cbn [rev app nth remove_at].
  destruct c as [|[|[|[|c]]]]; cbn [nth]; try lia;
    rewrite unravel_grid; reflexivity.
Qed.

(** Adding every row of [shifts] to every anchor: row [k * A + a] of the
    result is [anchors[a] + shifts[k]]. *)
Lemma tile_rep anchors shifts A K ga gs :
  represents anchors [A; 4] ga -> represents shifts [K; 4] gs ->
  exists out,
    (number_of_anchors <- py_index (shape anchors) 0 ;;
     k <- py_index (shape shifts) 0 ;;
     anchors3 <- reshape anchors [1; number_of_anchors; 4] ;;
     shifts3 <- reshape shifts [k; 1; 4] ;;
     shifted_anchors <- binop Qplus anchors3 shifts3 ;;
     reshape shifted_anchors [k * number_of_anchors; 4]) = Ok out
    /\ shape out = [K * A; 4]
    /\ wf out
    /\ forall k a c, k < K -> a < A -> c < 4 ->
         get out [k * A + a; c] = (ga [a; c] + gs [k; c])%Q.
Proof.
  intros Ha Hs.
  pose proof Ha as (Esa & _ & _). pose proof Hs as (Ess & _ & _).
  rewrite Esa, Ess, !py_index_0. cbn [bind].
  destruct (reshape_rep anchors _ _ [1; A; 4] Ha ltac:(simpl; lia))
    as (a3 & -> & Ha3). cbn [bind].
  destruct (reshape_rep shifts _ _ [K; 1; 4] Hs ltac:(simpl; lia))
    as (s3 & -> & Hs3). cbn [bind].
  destruct (binop_rep Qplus a3 s3 _ _ _ _ _ Ha3 Hs3
              (broadcast_shape_anchors_shifts A K)) as (sum & -> & Hsum).
  cbn [bind].
  destruct (reshape_rep sum _ _ [K * A; 4] Hsum ltac:(simpl; lia))
    as (out & -> & Hout).
  exists out. split; [reflexivity|].
  destruct Hout as (Eso & Hwo & Hgo).
  split; [exact Eso|]. split; [exact Hwo|].
  intros k a c Hk Hac Hc.
  rewrite Hgo by (apply in_bounds_rank2_intro; nia).
  cbv beta.
  rewrite (unravel_as [K; A; 4] [K * A; 4] [k * A + a; c] [k; a; c])
    by (try (apply in_bounds_rank3_intro; assumption);
        unfold ravel, size; cbn [fold_right]; ring).
  rewrite broadcast_index_anchors by exact Hac.
  rewrite broadcast_index_shifts by exact Hk.
  rewrite (unravel_as [A; 4] [1; A; 4] [0; a; c] [a; c])
    by (try (apply in_bounds_rank2_intro; assumption);
        unfold ravel, size; cbn [fold_right]; ring).
  rewrite (unravel_as [K; 4] [K; 1; 4] [k; 0; c] [k; c])
    by (try (apply in_bounds_rank2_intro; assumption);
        unfold ravel, size; cbn [fold_right]; ring).
  reflexivity.
Qed.

Lemma shift_spec H W ri Hf Wf rf stride anchors A ga :
  (0 <= Hf)%Z -> (0 <= Wf)%Z ->
  represents anchors [A; 4] ga ->
  exists out,
    shift (H :: W :: ri) (Hf :: Wf :: rf) stride anchors = Ok out
    /\ shape out = [Z.to_nat Hf * Z.to_nat Wf * A; 4]
    /\ wf out
    /\ forall k a c,
         k < Z.to_nat Hf * Z.to_nat Wf -> a < A -> c < 4 ->
         get out [k * A + a; c]
         = (ga [a; c]
            + nth c
                [inject_Z (Z.of_nat (k mod Z.to_nat Wf)) * inject_Z stride
                 + inject_Z (W - (Wf - 1) * stride) / 2;
                 inject_Z (Z.of_nat (k / Z.to_nat Wf)) * inject_Z stride
                 + inject_Z (H - (Hf - 1) * stride) / 2;
                 inject_Z (Z.of_nat (k mod Z.to_nat Wf)) * inject_Z stride
                 + inject_Z (W - (Wf - 1) * stride) / 2;
                 inject_Z (Z.of_nat (k / Z.to_nat Wf)) * inject_Z stride
                 + inject_Z (H - (Hf - 1) * stride) / 2] 0)%Q.
Proof.
  intros HHf HWf Ha.
  unfold shift, offset_x, offset_y.
  rewrite !py_index_0, !py_index_1. cbn [bind].
  destruct (arange_rep Wf HWf) as (rx & -> & Hrx). cbn [bind].
  destruct (binop_scalar_rep Qmult rx _ _ (inject_Z stride) Hrx)
    as (xs & -> & Hxs). cbn [bind].
  destruct (binop_scalar_rep Qplus xs _ _
              (inject_Z (W - (Wf - 1) * stride) / 2)%Q Hxs)
    as (sx & -> & Hsx). cbn [bind].
  destruct (arange_rep Hf HHf) as (ry & -> & Hry). cbn [bind].
  destruct (binop_scalar_rep Qmult ry _ _ (inject_Z stride) Hry)
    as (ys & -> & Hys). cbn [bind].
  destruct (binop_scalar_rep Qplus ys _ _
              (inject_Z (H - (Hf - 1) * stride) / 2)%Q Hys)
    as (sy & -> & Hsy). cbn [bind].
  destruct (shifts_rep sx sy _ _ _ _ Hsx Hsy) as (stacked & Est & Hsh).
  destruct (meshgrid sx sy) as [grid_x grid_y]. cbn [fst snd] in Est.
  rewrite Est. cbn [bind].
  destruct (tile_rep anchors (transpose stacked) _ _ _ _ Ha Hsh)
    as (out & -> & Eso & Hwo & Hgo).
  exists out. split; [reflexivity|]. split; [exact Eso|]. split; [exact Hwo|].
  intros k a c Hk Hac Hc. rewrite Hgo by assumption.
  cbn [nth]. reflexivity.
Qed.

(** A negative grid extent is refused by the range, the width before the
    height, and before the anchors are looked at. *)
Lemma shift_negative_grid H W ri Hf Wf rf stride anchors :
  (Hf < 0)%Z \/ (Wf < 0)%Z ->
  shift (H :: W :: ri) (Hf :: Wf :: rf) stride anchors = Err InvalidArgument.
Proof.
  intro Hneg. unfold shift, offset_x, offset_y.
  rewrite !py_index_0, !py_index_1. cbn [bind].
  destruct (Z_lt_le_dec Wf 0) as [HW | HW].
  - rewrite (arange_negative Wf HW). reflexivity.
  - destruct Hneg as [HH | HW']; [|lia].
    destruct (arange_rep Wf HW) as (rx & -> & Hrx). cbn [bind].
    destruct (binop_scalar_rep Qmult rx _ _ (inject_Z stride) Hrx)
      as (xs & -> & Hxs). cbn [bind].
    destruct (binop_scalar_rep Qplus xs _ _
                (inject_Z (W - (Wf - 1) * stride) / 2)%Q Hxs)
      as (sx & -> & Hsx). cbn [bind].
    rewrite (arange_negative Hf HH). reflexivity.
Qed.

(** ** [bbox_transform_inv] *)

Lemma broadcast_dim_absorb x y d :
  broadcast_dim x y = Some d -> broadcast_dim y d = Some d.
Proof.
  intro H. apply broadcast_dim_some in H. destruct H as [_ [-> | ->]].
  - apply broadcast_dim_refl.
  - apply broadcast_dim_1_l.
Qed.

Lemma broadcast_rev_absorb a : forall b r,
  broadcast_rev a b = Some r -> broadcast_rev b r = Some r.
Proof.
  induction a as [|x a IH]; intros b r H.
  - simpl in H. injection H as <-. apply broadcast_rev_same.
  - destruct b as [|y b].
    + simpl in H. injection H as <-. reflexivity.
    + simpl in H.
      destruct (broadcast_dim x y) as [d|] eqn:Ed; [|discriminate].
      destruct (broadcast_rev a b) as [r'|] eqn:Er; [|discriminate].
      injection H as <-. simpl.
      rewrite (broadcast_dim_absorb _ _ _ Ed), (IH _ _ Er). reflexivity.
Qed.

Lemma broadcast_shape_absorb a b sh :
  broadcast_shape a b = Some sh -> broadcast_shape b sh = Some sh.
Proof.
  unfold broadcast_shape. intro H.
  destruct (broadcast_rev (rev a) (rev b)) as [r|] eqn:Er; [|discriminate].
  simpl in H. injection H as <-. rewrite rev_involutive.
  rewrite (broadcast_rev_absorb _ _ _ Er). reflexivity.
Qed.

(** One coordinate, boxes and deltas of one shape. *)
Lemma decode_coordinate_rep i boxes deltas mean std extent B N gb gd ge m s :
  represents boxes [B; N; 4] gb ->
  represents deltas [B; N; 4] gd ->
  represents extent [B; N] ge ->
  i < 4 -> nth_error std i = Some s -> nth_error mean i = Some m ->
  exists t, decode_coordinate i boxes deltas mean std extent = Ok t /\
    represents t [B; N]
      (fun idx => (gb (insert_at 2 i idx)
                   + (gd (insert_at 2 i idx) * s + m) * ge idx)%Q).
Proof.
  intros Hb Hd He Hi Hs Hm. unfold decode_coordinate, py_index.
  rewrite Hs, Hm.
  destruct (take_axis_rep 2 i boxes _ _ Hb ltac:(simpl; lia) ltac:(simpl; lia))
    as (b & -> & Hbr). cbn [bind remove_at] in *.
  destruct (take_axis_rep 2 i deltas _ _ Hd ltac:(simpl; lia) ltac:(simpl; lia))
    as (d & -> & Hdr). cbn [bind remove_at] in *.
  destruct (binop_scalar_rep Qmult d _ _ s Hdr) as (ds & -> & Hds).
  cbn [bind].
  destruct (binop_scalar_rep Qplus ds _ _ m Hds) as (dsm & -> & Hdsm).
  cbn [bind].
  destruct (binop_same_rep Qmult dsm extent _ _ _ Hdsm He) as (off & -> & Hoff).
  cbn [bind].
  destruct (binop_same_rep Qplus b off _ _ _ Hbr Hoff) as (t & -> & Ht).
  exists t. split; [reflexivity|]. exact Ht.
Qed.

(** One coordinate, for any two shapes: the first operation to combine
    [deltas] with [boxes] is the product with the extent. *)
Lemma decode_coordinate_bcast i boxes deltas mean std extent
      B1 N1 B2 N2 gb gd ge m s :
  represents boxes [B1; N1; 4] gb ->
  represents deltas [B2; N2; 4] gd ->
  represents extent [B1; N1] ge ->
  i < 4 -> nth_error std i = Some s -> nth_error mean i = Some m ->
  match broadcast_shape [B2; N2] [B1; N1] with
  | Some sh =>
      exists t g, decode_coordinate i boxes deltas mean std extent = Ok t
                  /\ represents t sh g
  | None => decode_coordinate i boxes deltas mean std extent = Err ShapeMismatch
  end.
Proof.
  intros Hb Hd He Hi Hs Hm. unfold decode_coordinate, py_index.
  rewrite Hs, Hm.
  destruct (take_axis_rep 2 i boxes _ _ Hb ltac:(simpl; lia) ltac:(simpl; lia))
    as (b & -> & Hbr). cbn [bind remove_at] in *.
  destruct (take_axis_rep 2 i deltas _ _ Hd ltac:(simpl; lia) ltac:(simpl; lia))
    as (d & -> & Hdr). cbn [bind remove_at] in *.
  destruct (binop_scalar_rep Qmult d _ _ s Hdr) as (ds & -> & Hds).
  cbn [bind].
  destruct (binop_scalar_rep Qplus ds _ _ m Hds) as (dsm & -> & Hdsm).
  cbn [bind].
  destruct (broadcast_shape [B2; N2] [B1; N1]) as [sh|] eqn:Eb.
  - destruct (binop_rep Qmult dsm extent _ _ _ _ _ Hdsm He Eb)
      as (off & -> & Hoff). cbn [bind].
    destruct (binop_rep Qplus b off _ _ _ _ _ Hbr Hoff
                (broadcast_shape_absorb _ _ _ Eb)) as (t & -> & Ht).
    eauto.
  - rewrite binop_err; [reflexivity|].
    destruct Hdsm as (-> & _). destruct He as (-> & _). exact Eb.
Qed.

Lemma extent_rep hi lo boxes B N gb :
  represents boxes [B; N; 4] gb -> hi < 4 -> lo < 4 ->
  exists e,
    represents e [B; N]
      (fun idx => (gb (insert_at 2 hi idx) - gb (insert_at 2 lo idx))%Q)
    /\ forall (C : Type) (k : tensor -> result C),
         (b_hi <- take_axis 2 hi boxes ;;
          b_lo <- take_axis 2 lo boxes ;;
          extent <- binop Qminus b_hi b_lo ;;
          k extent) = k e.
Proof.
  intros Hb Hhi Hlo.
  destruct (take_axis_rep 2 hi boxes _ _ Hb ltac:(simpl; lia) ltac:(simpl; lia))
    as (b2 & E2 & Hb2). cbn [remove_at] in Hb2.
  destruct (take_axis_rep 2 lo boxes _ _ Hb ltac:(simpl; lia) ltac:(simpl; lia))
    as (b0 & E0 & Hb0). cbn [remove_at] in Hb0.
  destruct (binop_same_rep Qminus b2 b0 _ _ _ Hb2 Hb0) as (e & Ee & Hex).
  exists e. split; [exact Hex|].
  intros C k. rewrite E2, E0. cbn [bind]. rewrite Ee. reflexivity.
Qed.

Lemma bbox_transform_inv_spec boxes deltas B N gb gd m0 m1 m2 m3 s0 s1 s2 s3 :
  represents boxes [B; N; 4] gb ->
  represents deltas [B; N; 4] gd ->
  exists out,
    bbox_transform_inv boxes deltas (Some [m0; m1; m2; m3])
                       (Some [s0; s1; s2; s3]) = Ok out
    /\ shape out = [B; N; 4]
    /\ wf out
    /\ forall b n, b < B -> n < N ->
         get out [b; n; 0]%nat
         = (gb [b; n; 0]%nat + (gd [b; n; 0]%nat * s0 + m0) * (gb [b; n; 2]%nat - gb [b; n; 0]%nat))%Q
         /\ get out [b; n; 1]%nat
         = (gb [b; n; 1]%nat + (gd [b; n; 1]%nat * s1 + m1) * (gb [b; n; 3]%nat - gb [b; n; 1]%nat))%Q
         /\ get out [b; n; 2]%nat
         = (gb [b; n; 2]%nat + (gd [b; n; 2]%nat * s2 + m2) * (gb [b; n; 2]%nat - gb [b; n; 0]%nat))%Q
         /\ get out [b; n; 3]%nat
         = (gb [b; n; 3]%nat + (gd [b; n; 3]%nat * s3 + m3) * (gb [b; n; 3]%nat - gb [b; n; 1]%nat))%Q.
Proof.
  intros Hb Hd. unfold bbox_transform_inv.
  destruct (extent_rep 2 0 boxes B N gb Hb ltac:(lia) ltac:(lia))
    as (width & Hw & Ew).
  destruct (extent_rep 3 1 boxes B N gb Hb ltac:(lia) ltac:(lia))
    as (height & Hh & Eh).
  rewrite Ew, Eh.
  destruct (decode_coordinate_rep 0 boxes deltas [m0; m1; m2; m3]
              [s0; s1; s2; s3] width B N gb gd _ m0 s0 Hb Hd Hw
              ltac:(lia) eq_refl eq_refl) as (x_1 & -> & Hx1). cbn [bind].
  destruct (decode_coordinate_rep 1 boxes deltas [m0; m1; m2; m3]
              [s0; s1; s2; s3] height B N gb gd _ m1 s1 Hb Hd Hh
              ltac:(lia) eq_refl eq_refl) as (y_1 & -> & Hy1). cbn [bind].
  destruct (decode_coordinate_rep 2 boxes deltas [m0; m1; m2; m3]
              [s0; s1; s2; s3] width B N gb gd _ m2 s2 Hb Hd Hw
              ltac:(lia) eq_refl eq_refl) as (x_2 & -> & Hx2). cbn [bind].
  destruct (decode_coordinate_rep 3 boxes deltas [m0; m1; m2; m3]
              [s0; s1; s2; s3] height B N gb gd _ m3 s3 Hb Hd Hh
              ltac:(lia) eq_refl eq_refl) as (y_2 & -> & Hy2). cbn [bind].
  destruct (stack4_rep 2 _ _ _ _ _ _ _ _ _ Hx1 Hy1 Hx2 Hy2 ltac:(simpl; lia))
    as (out & -> & (Eso & Hwo & Hgo)).
  exists out. split; [reflexivity|]. split; [exact Eso|]. split; [exact Hwo|].
  intros b n Hbb Hn. cbn [insert_at] in Hgo.
  rewrite !Hgo by (apply in_bounds_rank3_intro; lia).
  cbn [nth remove_at insert_at]. repeat split; reflexivity.
Qed.

Lemma broadcast_shape_rank2 B2 N2 B1 N1 :
  broadcast_shape [B2; N2] [B1; N1]
  = match broadcast_dim B2 B1, broadcast_dim N2 N1 with
    | Some b, Some n => Some [b; n]
    | _, _ => None
    end.
Proof.
  unfold broadcast_shape. simpl.
  destruct (broadcast_dim N2 N1), (broadcast_dim B2 B1); reflexivity.
Qed.

(** Any two shapes: the call succeeds exactly when the leading axes
    broadcast. *)
Lemma bbox_transform_inv_bcast boxes deltas B1 N1 B2 N2 gb gd
      m0 m1 m2 m3 s0 s1 s2 s3 :
  represents boxes [B1; N1; 4] gb ->
  represents deltas [B2; N2; 4] gd ->
  match broadcast_dim B2 B1, broadcast_dim N2 N1 with
  | Some b, Some n =>
      exists out,
        bbox_transform_inv boxes deltas (Some [m0; m1; m2; m3])
                           (Some [s0; s1; s2; s3]) = Ok out
        /\ shape out = [b; n; 4] /\ wf out
  | _, _ =>
      bbox_transform_inv boxes deltas (Some [m0; m1; m2; m3])
                         (Some [s0; s1; s2; s3]) = Err ShapeMismatch
  end.
Proof.
  intros Hb Hd. unfold bbox_transform_inv.
  destruct (extent_rep 2 0 boxes B1 N1 gb Hb ltac:(lia) ltac:(lia))
    as (width & Hw & Ew).
  destruct (extent_rep 3 1 boxes B1 N1 gb Hb ltac:(lia) ltac:(lia))
    as (height & Hh & Eh).
  rewrite Ew, Eh.
  pose proof (decode_coordinate_bcast 0 boxes deltas [m0; m1; m2; m3]
                [s0; s1; s2; s3] width B1 N1 B2 N2 gb gd _ m0 s0 Hb Hd Hw
                ltac:(lia) eq_refl eq_refl) as H0.
  pose proof (decode_coordinate_bcast 1 boxes deltas [m0; m1; m2; m3]
                [s0; s1; s2; s3] height B1 N1 B2 N2 gb gd _ m1 s1 Hb Hd Hh
                ltac:(lia) eq_refl eq_refl) as H1.
  pose proof (decode_coordinate_bcast 2 boxes deltas [m0; m1; m2; m3]
                [s0; s1; s2; s3] width B1 N1 B2 N2 gb gd _ m2 s2 Hb Hd Hw
                ltac:(lia) eq_refl eq_refl) as H2.
  pose proof (decode_coordinate_bcast 3 boxes deltas [m0; m1; m2; m3]
                [s0; s1; s2; s3] height B1 N1 B2 N2 gb gd _ m3 s3 Hb Hd Hh
                ltac:(lia) eq_refl eq_refl) as H3.
  rewrite broadcast_shape_rank2 in H0, H1, H2, H3.
  destruct (broadcast_dim B2 B1) as [b|]; [|rewrite H0; reflexivity].
  destruct (broadcast_dim N2 N1) as [n|]; [|rewrite H0; reflexivity].
  destruct H0 as (x_1 & g0 & -> & Hx1). destruct H1 as (y_1 & g1 & -> & Hy1).
  destruct H2 as (x_2 & g2 & -> & Hx2). destruct H3 as (y_2 & g3 & -> & Hy2).
  cbn [bind].
  destruct (stack4_rep 2 _ _ _ _ _ _ _ _ _ Hx1 Hy1 Hx2 Hy2 ltac:(simpl; lia))
    as (out & -> & (Eso & Hwo & _)).
  exists out. auto.
Qed.

(** ** Extensionality of tensors *)

Lemma data_ext (R : Q -> Q -> Prop) a b :
  shape a = shape b -> wf a -> wf b ->
  (forall idx, in_bounds (shape a) idx = true -> R (get a idx) (get b idx)) ->
  Forall2 R (data a) (data b).
Proof.
  intros Es Ha Hb He.
  assert (Hra : represents a (shape a) (get a))
    by (apply represents_self; split; auto).
  assert (Hrb : represents b (shape a) (get b))
    by (apply represents_self; split; auto).
  assert (Hn : forall n, n < size (shape a) ->
                 R (nth n (data a) 0%Q) (nth n (data b) 0%Q)).
  { intros n Hn.
    rewrite (get_unravel a (shape a) (get a) n) by assumption.
    rewrite (get_unravel b (shape a) (get b) n) by assumption.
    apply He. apply in_bounds_unravel. exact Hn. }
  unfold wf in *. clear Hra Hrb.
  rewrite <- Ha in Hn. rewrite Es in Ha. rewrite <- Hb in Ha. clear - Hn Ha.
  revert Hn Ha. generalize (data a) as la, (data b) as lb.
  induction la as [|x la IH]; intros [|y lb] Hn Hlen; simpl in *;
    try discriminate; constructor.
  - apply (Hn 0). lia.
  - apply IH; [|lia]. intros n Hlt. apply (Hn (S n)). lia.
Qed.

Lemma tensor_ext a b :
  shape a = shape b -> wf a -> wf b ->
  (forall idx, in_bounds (shape a) idx = true -> get a idx = get b idx) ->
  a = b.
Proof.
  intros Es Ha Hb He. pose proof (data_ext eq a b Es Ha Hb He) as H.
  destruct a as [sa da], b as [sb db]. simpl in *. subst sb. f_equal.
  clear - H. induction H; congruence.
Qed.

Lemma tensor_eq_intro a b :
  shape a = shape b -> wf a -> wf b ->
  (forall idx, in_bounds (shape a) idx = true -> get a idx == get b idx) ->
  tensor_eq a b.
Proof.
  intros Es Ha Hb He. split; [exact Es|]. apply data_ext; assumption.
Qed.

(** ** [ClipBoxes.call] *)

Lemma clip_by_value_rep t sh g lo hi :
  represents t sh g ->
  exists t', clip_by_value t lo hi = Ok t' /\
    represents t' sh (fun idx => Qmax (Qmin (g idx) hi) lo).
Proof.
  intro Ht. unfold clip_by_value.
  destruct (binop_scalar_rep Qmin t _ _ hi Ht) as (t_min & -> & Hmin).
  cbn [bind].
  destruct (binop_scalar_rep Qmax t_min _ _ lo Hmin) as (t_max & -> & Hmax).
  exists t_max. split; [reflexivity|]. exact Hmax.
Qed.

Lemma clip_coordinate_rep i boxes B N gb lo hi :
  represents boxes [B; N; 4] gb -> i < 4 ->
  exists t,
    represents t [B; N]
      (fun idx => Qmax (Qmin (gb (insert_at 2 i idx)) hi) lo)
    /\ forall (C : Type) (k : tensor -> result C),
         (b <- take_axis 2 i boxes ;;
          c <- clip_by_value b lo hi ;;
          k c) = k t.
Proof.
  intros Hb Hi.
  destruct (take_axis_rep 2 i boxes _ _ Hb ltac:(simpl; lia) ltac:(simpl; lia))
    as (b & Eb & Hbr). cbn [remove_at] in Hbr.
  destruct (clip_by_value_rep b _ _ lo hi Hbr) as (t & Et & Ht).
  exists t. split; [exact Ht|].
  intros C k. rewrite Eb. cbn [bind]. rewrite Et. reflexivity.
Qed.

Lemma call_spec fmt image boxes n H W C B N gb :
  shape image = image_layout fmt n H W C ->
  represents boxes [B; N; 4] gb ->
  exists out,
    ClipBoxes.call fmt image boxes = Ok out
    /\ shape out = [B; N; 4]
    /\ wf out
    /\ forall b i, b < B -> i < N ->
         get out [b; i; 0]
         = Qmax (Qmin (gb [b; i; 0]) (inject_Z (Z.of_nat W) - 1)) 0
         /\ get out [b; i; 1]
         = Qmax (Qmin (gb [b; i; 1]) (inject_Z (Z.of_nat H) - 1)) 0
         /\ get out [b; i; 2]
         = Qmax (Qmin (gb [b; i; 2]) (inject_Z (Z.of_nat W) - 1)) 0
         /\ get out [b; i; 3]
         = Qmax (Qmin (gb [b; i; 3]) (inject_Z (Z.of_nat H) - 1)) 0.
Proof.
  intros Ei Hb. unfold ClipBoxes.call. rewrite Ei.
  set (hi_x := (inject_Z (Z.of_nat W) - 1)%Q).
  set (hi_y := (inject_Z (Z.of_nat H) - 1)%Q).
  destruct (clip_coordinate_rep 0 boxes B N gb 0 hi_x Hb ltac:(lia))
    as (x_1 & Hx1 & E1).
  destruct (clip_coordinate_rep 1 boxes B N gb 0 hi_y Hb ltac:(lia))
    as (y_1 & Hy1 & E2).
  destruct (clip_coordinate_rep 2 boxes B N gb 0 hi_x Hb ltac:(lia))
    as (x_2 & Hx2 & E3).
  destruct (clip_coordinate_rep 3 boxes B N gb 0 hi_y Hb ltac:(lia))
    as (y_2 & Hy2 & E4).
  destruct (stack4_rep 2 _ _ _ _ _ _ _ _ _ Hx1 Hy1 Hx2 Hy2 ltac:(simpl; lia))
    as (out & Eout & (Eso & Hwo & Hgo)).
  exists out. split.
  - destruct fmt; cbn [image_layout map py_index nth_error bind];
      fold hi_x; fold hi_y; rewrite E1, E2, E3, E4; exact Eout.
  - split; [exact Eso|]. split; [exact Hwo|].
    intros b i Hbb Hi. cbn [insert_at] in Hgo.
    rewrite !Hgo by (apply in_bounds_rank3_intro; lia).
    cbn [nth remove_at insert_at]. repeat split; reflexivity.
Qed.

Ltac compare_to_order :=
  repeat match goal with
         | H : (_ ?= _)%Q = Eq |- _ => apply <- Qeq_alt in H
         | H : (_ ?= _)%Q = Lt |- _ => apply <- Qlt_alt in H
         | H : (_ ?= _)%Q = Gt |- _ => apply <- Qgt_alt in H
         end.

Lemma clamp_clip lo hi v :
  (lo <= hi)%Q -> Qmax (Qmin v hi) lo = clamp lo hi v.
Proof.
  intro Hle. unfold clamp, Qmax, Qmin, GenericMinMax.gmax, GenericMinMax.gmin.
  destruct (v ?= hi)%Q eqn:Eh; destruct (v ?= lo)%Q eqn:El;
    try destruct (hi ?= lo)%Q eqn:E; try reflexivity;
    exfalso; compare_to_order; lra.
Qed.

Lemma clip_bounds lo hi v :
  (lo <= hi)%Q ->
  (lo <= Qmax (Qmin v hi) lo)%Q /\ (Qmax (Qmin v hi) lo <= hi)%Q.
Proof.
  intro Hle. split.
  - apply Q.le_max_r.
  - apply Q.max_lub; [apply Q.le_min_r | exact Hle].
Qed.

Lemma clip_fixed lo hi v :
  (lo <= v)%Q -> (v <= hi)%Q -> Qmax (Qmin v hi) lo = v.
Proof.
  intros H1 H2. unfold Qmax, Qmin, GenericMinMax.gmax, GenericMinMax.gmin.
  destruct (v ?= hi)%Q eqn:Eh; destruct (v ?= lo)%Q eqn:El;
    try reflexivity; exfalso; compare_to_order; lra.
Qed.

Lemma image_extent_bound n :
  1 <= n -> (0 <= inject_Z (Z.of_nat n) - 1)%Q.
Proof.
  intro H. assert (E : (1 <= Z.of_nat n)%Z) by lia.
  rewrite Zle_Qle in E. change (inject_Z 1) with 1%Q in E. lra.
Qed.

(** ** [bbox_transform_inv] in the arithmetic of [floatx()] *)

Lemma floatx_sub_finite prec emax a b :
  Floatx.finite (SpecFloat.SFsub prec emax a b) = true ->
  Floatx.finite a = true /\ Floatx.finite b = true.
Proof.
  destruct a as [sa|sa| |sa ma ea], b as [sb|sb| |sb mb eb];
    try destruct sa; try destruct sb; cbn; intro H;
    try discriminate H; split; reflexivity.
Qed.

(** A zero delta scaled by a finite [std] and moved by a mean of [+0.0] is
    [+0.0]. *)
Lemma floatx_scaled_zero prec emax d s :
  Floatx.is_zero d = true -> Floatx.finite s = true ->
  Floatx.scaled prec emax d s (SpecFloat.S754_zero false)
  = SpecFloat.S754_zero false.
Proof.
  destruct d as [sd|sd| |sd md ed]; try discriminate.
  destruct s as [ss|ss| |ss ms es]; try discriminate;
    destruct sd, ss; reflexivity.
Qed.

Lemma floatx_equal_refl x :
  Floatx.finite x = true -> Floatx.equal x x = true.
Proof.
  destruct x as [s|s| |s m e]; try discriminate; intros _; [reflexivity|].
  unfold Floatx.equal, SpecFloat.SFeqb, SpecFloat.SFcompare.
  rewrite Z.compare_refl, Pos.compare_cont_refl. destruct s; reflexivity.
Qed.

(** [x + t * w == x] when [t] or [w] is a zero and nothing is infinite or
    NaN: the product is a zero, and adding a zero changes at most the sign
    of a zero. *)
Lemma floatx_add_zero_product prec emax x t w :
  Floatx.finite x = true -> Floatx.finite t = true ->
  Floatx.finite w = true ->
  Floatx.is_zero t = true \/ Floatx.is_zero w = true ->
  Floatx.equal
    (SpecFloat.SFadd prec emax x (SpecFloat.SFmul prec emax t w)) x = true.
Proof.
  intros Hx Ht Hw Hz.
  assert (Hp : Floatx.is_zero (SpecFloat.SFmul prec emax t w) = true).
  { destruct t as [st|st| |st mt et], w as [sw|sw| |sw mw ew];
      try discriminate; try reflexivity.
    destruct Hz; discriminate. }
  destruct (SpecFloat.SFmul prec emax t w) as [sp|sp| |sp mp ep];
    try discriminate.
  destruct x as [sx|sx| |sx mx ex]; try discriminate.
  - destruct sx, sp; reflexivity.
  - apply (floatx_equal_refl (SpecFloat.S754_finite sx mx ex)). reflexivity.
Qed.

(** * The claims *)

Lemma offset_as_rational (W Wf stride : Z) :
  (inject_Z (W - (Wf - 1) * stride) / 2
   == (inject_Z W - (inject_Z Wf - 1) * inject_Z stride) / 2)%Q.
Proof.
  unfold Z.sub.
  rewrite inject_Z_plus, inject_Z_opp, inject_Z_mult, inject_Z_plus,
    inject_Z_opp.
  reflexivity.
Qed.

(** C1. For an image shape [(H, W, ...)], a feature grid [(Hf, Wf)] with
    [Hf, Wf >= 1], a positive stride and [A >= 1] anchor templates, [shift]
    returns exactly [K * A] boxes, [K = Hf * Wf], and the box at index
    [k * A + a] is [anchors[a] + (sx, sy, sx, sy)], where the grid points are
    enumerated row-major with x fastest:
    [sx = (k mod Wf) * stride + (W - (Wf - 1) * stride) / 2] and
    [sy = (k / Wf) * stride + (H - (Hf - 1) * stride) / 2]. *)
Theorem shift_tiles_anchors_row_major :
  forall (H W : Z) (ri : list Z) (Hf Wf stride : Z) (anchors : tensor)
         (A : nat),
    (1 <= Hf)%Z -> (1 <= Wf)%Z -> (0 < stride)%Z -> 1 <= A ->
    has_shape anchors [A; 4] ->
    exists out,
      shift (H :: W :: ri) [Hf; Wf] stride anchors = Ok out
      /\ has_shape out [Z.to_nat Hf * Z.to_nat Wf * A; 4]
      /\ forall k a c,
           k < Z.to_nat Hf * Z.to_nat Wf -> a < A -> c < 4 ->
           (entry out (k * A + a) c
            == entry anchors a c
               + nth c [grid_shift_x W Wf stride k;
                        grid_shift_y H Hf Wf stride k;
                        grid_shift_x W Wf stride k;
                        grid_shift_y H Hf Wf stride k] 0)%Q.
Proof.
  intros H W ri Hf Wf stride anchors A HHf HWf _ _ Ha.
  destruct (shift_spec H W ri Hf Wf [] stride anchors A (get anchors)
              ltac:(lia) ltac:(lia) (represents_self _ _ Ha))
    as (out & E & Es & Hw & Hg).
  exists out. split; [exact E|]. split; [split; assumption|].
  intros k a c Hk Hac Hc. unfold entry. rewrite Hg by assumption.
  unfold grid_shift_x, grid_shift_y.
  destruct c as [|[|[|[|c]]]]; cbn [nth]; try lia;
    rewrite offset_as_rational; reflexivity.
Qed.

Lemma shift_tiles_anchors_row_major_witness :
  exists out,
    shift [3; 5]%Z [2; 3]%Z 1 two_anchors = Ok out
    /\ has_shape out [Z.to_nat 2 * Z.to_nat 3 * 2; 4]
    /\ forall k a c,
         k < Z.to_nat 2 * Z.to_nat 3 -> a < 2 -> c < 4 ->
         (entry out (k * 2 + a) c
          == entry two_anchors a c
             + nth c [grid_shift_x 5 3 1 k; grid_shift_y 3 2 3 1 k;
                      grid_shift_x 5 3 1 k; grid_shift_y 3 2 3 1 k] 0)%Q.
Proof.
  apply (shift_tiles_anchors_row_major 3 5 [] 2 3 1 two_anchors 2);
    try lia.
  split; reflexivity.
Defined.

(** C5, as the code has it.  [shift] checks none of its arguments itself.
    The only calls it refuses are those with [Hf < 0] or [Wf < 0], and the
    error is the [InvalidArgumentError] of the range inside.  For
    [Hf, Wf >= 0], zero included, every stride, zero and negative included,
    and every number [A >= 0] of anchors of shape [(A, 4)] it raises nothing
    and returns [Hf * Wf * A] boxes; the result is empty when [Hf = 0],
    [Wf = 0] or [A = 0]. *)
Theorem shift_rejects_only_negative_grid :
  forall (H W : Z) (ri : list Z) (Hf Wf : Z) (rf : list Z) (stride : Z)
         (anchors : tensor) (A : nat),
    has_shape anchors [A; 4] ->
    ((Hf < 0)%Z \/ (Wf < 0)%Z ->
     shift (H :: W :: ri) (Hf :: Wf :: rf) stride anchors
     = Err InvalidArgument)
    /\ ((0 <= Hf)%Z -> (0 <= Wf)%Z ->
        exists out,
          shift (H :: W :: ri) (Hf :: Wf :: rf) stride anchors = Ok out
          /\ has_shape out [Z.to_nat Hf * Z.to_nat Wf * A; 4]
          /\ (Hf = 0%Z \/ Wf = 0%Z \/ A = 0 -> data out = [])).
Proof.
  intros H W ri Hf Wf rf stride anchors A Ha. split.
  - apply shift_negative_grid.
  - intros HHf HWf.
    destruct (shift_spec H W ri Hf Wf rf stride anchors A (get anchors)
                HHf HWf (represents_self _ _ Ha))
      as (out & E & Es & Hw & _).
    exists out. split; [exact E|]. split; [split; assumption|].
    intro Hdeg. unfold wf in Hw. rewrite Es in Hw.
    apply length_zero_iff_nil. rewrite Hw. unfold size. cbn [fold_right].
    destruct Hdeg as [Hd | [Hd | Hd]].
    + subst Hf. reflexivity.
    + subst Wf. change (Z.to_nat 0) with 0. lia.
    + subst A. lia.
Qed.

Lemma shift_rejects_only_negative_grid_witness :
  ((0 < 0)%Z \/ (2 < 0)%Z ->
   shift [2; 2]%Z [0; 2]%Z (-1) origin_anchor = Err InvalidArgument)
  /\ ((0 <= 0)%Z -> (0 <= 2)%Z ->
      exists out,
        shift [2; 2]%Z [0; 2]%Z (-1) origin_anchor = Ok out
        /\ has_shape out [Z.to_nat 0 * Z.to_nat 2 * 1; 4]
        /\ (0%Z = 0%Z \/ 2%Z = 0%Z \/ 1 = 0 -> data out = [])).
Proof.
  apply (shift_rejects_only_negative_grid 2 2 [] 0 2 [] (-1) origin_anchor 1).
  split; reflexivity.
Defined.

(** C5 as stated fails: a grid of height 0, a stride of 0, a negative stride
    and an empty anchor set are all accepted. *)
Lemma shift_accepts_degenerate_input :
  shift [2; 2]%Z [0; 2]%Z 1 origin_anchor = Ok (mkTensor [0; 4] [])
  /\ shift [2; 2]%Z [2; 2]%Z 1 no_anchor = Ok (mkTensor [0; 4] [])
  /\ is_ok (shift [2; 2]%Z [2; 2]%Z 0 origin_anchor) = true
  /\ is_ok (shift [2; 2]%Z [2; 2]%Z (-1) origin_anchor) = true.
Proof. repeat split; vm_compute; reflexivity. Qed.

(** C8, as the code has it.  For [Hf = Wf = 2], one anchor [(0, 0, 0, 0)],
    stride 1 and image shape [(2, 2)], both offsets are [1/2] and [shift]
    returns the four boxes [(1/2, 1/2, 1/2, 1/2)], [(3/2, 1/2, 3/2, 1/2)],
    [(1/2, 3/2, 1/2, 3/2)], [(3/2, 3/2, 3/2, 3/2)] in this row-major
    order. *)
Theorem shift_two_by_two_grid :
  offset_x [2; 2]%Z [2; 2]%Z 1 = Ok (1 # 2)
  /\ offset_y [2; 2]%Z [2; 2]%Z 1 = Ok (1 # 2)
  /\ exists out,
       shift [2; 2]%Z [2; 2]%Z 1 origin_anchor = Ok out
       /\ tensor_eq out
            (mkTensor [4; 4]
               [1 # 2; 1 # 2; 1 # 2; 1 # 2;
                3 # 2; 1 # 2; 3 # 2; 1 # 2;
                1 # 2; 3 # 2; 1 # 2; 3 # 2;
                3 # 2; 3 # 2; 3 # 2; 3 # 2]).
Proof.
  split; [reflexivity|]. split; [reflexivity|].
  eexists. split; [vm_compute; reflexivity|].
  split; [reflexivity|]. simpl. repeat constructor.
Qed.

(** C8 as stated fails: the offsets are not 0 and the boxes returned are not
    [(0,0,0,0)], [(1,0,1,0)], [(0,1,0,1)], [(1,1,1,1)]. *)
Lemma shift_two_by_two_offset_nonzero :
  (forall q, offset_x [2; 2]%Z [2; 2]%Z 1 = Ok q -> ~ (q == 0)%Q)
  /\ (forall q, offset_y [2; 2]%Z [2; 2]%Z 1 = Ok q -> ~ (q == 0)%Q)
  /\ forall out,
       shift [2; 2]%Z [2; 2]%Z 1 origin_anchor = Ok out ->
       ~ tensor_eq out
           (mkTensor [4; 4]
              [0; 0; 0; 0;  1; 0; 1; 0;  0; 1; 0; 1;  1; 1; 1; 1]%Q).
Proof.
  split; [|split].
  - intros q E. injection E as <-. intro H. discriminate H.
  - intros q E. injection E as <-. intro H. discriminate H.
  - intros out E. vm_compute in E. injection E as <-.
    intros [_ H]. simpl in H. inversion H as [|? ? ? ? H0 _]; subst.
    discriminate H0.
Qed.

(** C2. For boxes and deltas of one shape [(B, N, 4)] and 4-element [mean]
    and [std], [bbox_transform_inv] returns an array of that shape whose
    entry for batch element [b] and box [n] is
    [(x1 + (dx1*std[0]+mean[0])*(x2-x1), y1 + (dy1*std[1]+mean[1])*(y2-y1),
      x2 + (dx2*std[2]+mean[2])*(x2-x1), y2 + (dy2*std[3]+mean[3])*(y2-y1))];
    the box [(0,0,10,10)] with delta [(0.5,0,0,0)], mean 0 and std 1 decodes
    to [(5,0,10,10)]. *)
Theorem bbox_transform_inv_applies_deltas :
  (forall (boxes deltas : tensor) (B N : nat) (m0 m1 m2 m3 s0 s1 s2 s3 : Q),
     has_shape boxes [B; N; 4] -> has_shape deltas [B; N; 4] ->
     exists out,
       bbox_transform_inv boxes deltas (Some [m0; m1; m2; m3])
                          (Some [s0; s1; s2; s3]) = Ok out
       /\ has_shape out [B; N; 4]
       /\ forall b n, b < B -> n < N ->
            (coord out b n 0
             = coord boxes b n 0
               + (coord deltas b n 0 * s0 + m0)
                 * (coord boxes b n 2 - coord boxes b n 0))%Q
            /\ (coord out b n 1
                = coord boxes b n 1
                  + (coord deltas b n 1 * s1 + m1)
                    * (coord boxes b n 3 - coord boxes b n 1))%Q
            /\ (coord out b n 2
                = coord boxes b n 2
                  + (coord deltas b n 2 * s2 + m2)
                    * (coord boxes b n 2 - coord boxes b n 0))%Q
            /\ (coord out b n 3
                = coord boxes b n 3
                  + (coord deltas b n 3 * s3 + m3)
                    * (coord boxes b n 3 - coord boxes b n 1))%Q)
  /\ exists out,
       bbox_transform_inv (one_box 0 0 10 10)
                          (one_box 0.5 0 0 0)
                          (Some [0; 0; 0; 0]%Q) (Some [1; 1; 1; 1]%Q) = Ok out
       /\ tensor_eq out (one_box 5 0 10 10).
Proof.
  split.
  - intros boxes deltas B N m0 m1 m2 m3 s0 s1 s2 s3 Hb Hd.
    destruct (bbox_transform_inv_spec boxes deltas B N (get boxes) (get deltas)
                m0 m1 m2 m3 s0 s1 s2 s3
                (represents_self _ _ Hb) (represents_self _ _ Hd))
      as (out & E & Es & Hw & Hg).
    exists out. split; [exact E|]. split; [split; assumption|].
    intros b n Hbb Hn. unfold coord. apply Hg; assumption.
  - eexists. split; [vm_compute; reflexivity|].
    split; [reflexivity|]. simpl. repeat constructor.
Qed.

Lemma bbox_transform_inv_applies_deltas_witness :
  exists out,
    bbox_transform_inv sample_box
                       sample_delta
                       (Some [0; 0; 0; 0]%Q)
                       (Some [0.2; 0.2; 0.2; 0.2]%Q) = Ok out
    /\ has_shape out [1; 1; 4]
    /\ forall b n, b < 1 -> n < 1 ->
         (coord out b n 0
          = coord sample_box b n 0
            + (coord sample_delta b n 0 * 0.2 + 0)
              * (coord sample_box b n 2
                 - coord sample_box b n 0))%Q
         /\ (coord out b n 1
             = coord sample_box b n 1
               + (coord sample_delta b n 1 * 0.2 + 0)
                 * (coord sample_box b n 3
                    - coord sample_box b n 1))%Q
         /\ (coord out b n 2
             = coord sample_box b n 2
               + (coord sample_delta b n 2 * 0.2 + 0)
                 * (coord sample_box b n 2
                    - coord sample_box b n 0))%Q
         /\ (coord out b n 3
             = coord sample_box b n 3
               + (coord sample_delta b n 3 * 0.2 + 0)
                 * (coord sample_box b n 3
                    - coord sample_box b n 1))%Q.
Proof.
  apply (proj1 bbox_transform_inv_applies_deltas
           sample_box
           sample_delta 1 1);
    split; reflexivity.
Defined.

(** C7, as the code has it.  In the arithmetic of [floatx()], whatever its
    precision: with all four deltas zero, [mean = [0,0,0,0]] and a [std]
    without infinity or NaN, decoding returns a box numerically unchanged
    provided its width [x2 - x1] and its height [y2 - y1] are finite, that
    is, neither overflows and no coordinate is infinite or NaN. *)
Theorem bbox_transform_inv_zero_delta_identity_without_overflow :
  forall (prec emax : Z) (boxes deltas std : Floatx.quad),
    Floatx.all Floatx.is_zero deltas = true ->
    Floatx.all Floatx.finite std = true ->
    Floatx.finite (Floatx.width prec emax boxes) = true ->
    Floatx.finite (Floatx.height prec emax boxes) = true ->
    let out := Floatx.bbox_transform_inv prec emax boxes deltas
                                         Floatx.zero_mean std in
    Floatx.equal (Floatx.at0 out) (Floatx.at0 boxes) = true
    /\ Floatx.equal (Floatx.at1 out) (Floatx.at1 boxes) = true
    /\ Floatx.equal (Floatx.at2 out) (Floatx.at2 boxes) = true
    /\ Floatx.equal (Floatx.at3 out) (Floatx.at3 boxes) = true.
Proof.
  intros prec emax [x1 y1 x2 y2] [d0 d1 d2 d3] [s0 s1 s2 s3] Hd Hs Hw Hh.
  unfold Floatx.all in Hd, Hs. cbn [Floatx.at0 Floatx.at1 Floatx.at2
                                     Floatx.at3] in Hd, Hs.
  apply andb_prop in Hd. destruct Hd as [Hd Hd3].
  apply andb_prop in Hd. destruct Hd as [Hd Hd2].
  apply andb_prop in Hd. destruct Hd as [Hd0 Hd1].
  apply andb_prop in Hs. destruct Hs as [Hs Hs3].
  apply andb_prop in Hs. destruct Hs as [Hs Hs2].
  apply andb_prop in Hs. destruct Hs as [Hs0 Hs1].
  destruct (floatx_sub_finite _ _ _ _ Hw) as [Hx2 Hx1].
  destruct (floatx_sub_finite _ _ _ _ Hh) as [Hy2 Hy1].
  cbn [Floatx.at0 Floatx.at1 Floatx.at2 Floatx.at3] in Hx1, Hx2, Hy1, Hy2.
  unfold Floatx.bbox_transform_inv, Floatx.zero_mean.
  cbn [Floatx.at0 Floatx.at1 Floatx.at2 Floatx.at3].
  rewrite !floatx_scaled_zero by assumption.
  repeat split;
    apply floatx_add_zero_product;
    (assumption || reflexivity || (left; reflexivity)).
Qed.

Lemma bbox_transform_inv_zero_delta_identity_without_overflow_witness :
  let boxes := Floatx.mkQuad (Floatx.float32 2) (Floatx.float32 4)
                             (Floatx.float32 12) (Floatx.float32 24) in
  let out := Floatx.bbox_transform_inv 24 128 boxes
               (four_times (Floatx.float32 0)) Floatx.zero_mean
               (four_times (Floatx.float32 5)) in
  Floatx.equal (Floatx.at0 out) (Floatx.at0 boxes) = true
  /\ Floatx.equal (Floatx.at1 out) (Floatx.at1 boxes) = true
  /\ Floatx.equal (Floatx.at2 out) (Floatx.at2 boxes) = true
  /\ Floatx.equal (Floatx.at3 out) (Floatx.at3 boxes) = true.
Proof.
  apply (bbox_transform_inv_zero_delta_identity_without_overflow 24 128
           (Floatx.mkQuad (Floatx.float32 2) (Floatx.float32 4)
                          (Floatx.float32 12) (Floatx.float32 24))
           (four_times (Floatx.float32 0))
           (four_times (Floatx.float32 5)));
    reflexivity.
Defined.

(** C7 as stated fails.  The float32 box [(-3e38, 0, 3e38, 1)] has finite
    coordinates, but its width overflows to infinity; with zero deltas, zero
    mean and [std = [1,1,1,1]] the product [0 * inf] is NaN, and [x1] and
    [x2] come back NaN instead of unchanged.  The same happens in float64 to
    the box [(-15e307, 0, 15e307, 1)]. *)
Lemma bbox_transform_inv_zero_delta_overflow :
  (Floatx.all Floatx.finite wide_box_float32 = true
   /\ Floatx.finite (Floatx.width 24 128 wide_box_float32) = false
   /\ let out := Floatx.bbox_transform_inv 24 128 wide_box_float32
                   (four_times (Floatx.float32 0)) Floatx.zero_mean
                   (four_times (Floatx.float32 1)) in
      Floatx.is_nan (Floatx.at0 out) = true
      /\ Floatx.is_nan (Floatx.at2 out) = true
      /\ Floatx.equal (Floatx.at0 out) (Floatx.at0 wide_box_float32) = false
      /\ Floatx.equal (Floatx.at2 out) (Floatx.at2 wide_box_float32) = false)
  /\ (Floatx.all Floatx.finite wide_box_float64 = true
      /\ Floatx.finite (Floatx.width 53 1024 wide_box_float64) = false
      /\ let out := Floatx.bbox_transform_inv 53 1024 wide_box_float64
                      (four_times (Floatx.float64 0)) Floatx.zero_mean
                      (four_times (Floatx.float64 1)) in
         Floatx.is_nan (Floatx.at0 out) = true
         /\ Floatx.is_nan (Floatx.at2 out) = true
         /\ Floatx.equal (Floatx.at0 out) (Floatx.at0 wide_box_float64)
            = false
         /\ Floatx.equal (Floatx.at2 out) (Floatx.at2 wide_box_float64)
            = false).
Proof. vm_compute. repeat split. Qed.

(** C9. Where [std[i] = 0], coordinate [i] of the decoded boxes is the same
    for any two deltas arrays of the shape of the boxes, and neither call
    raises. *)
Theorem bbox_transform_inv_zero_std_insensitive :
  forall (boxes deltas1 deltas2 : tensor) (B N : nat)
         (m0 m1 m2 m3 s0 s1 s2 s3 : Q) (i : nat),
    has_shape boxes [B; N; 4] ->
    has_shape deltas1 [B; N; 4] -> has_shape deltas2 [B; N; 4] ->
    i < 4 -> (nth i [s0; s1; s2; s3] 1 == 0)%Q ->
    exists out1 out2,
      bbox_transform_inv boxes deltas1 (Some [m0; m1; m2; m3])
                         (Some [s0; s1; s2; s3]) = Ok out1
      /\ bbox_transform_inv boxes deltas2 (Some [m0; m1; m2; m3])
                            (Some [s0; s1; s2; s3]) = Ok out2
      /\ forall b n, b < B -> n < N ->
           (coord out1 b n i == coord out2 b n i)%Q.
Proof.
  intros boxes deltas1 deltas2 B N m0 m1 m2 m3 s0 s1 s2 s3 i Hb Hd1 Hd2 Hi Hs.
  destruct (bbox_transform_inv_spec boxes deltas1 B N (get boxes) (get deltas1)
              m0 m1 m2 m3 s0 s1 s2 s3
              (represents_self _ _ Hb) (represents_self _ _ Hd1))
    as (out1 & E1 & _ & _ & Hg1).
  destruct (bbox_transform_inv_spec boxes deltas2 B N (get boxes) (get deltas2)
              m0 m1 m2 m3 s0 s1 s2 s3
              (represents_self _ _ Hb) (represents_self _ _ Hd2))
    as (out2 & E2 & _ & _ & Hg2).
  exists out1, out2. split; [exact E1|]. split; [exact E2|].
  intros b n Hbb Hn.
  destruct (Hg1 b n Hbb Hn) as (A0 & A1 & A2 & A3).
  destruct (Hg2 b n Hbb Hn) as (B0 & B1 & B2 & B3).
  unfold coord.
  destruct i as [|[|[|[|i]]]]; try lia; cbn [nth] in Hs.
  - rewrite A0, B0, Hs. ring.
  - rewrite A1, B1, Hs. ring.
  - rewrite A2, B2, Hs. ring.
  - rewrite A3, B3, Hs. ring.
Qed.

Lemma bbox_transform_inv_zero_std_insensitive_witness :
  exists out1 out2,
    bbox_transform_inv sample_box
                       sample_delta
                       (Some [0; 0; 0; 0]%Q)
                       (Some [0.2; 0; 0.2; 0.2]%Q) = Ok out1
    /\ bbox_transform_inv sample_box
                          other_delta
                          (Some [0; 0; 0; 0]%Q)
                          (Some [0.2; 0; 0.2; 0.2]%Q) = Ok out2
    /\ forall b n, b < 1 -> n < 1 ->
         (coord out1 b n 1 == coord out2 b n 1)%Q.
Proof.
  apply (bbox_transform_inv_zero_std_insensitive
           sample_box
           sample_delta
           other_delta 1 1).
  - split; reflexivity.
  - split; reflexivity.
  - split; reflexivity.
  - lia.
  - reflexivity.
Defined.

Lemma broadcast_dim_value x y d :
  broadcast_dim x y = Some d -> d = if y =? 1 then x else y.
Proof.
  unfold broadcast_dim.
  destruct (x =? y) eqn:E1; [apply Nat.eqb_eq in E1|apply Nat.eqb_neq in E1].
  { intros [= <-]. subst y. destruct (x =? 1); reflexivity. }
  destruct (x =? 1) eqn:E2; [apply Nat.eqb_eq in E2|].
  { intros [= <-]. subst x. apply Nat.neq_sym, Nat.eqb_neq in E1.
    rewrite E1. reflexivity. }
  destruct (y =? 1) eqn:E3; [|discriminate].
  intros [= <-]. reflexivity.
Qed.

Lemma broadcast_dim_incompatible x y :
  broadcast_dim x y = None <-> incompatible y x.
Proof.
  rewrite broadcast_dim_none. unfold incompatible.
  split; intros (H1 & H2 & H3); repeat split; auto.
Qed.

(** C4, as the code has it.  For boxes of shape [(B1, N1, 4)] and deltas of
    shape [(B2, N2, 4)], [bbox_transform_inv] rejects the call with a
    shape-mismatch error exactly when [B1], [B2] or [N1], [N2] do not
    broadcast, that is, differ with neither being 1, as for [(1, 3, 4)]
    against [(1, 4, 4)]; shapes that differ only along axes where one of the
    two extents is 1 are broadcast and a result is returned. *)
Theorem bbox_transform_inv_rejects_unbroadcastable :
  forall (boxes deltas : tensor) (B1 N1 B2 N2 : nat)
         (m0 m1 m2 m3 s0 s1 s2 s3 : Q),
    has_shape boxes [B1; N1; 4] -> has_shape deltas [B2; N2; 4] ->
    (incompatible B1 B2 \/ incompatible N1 N2 ->
     bbox_transform_inv boxes deltas (Some [m0; m1; m2; m3])
                        (Some [s0; s1; s2; s3]) = Err ShapeMismatch)
    /\ (~ (incompatible B1 B2 \/ incompatible N1 N2) ->
        exists out,
          bbox_transform_inv boxes deltas (Some [m0; m1; m2; m3])
                             (Some [s0; s1; s2; s3]) = Ok out
          /\ has_shape out [if B1 =? 1 then B2 else B1;
                            if N1 =? 1 then N2 else N1; 4]).
Proof.
  intros boxes deltas B1 N1 B2 N2 m0 m1 m2 m3 s0 s1 s2 s3 Hb Hd.
  pose proof (bbox_transform_inv_bcast boxes deltas B1 N1 B2 N2
                (get boxes) (get deltas) m0 m1 m2 m3 s0 s1 s2 s3
                (represents_self _ _ Hb) (represents_self _ _ Hd)) as H.
  destruct (broadcast_dim B2 B1) as [b|] eqn:Eb.
  - destruct (broadcast_dim N2 N1) as [n|] eqn:En.
    + split.
      * intros [Hi | Hi]; exfalso.
        -- apply broadcast_dim_incompatible in Hi. congruence.
        -- apply broadcast_dim_incompatible in Hi. congruence.
      * intros _. destruct H as (out & E & Es & Hw).
        exists out. split; [exact E|]. split; [|exact Hw].
        rewrite Es. apply broadcast_dim_value in Eb, En. congruence.
    + apply broadcast_dim_incompatible in En. split; [intros _; exact H|].
      intro Hn. exfalso. apply Hn. right. exact En.
  - apply broadcast_dim_incompatible in Eb. split; [intros _; exact H|].
    intro Hn. exfalso. apply Hn. left. exact Eb.
Qed.

Lemma bbox_transform_inv_rejects_unbroadcastable_witness :
  bbox_transform_inv three_boxes four_deltas (Some [0; 0; 0; 0]%Q)
                     (Some [0.2; 0.2; 0.2; 0.2]%Q) = Err ShapeMismatch.
Proof.
  apply (proj1 (bbox_transform_inv_rejects_unbroadcastable
                  three_boxes four_deltas 1 3 1 4
                  0 0 0 0 0.2 0.2 0.2 0.2
                  (conj eq_refl eq_refl) (conj eq_refl eq_refl))).
  right. unfold incompatible. lia.
Defined.

(** C4 as stated fails: boxes of shape [(1, 3, 4)] and deltas of shape
    [(1, 1, 4)] differ in shape, and the call returns three decoded boxes. *)
Lemma bbox_transform_inv_broadcasts_silently :
  shape three_boxes <> shape sample_delta
  /\ exists out,
       bbox_transform_inv three_boxes sample_delta (Some [0; 0; 0; 0]%Q)
                          (Some [0.2; 0.2; 0.2; 0.2]%Q) = Ok out
       /\ shape out = [1; 3; 4].
Proof.
  split; [discriminate|].
  eexists. split; [vm_compute; reflexivity|]. reflexivity.
Qed.

(** C3. For an image of height [H] and width [W] and boxes of shape
    [(B, N, 4)], every coordinate of every box returned by [ClipBoxes.call]
    is the clamp of the same coordinate of the input, [x1] and [x2] to
    [[0, W-1]], [y1] and [y2] to [[0, H-1]], each on its own; on a 10x10
    image [(-5, -5, 15, 15)] clips to [(0, 0, 9, 9)], and an inverted box
    stays inverted. *)
Theorem clip_boxes_clamps_each_coordinate :
  (forall (fmt : data_format) (image boxes : tensor) (n H W C B N : nat),
     1 <= H -> 1 <= W ->
     shape image = image_layout fmt n H W C ->
     has_shape boxes [B; N; 4] ->
     exists out,
       ClipBoxes.call fmt image boxes = Ok out
       /\ forall b i, b < B -> i < N ->
            coord out b i 0
            = clamp 0 (inject_Z (Z.of_nat W) - 1) (coord boxes b i 0)
            /\ coord out b i 1
               = clamp 0 (inject_Z (Z.of_nat H) - 1) (coord boxes b i 1)
            /\ coord out b i 2
               = clamp 0 (inject_Z (Z.of_nat W) - 1) (coord boxes b i 2)
            /\ coord out b i 3
               = clamp 0 (inject_Z (Z.of_nat H) - 1) (coord boxes b i 3))
  /\ (forall fmt,
        ClipBoxes.call fmt (image_10x10 fmt) (one_box (-5) (-5) 15 15)
        = Ok (one_box 0 0 9 9))
  /\ (forall fmt,
        ClipBoxes.call fmt (image_10x10 fmt) (one_box 8 7 2 (-3))
        = Ok (one_box 8 7 2 0)).
Proof.
  split; [|split].
  - intros fmt image boxes n H W C B N HH HW Ei Hb.
    destruct (call_spec fmt image boxes n H W C B N (get boxes) Ei
                (represents_self _ _ Hb)) as (out & E & _ & _ & Hg).
    exists out. split; [exact E|].
    intros b i Hbb Hi. unfold coord.
    destruct (Hg b i Hbb Hi) as (E0 & E1 & E2 & E3).
    rewrite E0, E1, E2, E3.
    rewrite !clamp_clip by (apply image_extent_bound; assumption).
    repeat split; reflexivity.
  - intros []; vm_compute; reflexivity.
  - intros []; vm_compute; reflexivity.
Qed.

Lemma clip_boxes_clamps_each_coordinate_witness :
  exists out,
    ClipBoxes.call channels_last (image_10x10 channels_last) three_boxes
    = Ok out
    /\ forall b i, b < 1 -> i < 3 ->
         coord out b i 0
         = clamp 0 (inject_Z (Z.of_nat 10) - 1) (coord three_boxes b i 0)
         /\ coord out b i 1
            = clamp 0 (inject_Z (Z.of_nat 10) - 1) (coord three_boxes b i 1)
         /\ coord out b i 2
            = clamp 0 (inject_Z (Z.of_nat 10) - 1) (coord three_boxes b i 2)
         /\ coord out b i 3
            = clamp 0 (inject_Z (Z.of_nat 10) - 1) (coord three_boxes b i 3).
Proof.
  apply (proj1 clip_boxes_clamps_each_coordinate channels_last
           (image_10x10 channels_last) three_boxes 1 10 10 3 1 3).
  - lia.
  - lia.
  - reflexivity.
  - split; reflexivity.
Defined.

(** C6. For an image of height [H >= 1] and width [W >= 1], every x
    coordinate returned by [ClipBoxes.call] lies in [[0, W-1]] and every y
    coordinate in [[0, H-1]], the output has the shape of the boxes, and
    clipping the output again returns it unchanged. *)
Theorem clip_boxes_in_bounds_and_idempotent :
  forall (fmt : data_format) (image boxes : tensor) (n H W C B N : nat),
    1 <= H -> 1 <= W ->
    shape image = image_layout fmt n H W C ->
    has_shape boxes [B; N; 4] ->
    exists out,
      ClipBoxes.call fmt image boxes = Ok out
      /\ shape out = shape boxes
      /\ (forall b i, b < B -> i < N ->
            (0 <= coord out b i 0 <= inject_Z (Z.of_nat W) - 1)%Q
            /\ (0 <= coord out b i 1 <= inject_Z (Z.of_nat H) - 1)%Q
            /\ (0 <= coord out b i 2 <= inject_Z (Z.of_nat W) - 1)%Q
            /\ (0 <= coord out b i 3 <= inject_Z (Z.of_nat H) - 1)%Q)
      /\ ClipBoxes.call fmt image out = Ok out.
Proof.
  intros fmt image boxes n H W C B N HH HW Ei Hb.
  destruct (call_spec fmt image boxes n H W C B N (get boxes) Ei
              (represents_self _ _ Hb)) as (out & E & Es & Hw & Hg).
  pose proof (image_extent_bound H HH) as HbH.
  pose proof (image_extent_bound W HW) as HbW.
  assert (Hin : forall b i, b < B -> i < N ->
            (0 <= coord out b i 0 <= inject_Z (Z.of_nat W) - 1)%Q
            /\ (0 <= coord out b i 1 <= inject_Z (Z.of_nat H) - 1)%Q
            /\ (0 <= coord out b i 2 <= inject_Z (Z.of_nat W) - 1)%Q
            /\ (0 <= coord out b i 3 <= inject_Z (Z.of_nat H) - 1)%Q).
  { intros b i Hbb Hi. unfold coord.
    destruct (Hg b i Hbb Hi) as (E0 & E1 & E2 & E3).
    rewrite E0, E1, E2, E3.
    repeat split; apply clip_bounds; assumption. }
  exists out. split; [exact E|]. split; [destruct Hb; congruence|].
  split; [exact Hin|].
  destruct (call_spec fmt image out n H W C B N (get out) Ei
              (represents_self _ _ (conj Es Hw)))
    as (out' & E' & Es' & Hw' & Hg').
  rewrite E'. f_equal.
  apply tensor_ext; [congruence | assumption | assumption |].
  rewrite Es'. intros idx Hidx. apply in_bounds_rank3 in Hidx.
  destruct Hidx as (b & i & c & -> & Hbb & Hi & Hc).
  destruct (Hg' b i Hbb Hi) as (E0 & E1 & E2 & E3).
  destruct (Hin b i Hbb Hi) as (I0 & I1 & I2 & I3). unfold coord in *.
  destruct c as [|[|[|[|c]]]]; try lia.
  - rewrite E0. apply clip_fixed; tauto.
  - rewrite E1. apply clip_fixed; tauto.
  - rewrite E2. apply clip_fixed; tauto.
  - rewrite E3. apply clip_fixed; tauto.
Qed.

Lemma clip_boxes_in_bounds_and_idempotent_witness :
  exists out,
    ClipBoxes.call channels_first (image_10x10 channels_first) three_boxes
    = Ok out
    /\ shape out = shape three_boxes
    /\ (forall b i, b < 1 -> i < 3 ->
          (0 <= coord out b i 0 <= inject_Z (Z.of_nat 10) - 1)%Q
          /\ (0 <= coord out b i 1 <= inject_Z (Z.of_nat 10) - 1)%Q
          /\ (0 <= coord out b i 2 <= inject_Z (Z.of_nat 10) - 1)%Q
          /\ (0 <= coord out b i 3 <= inject_Z (Z.of_nat 10) - 1)%Q)
    /\ ClipBoxes.call channels_first (image_10x10 channels_first) out = Ok out.
Proof.
  apply (clip_boxes_in_bounds_and_idempotent channels_first
           (image_10x10 channels_first) three_boxes 1 10 10 3 1 3).
  - lia.
  - lia.
  - reflexivity.
  - split; reflexivity.
Defined.

(** ** [tf_version_ok] *)

Lemma lex_lt_irrefl a : ~ lex_lt a a.
Proof.
  induction a as [|x a IH]; intro H; inversion H; subst; auto. lia.
Qed.

Lemma tuple_ge_lex a : forall b, tuple_ge a b = true <-> lex_ge a b.
Proof.
  unfold lex_ge.
  induction a as [|x a IH]; intros [|y b]; simpl.
  - split; auto.
  - split; [discriminate|]. intros [E | E]; [discriminate|inversion E].
  - split; auto. intros _. right. constructor.
  - destruct (Z.eqb_spec x y) as [->|Hne].
    + rewrite IH. split.
      * intros [-> | H]; [left; reflexivity | right; constructor; exact H].
      * intros [E | H].
        -- injection E as ->. left. reflexivity.
        -- inversion H; subst; [lia | right; assumption].
    + rewrite Z.leb_le. split.
      * intro H. right. apply lex_lt_head. lia.
      * intros [E | H]; [congruence|].
        inversion H; subst; [lia | congruence].
Qed.

Lemma tuple_eqb_eq a : forall b, tuple_eqb a b = true <-> a = b.
Proof.
  induction a as [|x a IH]; intros [|y b]; simpl;
    try (split; [discriminate | congruence]); try tauto.
  rewrite andb_true_iff, Z.eqb_eq, IH.
  split; [intros [-> ->]; reflexivity | intros [= -> ->]; auto].
Qed.

Lemma tuple_in_In v l : tuple_in v l = true <-> In v l.
Proof.
  unfold tuple_in. rewrite existsb_exists. split.
  - intros (x & Hx & E). apply tuple_eqb_eq in E. subst. exact Hx.
  - intro H. exists v. split; [exact H|]. apply tuple_eqb_eq. reflexivity.
Qed.

(** C10. [tf_version_ok] returns True exactly when the parsed version is
    lexicographically greater than or equal to the minimum and is not among
    the blacklisted versions; under the defaults, [(2,0,0)] and [(2,0,1)]
    are refused although they exceed the minimum [(1,14,0)]. *)
Theorem tf_version_ok_iff_minimum_and_not_blacklisted :
  (forall (version minimum : list Z) (blacklisted : list (list Z)),
     tf_version_ok version minimum blacklisted = true
     <-> lex_ge version minimum /\ ~ In version blacklisted)
  /\ tf_version_ok [2; 0; 0]%Z MINIMUM_TF_VERSION BLACKLISTED_TF_VERSIONS
     = false
  /\ tf_version_ok [2; 0; 1]%Z MINIMUM_TF_VERSION BLACKLISTED_TF_VERSIONS
     = false
  /\ lex_lt MINIMUM_TF_VERSION [2; 0; 0]%Z
  /\ lex_lt MINIMUM_TF_VERSION [2; 0; 1]%Z.
Proof.
  split; [|repeat split; try reflexivity; apply lex_lt_head; lia].
  intros version minimum blacklisted. unfold tf_version_ok.
  rewrite andb_true_iff, negb_true_iff, tuple_ge_lex.
  rewrite <- not_true_iff_false, tuple_in_In. reflexivity.
Qed.

(** * Further properties *)

(** ** [shift]: geometry of the grid *)

Lemma inject_Z_sub (x y : Z) : inject_Z (x - y) = (inject_Z x - inject_Z y)%Q.
Proof.
  unfold Z.sub, Qminus. rewrite inject_Z_plus, inject_Z_opp. reflexivity.
Qed.

Lemma grid_mirror h w k :
  k < h * w ->
  (h * w - 1 - k) mod w = w - 1 - k mod w
  /\ (h * w - 1 - k) / w = h - 1 - k / w.
Proof.
  intro Hk.
  assert (Hw : w <> 0) by (intro; subst; lia).
  pose proof (Nat.div_mod_eq k w) as Ek.
  pose proof (Nat.mod_upper_bound k w Hw) as Hj.
  assert (Hi : k / w < h) by (apply Nat.Div0.div_lt_upper_bound; lia).
  assert (E : h * w - 1 - k = w * (h - 1 - k / w) + (w - 1 - k mod w)) by nia.
  split; symmetry.
  - apply (Nat.mod_unique _ w (h - 1 - k / w)); [lia | exact E].
  - apply (Nat.div_unique _ w _ (w - 1 - k mod w)); [lia | exact E].
Qed.

Lemma grid_next_in_row w k :
  k mod w + 1 < w ->
  (k + 1) mod w = k mod w + 1 /\ (k + 1) / w = k / w.
Proof.
  intro Hj. pose proof (Nat.div_mod_eq k w) as Ek.
  assert (E : k + 1 = w * (k / w) + (k mod w + 1)) by lia.
  split; symmetry.
  - apply (Nat.mod_unique _ w (k / w)); [lia | exact E].
  - apply (Nat.div_unique _ w _ (k mod w + 1)); [lia | exact E].
Qed.

Lemma grid_next_row w k :
  w <> 0 ->
  (k + w) mod w = k mod w /\ (k + w) / w = k / w + 1.
Proof.
  intro Hw. pose proof (Nat.div_mod_eq k w) as Ek.
  pose proof (Nat.mod_upper_bound k w Hw) as Hj.
  assert (E : k + w = w * (k / w + 1) + k mod w) by lia.
  split; symmetry.
  - apply (Nat.mod_unique _ w (k / w + 1)); [lia | exact E].
  - apply (Nat.div_unique _ w _ (k mod w)); [lia | exact E].
Qed.

(** [shift] translates each anchor template and never resizes it: for a grid
    with [Hf, Wf >= 0] every box returned has the width and the height of the
    template it comes from, whatever the stride and the image shape. *)
Theorem shift_keeps_anchor_width_and_height :
  forall (H W : Z) (ri : list Z) (Hf Wf : Z) (rf : list Z) (stride : Z)
         (anchors : tensor) (A : nat),
    (0 <= Hf)%Z -> (0 <= Wf)%Z ->
    has_shape anchors [A; 4] ->
    exists out,
      shift (H :: W :: ri) (Hf :: Wf :: rf) stride anchors = Ok out
      /\ forall k a, k < Z.to_nat Hf * Z.to_nat Wf -> a < A ->
           (entry out (k * A + a) 2 - entry out (k * A + a) 0
            == entry anchors a 2 - entry anchors a 0)%Q
           /\ (entry out (k * A + a) 3 - entry out (k * A + a) 1
               == entry anchors a 3 - entry anchors a 1)%Q.
Proof.
  intros H W ri Hf Wf rf stride anchors A HHf HWf Ha.
  destruct (shift_spec H W ri Hf Wf rf stride anchors A (get anchors)
              HHf HWf (represents_self _ _ Ha)) as (out & E & _ & _ & Hg).
  exists out. split; [exact E|].
  intros k a Hk Hac. unfold entry.
  rewrite !Hg by (assumption || lia). cbn [nth]. split; ring.
Qed.

Lemma shift_keeps_anchor_width_and_height_witness :
  exists out,
    shift [3; 5]%Z [2; 3]%Z 1 two_anchors = Ok out
    /\ forall k a, k < Z.to_nat 2 * Z.to_nat 3 -> a < 2 ->
         (entry out (k * 2 + a) 2 - entry out (k * 2 + a) 0
          == entry two_anchors a 2 - entry two_anchors a 0)%Q
         /\ (entry out (k * 2 + a) 3 - entry out (k * 2 + a) 1
             == entry two_anchors a 3 - entry two_anchors a 1)%Q.
Proof.
  apply (shift_keeps_anchor_width_and_height 3 5 [] 2 3 [] 1 two_anchors 2);
    [lia | lia | split; reflexivity].
Defined.

(** The grid is centred on the image: for [Hf, Wf >= 0] the shift of grid
    point [k] and the shift of the opposite grid point [K - 1 - k] add up to
    the image width (x) and the image height (y), so the two boxes of a
    template at opposite grid points are mirror images about the image
    centre. *)
Theorem shift_grid_is_centred_on_image :
  forall (H W : Z) (ri : list Z) (Hf Wf : Z) (rf : list Z) (stride : Z)
         (anchors : tensor) (A : nat),
    (0 <= Hf)%Z -> (0 <= Wf)%Z ->
    has_shape anchors [A; 4] ->
    exists out,
      shift (H :: W :: ri) (Hf :: Wf :: rf) stride anchors = Ok out
      /\ forall k a,
           k < Z.to_nat Hf * Z.to_nat Wf -> a < A ->
           let k' := Z.to_nat Hf * Z.to_nat Wf - 1 - k in
           (entry out (k * A + a) 0 + entry out (k' * A + a) 0
            == 2 * entry anchors a 0 + inject_Z W)%Q
           /\ (entry out (k * A + a) 1 + entry out (k' * A + a) 1
               == 2 * entry anchors a 1 + inject_Z H)%Q.
Proof.
  intros H W ri Hf Wf rf stride anchors A HHf HWf Ha.
  destruct (shift_spec H W ri Hf Wf rf stride anchors A (get anchors)
              HHf HWf (represents_self _ _ Ha)) as (out & E & _ & _ & Hg).
  exists out. split; [exact E|].
  intros k a Hk Hac k'. unfold entry.
  assert (Hk' : k' < Z.to_nat Hf * Z.to_nat Wf) by (unfold k'; lia).
  rewrite !Hg by (assumption || lia). cbn [nth].
  destruct (grid_mirror _ _ k Hk) as [Em Ed]. fold k' in Em, Ed.
  rewrite Em, Ed.
  assert (Hw : Z.to_nat Wf <> 0) by (intro E0; rewrite E0 in Hk; lia).
  assert (Hh : Z.to_nat Hf <> 0) by (intro E0; rewrite E0 in Hk; lia).
  pose proof (Nat.mod_upper_bound k _ Hw) as Hj.
  assert (Hi : k / Z.to_nat Wf < Z.to_nat Hf)
    by (apply Nat.Div0.div_lt_upper_bound; lia).
  replace (Z.of_nat (Z.to_nat Wf - 1 - k mod Z.to_nat Wf))
    with (Wf - 1 - Z.of_nat (k mod Z.to_nat Wf))%Z by lia.
  replace (Z.of_nat (Z.to_nat Hf - 1 - k / Z.to_nat Wf))
    with (Hf - 1 - Z.of_nat (k / Z.to_nat Wf))%Z by lia.
  rewrite !inject_Z_sub, !inject_Z_mult, !inject_Z_sub.
  change (inject_Z 1) with 1%Q.
  split; field.
Qed.

Lemma shift_grid_is_centred_on_image_witness :
  exists out,
    shift [3; 5]%Z [2; 3]%Z 1 two_anchors = Ok out
    /\ forall k a,
         k < Z.to_nat 2 * Z.to_nat 3 -> a < 2 ->
         let k' := Z.to_nat 2 * Z.to_nat 3 - 1 - k in
         (entry out (k * 2 + a) 0 + entry out (k' * 2 + a) 0
          == 2 * entry two_anchors a 0 + inject_Z 5)%Q
         /\ (entry out (k * 2 + a) 1 + entry out (k' * 2 + a) 1
             == 2 * entry two_anchors a 1 + inject_Z 3)%Q.
Proof.
  apply (shift_grid_is_centred_on_image 3 5 [] 2 3 [] 1 two_anchors 2);
    [lia | lia | split; reflexivity].
Defined.

(** Neighbouring grid points are one stride apart: for [Hf, Wf >= 0] the box
    of a template at the next point of the same row is the box at [k] moved
    by [stride] in x only, and the box one row below is the box at [k] moved
    by [stride] in y only. *)
Theorem shift_neighbours_differ_by_stride :
  forall (H W : Z) (ri : list Z) (Hf Wf : Z) (rf : list Z) (stride : Z)
         (anchors : tensor) (A : nat),
    (0 <= Hf)%Z -> (0 <= Wf)%Z ->
    has_shape anchors [A; 4] ->
    exists out,
      shift (H :: W :: ri) (Hf :: Wf :: rf) stride anchors = Ok out
      /\ (forall k a c,
            k + 1 < Z.to_nat Hf * Z.to_nat Wf ->
            k mod Z.to_nat Wf + 1 < Z.to_nat Wf -> a < A -> c < 4 ->
            (entry out ((k + 1) * A + a) c
             == entry out (k * A + a) c
                + nth c [inject_Z stride; 0; inject_Z stride; 0] 0)%Q)
      /\ (forall k a c,
            k + Z.to_nat Wf < Z.to_nat Hf * Z.to_nat Wf -> a < A -> c < 4 ->
            (entry out ((k + Z.to_nat Wf) * A + a) c
             == entry out (k * A + a) c
                + nth c [0; inject_Z stride; 0; inject_Z stride] 0)%Q).
Proof.
  intros H W ri Hf Wf rf stride anchors A HHf HWf Ha.
  destruct (shift_spec H W ri Hf Wf rf stride anchors A (get anchors)
              HHf HWf (represents_self _ _ Ha)) as (out & E & _ & _ & Hg).
  exists out. split; [exact E|]. split.
  - intros k a c Hk Hj Hac Hc. unfold entry.
    rewrite !Hg by (assumption || lia).
    destruct (grid_next_in_row _ k Hj) as [Em Ed]. rewrite Em, Ed.
    rewrite Nat2Z.inj_add, inject_Z_plus. change (inject_Z (Z.of_nat 1)) with 1%Q.
    destruct c as [|[|[|[|c]]]]; cbn [nth]; try lia; ring.
  - intros k a c Hk Hac Hc. unfold entry.
    rewrite !Hg by (assumption || lia).
    assert (Hw : Z.to_nat Wf <> 0) by (intro E0; rewrite E0 in Hk; lia).
    destruct (grid_next_row _ k Hw) as [Em Ed]. rewrite Em, Ed.
    rewrite Nat2Z.inj_add, inject_Z_plus. change (inject_Z (Z.of_nat 1)) with 1%Q.
    destruct c as [|[|[|[|c]]]]; cbn [nth]; try lia; ring.
Qed.

Lemma shift_neighbours_differ_by_stride_witness :
  exists out,
    shift [3; 5]%Z [2; 3]%Z 1 two_anchors = Ok out
    /\ (forall k a c,
          k + 1 < Z.to_nat 2 * Z.to_nat 3 ->
          k mod Z.to_nat 3 + 1 < Z.to_nat 3 -> a < 2 -> c < 4 ->
          (entry out ((k + 1) * 2 + a) c
           == entry out (k * 2 + a) c
              + nth c [inject_Z 1; 0; inject_Z 1; 0] 0)%Q)
    /\ (forall k a c,
          k + Z.to_nat 3 < Z.to_nat 2 * Z.to_nat 3 -> a < 2 -> c < 4 ->
          (entry out ((k + Z.to_nat 3) * 2 + a) c
           == entry out (k * 2 + a) c
              + nth c [0; inject_Z 1; 0; inject_Z 1] 0)%Q).
Proof.
  apply (shift_neighbours_differ_by_stride 3 5 [] 2 3 [] 1 two_anchors 2);
    [lia | lia | split; reflexivity].
Defined.

(** ** [shift]: malformed arguments *)

(** On a grid with [Hf, Wf >= 0] the part of [shift] that does not look at
    the anchors succeeds and leaves the tiling of the anchors over the
    [shifts] matrix. *)
Lemma shift_reaches_tiling H W ri Hf Wf rf stride :
  (0 <= Hf)%Z -> (0 <= Wf)%Z ->
  exists shifts gs,
    represents shifts [Z.to_nat Hf * Z.to_nat Wf; 4] gs
    /\ forall anchors,
         shift (H :: W :: ri) (Hf :: Wf :: rf) stride anchors
         = (number_of_anchors <- py_index (shape anchors) 0 ;;
            k <- py_index (shape shifts) 0 ;;
            anchors3 <- reshape anchors [1; number_of_anchors; 4] ;;
            shifts3 <- reshape shifts [k; 1; 4] ;;
            shifted_anchors <- binop Qplus anchors3 shifts3 ;;
            reshape shifted_anchors [k * number_of_anchors; 4]).
Proof.
  intros HHf HWf.
  destruct (arange_rep Wf HWf) as (rx & Erx & Hrx).
  destruct (binop_scalar_rep Qmult rx _ _ (inject_Z stride) Hrx)
    as (xs & Exs & Hxs).
  destruct (binop_scalar_rep Qplus xs _ _
              (inject_Z (W - (Wf - 1) * stride) / 2)%Q Hxs)
    as (sx & Esx & Hsx).
  destruct (arange_rep Hf HHf) as (ry & Ery & Hry).
  destruct (binop_scalar_rep Qmult ry _ _ (inject_Z stride) Hry)
    as (ys & Eys & Hys).
  destruct (binop_scalar_rep Qplus ys _ _
              (inject_Z (H - (Hf - 1) * stride) / 2)%Q Hys)
    as (sy & Esy & Hsy).
  destruct (shifts_rep sx sy _ _ _ _ Hsx Hsy) as (stacked & Est & Hsh).
  eexists (transpose stacked), _. split; [exact Hsh|].
  intro anchors. unfold shift, offset_x, offset_y.
  rewrite !py_index_0, !py_index_1. cbn [bind].
  rewrite Erx. cbn [bind]. rewrite Exs. cbn [bind]. rewrite Esx. cbn [bind].
  rewrite Ery. cbn [bind]. rewrite Eys. cbn [bind]. rewrite Esy. cbn [bind].
  destruct (meshgrid sx sy) as [grid_x grid_y]. cbn [fst snd] in Est.
  rewrite Est. reflexivity.
Qed.

(** [shift] raises an index error when the image shape or the grid shape has
    fewer than two entries.  With both of at least two entries, a negative
    [Hf] or [Wf] is refused by the range before the anchors are looked at,
    whatever they are; on a grid with [Hf, Wf >= 0], anchors that are a scalar
    raise an index error and anchors that are [A >= 1] rows of a length other
    than 4 raise a shape-mismatch error. *)
Theorem shift_rejects_malformed_shapes :
  forall (image_shape features_shape : list Z) (stride : Z) (anchors : tensor),
    (length image_shape < 2 ->
     shift image_shape features_shape stride anchors = Err IndexOutOfRange)
    /\ (2 <= length image_shape -> length features_shape < 2 ->
        shift image_shape features_shape stride anchors = Err IndexOutOfRange)
    /\ (forall H W ri Hf Wf rf,
          image_shape = H :: W :: ri -> features_shape = Hf :: Wf :: rf ->
          ((Hf < 0)%Z \/ (Wf < 0)%Z ->
           shift image_shape features_shape stride anchors
           = Err InvalidArgument)
          /\ ((0 <= Hf)%Z -> (0 <= Wf)%Z -> shape anchors = [] ->
              shift image_shape features_shape stride anchors
              = Err IndexOutOfRange)
          /\ (forall A d,
                (0 <= Hf)%Z -> (0 <= Wf)%Z ->
                shape anchors = [A; d] -> 1 <= A -> d <> 4 ->
                shift image_shape features_shape stride anchors
                = Err ShapeMismatch)).
Proof.
  intros image_shape features_shape stride anchors.
  split; [|split].
  - intro Hl. destruct image_shape as [|h [|w ri]]; simpl in Hl; try lia;
      reflexivity.
  - intros Hi Hl. destruct image_shape as [|h [|w ri]]; simpl in Hi; try lia.
    destruct features_shape as [|hf [|wf_ rf]]; simpl in Hl; try lia;
      reflexivity.
  - intros H W ri Hf Wf rf -> ->. split; [|split].
    + apply shift_negative_grid.
    + intros HHf HWf Es.
      destruct (shift_reaches_tiling H W ri Hf Wf rf stride HHf HWf)
        as (shifts & gs & _ & ->).
      rewrite Es. reflexivity.
    + intros A d HHf HWf Es HA Hd.
      destruct (shift_reaches_tiling H W ri Hf Wf rf stride HHf HWf)
        as (shifts & gs & (Ess & _) & ->).
      rewrite Es, Ess, !py_index_0. cbn [bind].
      rewrite reshape_err; [reflexivity|].
      rewrite Es. unfold size. cbn [fold_right]. nia.
Qed.

Lemma shift_rejects_malformed_shapes_witness :
  shift [2; 2]%Z [2; 2]%Z 1 (mkTensor [2; 5] (repeat 0%Q 10))
  = Err ShapeMismatch
  /\ shift [2; 2]%Z [2; -1]%Z 1 (mkTensor [2; 5] (repeat 0%Q 10))
     = Err InvalidArgument.
Proof.
  split.
  - apply (proj2 (proj2 (proj2 (proj2 (shift_rejects_malformed_shapes
                                  [2; 2]%Z [2; 2]%Z 1
                                  (mkTensor [2; 5] (repeat 0%Q 10))))
                          2%Z 2%Z [] 2%Z 2%Z [] eq_refl eq_refl)) 2 5).
    + lia.
    + lia.
    + reflexivity.
    + lia.
    + lia.
  - apply (proj1 (proj2 (proj2 (shift_rejects_malformed_shapes
                                  [2; 2]%Z [2; -1]%Z 1
                                  (mkTensor [2; 5] (repeat 0%Q 10))))
                    2%Z 2%Z [] 2%Z (-1)%Z [] eq_refl eq_refl)).
    right. lia.
Defined.

(** ** [bbox_transform_inv]: broadcasting, extra columns, extra statistics *)

Lemma broadcast_index_rank2 B N i j :
  broadcast_index [B; N] [i; j]
  = [if B =? 1 then 0 else i; if N =? 1 then 0 else j].
Proof. reflexivity. Qed.

Lemma extent_general hi lo boxes B N C gb :
  represents boxes [B; N; C] gb -> hi < C -> lo < C ->
  exists e,
    represents e [B; N]
      (fun idx => (gb (insert_at 2 hi idx) - gb (insert_at 2 lo idx))%Q)
    /\ forall (R : Type) (k : tensor -> result R),
         (b_hi <- take_axis 2 hi boxes ;;
          b_lo <- take_axis 2 lo boxes ;;
          extent <- binop Qminus b_hi b_lo ;;
          k extent) = k e.
Proof.
  intros Hb Hhi Hlo.
  destruct (take_axis_rep 2 hi boxes _ _ Hb ltac:(simpl; lia) ltac:(simpl; lia))
    as (b2 & E2 & Hb2). cbn [remove_at] in Hb2.
  destruct (take_axis_rep 2 lo boxes _ _ Hb ltac:(simpl; lia) ltac:(simpl; lia))
    as (b0 & E0 & Hb0). cbn [remove_at] in Hb0.
  destruct (binop_same_rep Qminus b2 b0 _ _ _ Hb2 Hb0) as (e & Ee & Hex).
  exists e. split; [exact Hex|].
  intros R k. rewrite E2, E0. cbn [bind]. rewrite Ee. reflexivity.
Qed.

Lemma decode_coordinate_general i boxes deltas mean std extent
      B1 N1 Cb B2 N2 Cd sh gb gd ge m s :
  represents boxes [B1; N1; Cb] gb ->
  represents deltas [B2; N2; Cd] gd ->
  represents extent [B1; N1] ge ->
  i < Cb -> i < Cd -> nth_error std i = Some s -> nth_error mean i = Some m ->
  broadcast_shape [B2; N2] [B1; N1] = Some sh ->
  exists t, decode_coordinate i boxes deltas mean std extent = Ok t /\
    represents t sh
      (fun idx =>
         (gb (insert_at 2 i (broadcast_index [B1; N1] idx))
          + (gd (insert_at 2 i (broadcast_index [B2; N2] idx)) * s + m)
            * ge (broadcast_index [B1; N1] idx))%Q).
Proof.
  intros Hb Hd He Hib Hid Hs Hm Eb. unfold decode_coordinate, py_index.
  rewrite Hs, Hm.
  destruct (take_axis_rep 2 i boxes _ _ Hb ltac:(simpl; lia) ltac:(simpl; lia))
    as (b & -> & Hbr). cbn [bind remove_at] in *.
  destruct (take_axis_rep 2 i deltas _ _ Hd ltac:(simpl; lia) ltac:(simpl; lia))
    as (d & -> & Hdr). cbn [bind remove_at] in *.
  destruct (binop_scalar_rep Qmult d _ _ s Hdr) as (ds & -> & Hds).
  cbn [bind].
  destruct (binop_scalar_rep Qplus ds _ _ m Hds) as (dsm & -> & Hdsm).
  cbn [bind].
  destruct (binop_rep Qmult dsm extent _ _ _ _ _ Hdsm He Eb)
    as (off & -> & Hoff). cbn [bind].
  destruct (binop_rep Qplus b off _ _ _ _ _ Hbr Hoff
              (broadcast_shape_absorb _ _ _ Eb)) as (t & -> & Ht).
  exists t. split; [reflexivity|].
  eapply represents_ext; [exact Ht|].
  intros idx Hin. cbv beta.
  rewrite (broadcast_index_same sh idx) by exact Hin. reflexivity.
Qed.

Lemma bbox_transform_inv_general boxes deltas B1 N1 Cb B2 N2 Cd b n gb gd
      m0 m1 m2 m3 mr s0 s1 s2 s3 sr :
  represents boxes [B1; N1; Cb] gb ->
  represents deltas [B2; N2; Cd] gd ->
  4 <= Cb -> 4 <= Cd ->
  broadcast_dim B2 B1 = Some b -> broadcast_dim N2 N1 = Some n ->
  exists out,
    bbox_transform_inv boxes deltas (Some (m0 :: m1 :: m2 :: m3 :: mr))
                       (Some (s0 :: s1 :: s2 :: s3 :: sr)) = Ok out
    /\ shape out = [b; n; 4]
    /\ wf out
    /\ forall i j, i < b -> j < n ->
         forall bi bj di dj,
           bi = (if B1 =? 1 then 0 else i) -> bj = (if N1 =? 1 then 0 else j) ->
           di = (if B2 =? 1 then 0 else i) -> dj = (if N2 =? 1 then 0 else j) ->
           get out [i; j; 0]
           = (gb [bi; bj; 0]%nat + (gd [di; dj; 0]%nat * s0 + m0)
                                   * (gb [bi; bj; 2]%nat - gb [bi; bj; 0]%nat))%Q
           /\ get out [i; j; 1]
              = (gb [bi; bj; 1]%nat + (gd [di; dj; 1]%nat * s1 + m1)
                                      * (gb [bi; bj; 3]%nat - gb [bi; bj; 1]%nat))%Q
           /\ get out [i; j; 2]
              = (gb [bi; bj; 2]%nat + (gd [di; dj; 2]%nat * s2 + m2)
                                      * (gb [bi; bj; 2]%nat - gb [bi; bj; 0]%nat))%Q
           /\ get out [i; j; 3]
              = (gb [bi; bj; 3]%nat + (gd [di; dj; 3]%nat * s3 + m3)
                                      * (gb [bi; bj; 3]%nat - gb [bi; bj; 1]%nat))%Q.
Proof.
  intros Hb Hd HCb HCd Eb En. unfold bbox_transform_inv.
  destruct (extent_general 2 0 boxes B1 N1 Cb gb Hb ltac:(lia) ltac:(lia))
    as (width & Hw & Ew).
  destruct (extent_general 3 1 boxes B1 N1 Cb gb Hb ltac:(lia) ltac:(lia))
    as (height & Hh & Eh).
  rewrite Ew, Eh.
  assert (Esh : broadcast_shape [B2; N2] [B1; N1] = Some [b; n])
    by (rewrite broadcast_shape_rank2, Eb, En; reflexivity).
  destruct (decode_coordinate_general 0 boxes deltas (m0 :: m1 :: m2 :: m3 :: mr)
              (s0 :: s1 :: s2 :: s3 :: sr) width
              B1 N1 Cb B2 N2 Cd _ gb gd _ m0 s0 Hb Hd Hw
              ltac:(lia) ltac:(lia) eq_refl eq_refl Esh)
    as (x_1 & -> & Hx1). cbn [bind].
  destruct (decode_coordinate_general 1 boxes deltas (m0 :: m1 :: m2 :: m3 :: mr)
              (s0 :: s1 :: s2 :: s3 :: sr) height
              B1 N1 Cb B2 N2 Cd _ gb gd _ m1 s1 Hb Hd Hh
              ltac:(lia) ltac:(lia) eq_refl eq_refl Esh)
    as (y_1 & -> & Hy1). cbn [bind].
  destruct (decode_coordinate_general 2 boxes deltas (m0 :: m1 :: m2 :: m3 :: mr)
              (s0 :: s1 :: s2 :: s3 :: sr) width
              B1 N1 Cb B2 N2 Cd _ gb gd _ m2 s2 Hb Hd Hw
              ltac:(lia) ltac:(lia) eq_refl eq_refl Esh)
    as (x_2 & -> & Hx2). cbn [bind].
  destruct (decode_coordinate_general 3 boxes deltas (m0 :: m1 :: m2 :: m3 :: mr)
              (s0 :: s1 :: s2 :: s3 :: sr) height
              B1 N1 Cb B2 N2 Cd _ gb gd _ m3 s3 Hb Hd Hh
              ltac:(lia) ltac:(lia) eq_refl eq_refl Esh)
    as (y_2 & -> & Hy2). cbn [bind].
  destruct (stack4_rep 2 _ _ _ _ _ _ _ _ _ Hx1 Hy1 Hx2 Hy2 ltac:(simpl; lia))
    as (out & -> & (Eso & Hwo & Hgo)).
  exists out. split; [reflexivity|]. split; [exact Eso|]. split; [exact Hwo|].
  intros i j Hi Hj bi bj di dj -> -> -> ->. cbn [insert_at] in Hgo.
  rewrite !Hgo by (apply in_bounds_rank3_intro; lia).
  cbn [nth remove_at]. rewrite !broadcast_index_rank2.
  cbn [insert_at]. repeat split; reflexivity.
Qed.

(** [bbox_transform_inv] broadcasts the two leading axes of boxes
    [(B1, N1, Cb)] and deltas [(B2, N2, Cd)] whenever each pair of extents is
    equal or contains a 1: entry [(i, j)] of the result decodes the box and
    the delta found at [(i, j)], with 0 in place of [i] or [j] along an axis
    of extent 1.  Only columns 0 to 3 of boxes and deltas and entries 0 to 3
    of [mean] and [std] are read: further columns and entries change
    nothing, and the result always has 4 columns. *)
Theorem bbox_transform_inv_broadcasts_leading_axes :
  forall (boxes deltas : tensor) (B1 N1 Cb B2 N2 Cd : nat)
         (m0 m1 m2 m3 : Q) (mr : list Q) (s0 s1 s2 s3 : Q) (sr : list Q),
    has_shape boxes [B1; N1; Cb] -> has_shape deltas [B2; N2; Cd] ->
    4 <= Cb -> 4 <= Cd ->
    B1 = B2 \/ B1 = 1 \/ B2 = 1 ->
    N1 = N2 \/ N1 = 1 \/ N2 = 1 ->
    exists out,
      bbox_transform_inv boxes deltas (Some (m0 :: m1 :: m2 :: m3 :: mr))
                         (Some (s0 :: s1 :: s2 :: s3 :: sr)) = Ok out
      /\ has_shape out [if B1 =? 1 then B2 else B1;
                        if N1 =? 1 then N2 else N1; 4]
      /\ forall i j,
           i < (if B1 =? 1 then B2 else B1) ->
           j < (if N1 =? 1 then N2 else N1) ->
           let bi := if B1 =? 1 then 0 else i in
           let bj := if N1 =? 1 then 0 else j in
           let di := if B2 =? 1 then 0 else i in
           let dj := if N2 =? 1 then 0 else j in
           (coord out i j 0
            = coord boxes bi bj 0
              + (coord deltas di dj 0 * s0 + m0)
                * (coord boxes bi bj 2 - coord boxes bi bj 0))%Q
           /\ (coord out i j 1
               = coord boxes bi bj 1
                 + (coord deltas di dj 1 * s1 + m1)
                   * (coord boxes bi bj 3 - coord boxes bi bj 1))%Q
           /\ (coord out i j 2
               = coord boxes bi bj 2
                 + (coord deltas di dj 2 * s2 + m2)
                   * (coord boxes bi bj 2 - coord boxes bi bj 0))%Q
           /\ (coord out i j 3
               = coord boxes bi bj 3
                 + (coord deltas di dj 3 * s3 + m3)
                   * (coord boxes bi bj 3 - coord boxes bi bj 1))%Q.
Proof.
  intros boxes deltas B1 N1 Cb B2 N2 Cd m0 m1 m2 m3 mr s0 s1 s2 s3 sr
         Hb Hd HCb HCd HB HN.
  destruct (broadcast_dim B2 B1) as [b|] eqn:Eb.
  2:{ apply broadcast_dim_incompatible in Eb. unfold incompatible in Eb. lia. }
  destruct (broadcast_dim N2 N1) as [n|] eqn:En.
  2:{ apply broadcast_dim_incompatible in En. unfold incompatible in En. lia. }
  destruct (bbox_transform_inv_general boxes deltas B1 N1 Cb B2 N2 Cd b n
              (get boxes) (get deltas) m0 m1 m2 m3 mr s0 s1 s2 s3 sr
              (represents_self _ _ Hb) (represents_self _ _ Hd)
              HCb HCd Eb En) as (out & E & Es & Hw & Hg).
  apply broadcast_dim_value in Eb, En. subst b n.
  exists out. split; [exact E|]. split; [split; assumption|].
  intros i j Hi Hj bi bj di dj. unfold coord.
  apply (Hg i j Hi Hj bi bj di dj); reflexivity.
Qed.

Lemma bbox_transform_inv_broadcasts_leading_axes_witness :
  exists out,
    bbox_transform_inv three_boxes sample_delta
                       (Some [0; 0; 0; 0; 9]%Q)
                       (Some [0.2; 0.2; 0.2; 0.2]%Q) = Ok out
    /\ has_shape out [if 1 =? 1 then 1 else 1; if 3 =? 1 then 1 else 3; 4]
    /\ forall i j,
         i < (if 1 =? 1 then 1 else 1) ->
         j < (if 3 =? 1 then 1 else 3) ->
         let bi := if 1 =? 1 then 0 else i in
         let bj := if 3 =? 1 then 0 else j in
         let di := if 1 =? 1 then 0 else i in
         let dj := if 1 =? 1 then 0 else j in
         (coord out i j 0
          = coord three_boxes bi bj 0
            + (coord sample_delta di dj 0 * 0.2 + 0)
              * (coord three_boxes bi bj 2 - coord three_boxes bi bj 0))%Q
         /\ (coord out i j 1
             = coord three_boxes bi bj 1
               + (coord sample_delta di dj 1 * 0.2 + 0)
                 * (coord three_boxes bi bj 3 - coord three_boxes bi bj 1))%Q
         /\ (coord out i j 2
             = coord three_boxes bi bj 2
               + (coord sample_delta di dj 2 * 0.2 + 0)
                 * (coord three_boxes bi bj 2 - coord three_boxes bi bj 0))%Q
         /\ (coord out i j 3
             = coord three_boxes bi bj 3
               + (coord sample_delta di dj 3 * 0.2 + 0)
                 * (coord three_boxes bi bj 3 - coord three_boxes bi bj 1))%Q.
Proof.
  apply (bbox_transform_inv_broadcasts_leading_axes
           three_boxes sample_delta 1 3 4 1 1 4 0 0 0 0 [9%Q] 0.2 0.2 0.2 0.2 []).
  - split; reflexivity.
  - split; reflexivity.
  - lia.
  - lia.
  - left. reflexivity.
  - right. right. reflexivity.
Defined.





(** In the arithmetic of [floatx()], a box whose width is zero keeps its x
    coordinates and a box whose height is zero keeps its y coordinates, for
    every delta, mean and std whose scaled delta [delta * std + mean] is
    finite.  When the scaled delta overflows the coordinate is lost: the
    float32 box [(3, 1, 3, 9)] with delta [3e38] and std [5] decodes to NaN
    in [x1]. *)
Theorem bbox_transform_inv_fixes_degenerate_boxes_without_overflow :
  (forall (prec emax : Z) (boxes deltas mean std : Floatx.quad),
     let out := Floatx.bbox_transform_inv prec emax boxes deltas mean std in
     let scaled_at (i : Floatx.quad -> Floatx.float) :=
       Floatx.scaled prec emax (i deltas) (i std) (i mean) in
     (Floatx.is_zero (Floatx.width prec emax boxes) = true ->
      (Floatx.finite (scaled_at Floatx.at0) = true ->
       Floatx.equal (Floatx.at0 out) (Floatx.at0 boxes) = true)
      /\ (Floatx.finite (scaled_at Floatx.at2) = true ->
          Floatx.equal (Floatx.at2 out) (Floatx.at2 boxes) = true))
     /\ (Floatx.is_zero (Floatx.height prec emax boxes) = true ->
         (Floatx.finite (scaled_at Floatx.at1) = true ->
          Floatx.equal (Floatx.at1 out) (Floatx.at1 boxes) = true)
         /\ (Floatx.finite (scaled_at Floatx.at3) = true ->
             Floatx.equal (Floatx.at3 out) (Floatx.at3 boxes) = true)))
  /\ Floatx.is_nan
       (Floatx.at0
          (Floatx.bbox_transform_inv 24 128
             (Floatx.mkQuad (Floatx.float32 3) (Floatx.float32 1)
                            (Floatx.float32 3) (Floatx.float32 9))
             (four_times (Floatx.float32 (3 * 10 ^ 38))) Floatx.zero_mean
             (four_times (Floatx.float32 5)))) = true.
Proof.
  split; [|vm_compute; reflexivity].
  intros prec emax [x1 y1 x2 y2] [d0 d1 d2 d3] [m0 m1 m2 m3] [s0 s1 s2 s3]
         out scaled_at.
  assert (Hfin : forall x, Floatx.is_zero x = true -> Floatx.finite x = true)
    by (intros [?|?| |? ? ?]; intro; (discriminate || reflexivity)).
  subst out scaled_at. unfold Floatx.bbox_transform_inv.
  cbn [Floatx.at0 Floatx.at1 Floatx.at2 Floatx.at3].
  split; intro Hz;
    destruct (floatx_sub_finite _ _ _ _ (Hfin _ Hz)) as [H2 H1];
    cbn [Floatx.at0 Floatx.at1 Floatx.at2 Floatx.at3] in H1, H2;
    split; intro Ht;
    apply floatx_add_zero_product;
    (assumption || (apply Hfin; exact Hz) || (right; exact Hz)).
Qed.

Lemma bbox_transform_inv_fixes_degenerate_boxes_without_overflow_witness :
  let boxes := Floatx.mkQuad (Floatx.float32 3) (Floatx.float32 1)
                             (Floatx.float32 3) (Floatx.float32 9) in
  let out := Floatx.bbox_transform_inv 24 128 boxes
               (four_times (Floatx.float32 7)) Floatx.zero_mean
               (four_times (Floatx.float32 5)) in
  Floatx.equal (Floatx.at0 out) (Floatx.at0 boxes) = true
  /\ Floatx.equal (Floatx.at2 out) (Floatx.at2 boxes) = true.
Proof.
  pose proof (proj1 (proj1
                bbox_transform_inv_fixes_degenerate_boxes_without_overflow
                24%Z 128%Z
                (Floatx.mkQuad (Floatx.float32 3) (Floatx.float32 1)
                               (Floatx.float32 3) (Floatx.float32 9))
                (four_times (Floatx.float32 7)) Floatx.zero_mean
                (four_times (Floatx.float32 5))) eq_refl) as [H0 H2].
  split; [apply H0 | apply H2]; reflexivity.
Defined.

(** ** [bbox_transform_inv]: index errors *)

Lemma decode_coordinate_cases i boxes deltas mean std extent B N gb gd ge :
  represents boxes [B; N; 4] gb ->
  represents deltas [B; N; 4] gd ->
  represents extent [B; N] ge ->
  i < 4 ->
  match nth_error std i, nth_error mean i with
  | Some _, Some _ =>
      exists t, decode_coordinate i boxes deltas mean std extent = Ok t
  | _, _ =>
      decode_coordinate i boxes deltas mean std extent = Err IndexOutOfRange
  end.
Proof.
  intros Hb Hd He Hi.
  destruct (nth_error std i) as [s|] eqn:Es.
  - destruct (nth_error mean i) as [m|] eqn:Em.
    + destruct (decode_coordinate_rep i boxes deltas mean std extent B N
                  gb gd ge m s Hb Hd He Hi Es Em) as (t & E & _).
      exists t. exact E.
    + unfold decode_coordinate, py_index. rewrite Es, Em.
      destruct (take_axis_rep 2 i boxes _ _ Hb ltac:(simpl; lia)
                  ltac:(simpl; lia)) as (b & -> & Hbr).
      cbn [bind remove_at] in *.
      destruct (take_axis_rep 2 i deltas _ _ Hd ltac:(simpl; lia)
                  ltac:(simpl; lia)) as (d & -> & Hdr).
      cbn [bind remove_at] in *.
      destruct (binop_scalar_rep Qmult d _ _ s Hdr) as (ds & -> & _).
      reflexivity.
  - unfold decode_coordinate, py_index. rewrite Es.
    destruct (take_axis_rep 2 i boxes _ _ Hb ltac:(simpl; lia)
                ltac:(simpl; lia)) as (b & -> & Hbr).
    cbn [bind remove_at] in *.
    destruct (take_axis_rep 2 i deltas _ _ Hd ltac:(simpl; lia)
                ltac:(simpl; lia)) as (d & -> & Hdr).
    reflexivity.
Qed.

(** [bbox_transform_inv] raises an index error when the boxes have fewer
    than three axes or fewer than 4 columns, and when [mean] or [std] has
    fewer than 4 entries. *)
Theorem bbox_transform_inv_index_errors :
  forall (boxes deltas : tensor),
    (forall mean std,
       length (shape boxes) < 3 ->
       bbox_transform_inv boxes deltas mean std = Err IndexOutOfRange)
    /\ (forall mean std B N C,
          has_shape boxes [B; N; C] -> C < 4 ->
          bbox_transform_inv boxes deltas mean std = Err IndexOutOfRange)
    /\ (forall mean std B N,
          has_shape boxes [B; N; 4] -> has_shape deltas [B; N; 4] ->
          length mean < 4 \/ length std < 4 ->
          bbox_transform_inv boxes deltas (Some mean) (Some std)
          = Err IndexOutOfRange).
Proof.
  intros boxes deltas. split; [|split].
  - intros mean std Hr. unfold bbox_transform_inv, take_axis.
    apply Nat.ltb_ge in Hr. replace (2 <? length (shape boxes)) with false
      by (symmetry; apply Nat.ltb_ge; apply Nat.ltb_ge in Hr; lia).
    reflexivity.
  - intros mean std B N C Hb HC. unfold bbox_transform_inv.
    destruct (Nat.eq_dec C 3) as [->|HC3].
    + destruct (extent_general 2 0 boxes B N 3 (get boxes)
                  (represents_self _ _ Hb) ltac:(lia) ltac:(lia))
        as (width & _ & ->).
      unfold take_axis at 1. destruct Hb as [-> _]. reflexivity.
    + unfold take_axis at 1. destruct Hb as [-> _]. cbn [length nth].
      replace (2 <? C) with false by (symmetry; apply Nat.ltb_ge; lia).
      rewrite andb_false_r. reflexivity.
  - intros mean std B N Hb Hd Hlen. unfold bbox_transform_inv.
    pose proof (represents_self _ _ Hb) as Rb.
    pose proof (represents_self _ _ Hd) as Rd.
    destruct (extent_rep 2 0 boxes B N _ Rb ltac:(lia) ltac:(lia))
      as (width & Hw & ->).
    destruct (extent_rep 3 1 boxes B N _ Rb ltac:(lia) ltac:(lia))
      as (height & Hh & ->).
    pose proof (decode_coordinate_cases 0 boxes deltas mean std width
                  B N _ _ _ Rb Rd Hw ltac:(lia)) as H0.
    pose proof (decode_coordinate_cases 1 boxes deltas mean std height
                  B N _ _ _ Rb Rd Hh ltac:(lia)) as H1.
    pose proof (decode_coordinate_cases 2 boxes deltas mean std width
                  B N _ _ _ Rb Rd Hw ltac:(lia)) as H2.
    pose proof (decode_coordinate_cases 3 boxes deltas mean std height
                  B N _ _ _ Rb Rd Hh ltac:(lia)) as H3.
    destruct mean as [|m0 [|m1 [|m2 [|m3 mr]]]];
      destruct std as [|s0 [|s1 [|s2 [|s3 sr]]]];
      cbn [length] in Hlen; try lia;
      cbn [nth_error] in H0, H1, H2, H3;
      repeat match goal with
             | H : exists t, _ = Ok t |- _ => destruct H as (? & H)
             end;
      rewrite ?H0, ?H1, ?H2, ?H3; reflexivity.
Qed.

Lemma bbox_transform_inv_index_errors_witness :
  bbox_transform_inv sample_box sample_delta (Some [0; 0; 0]%Q)
                     (Some [0.2; 0.2; 0.2; 0.2]%Q) = Err IndexOutOfRange.
Proof.
  apply (proj2 (proj2 (bbox_transform_inv_index_errors
                         sample_box sample_delta)) _ _ 1 1).
  - split; reflexivity.
  - split; reflexivity.
  - left. simpl. lia.
Defined.

(** ** [ClipBoxes]: further properties *)

Lemma clip_coordinate_general i boxes B N C gb lo hi :
  represents boxes [B; N; C] gb -> i < C ->
  exists t,
    represents t [B; N]
      (fun idx => Qmax (Qmin (gb (insert_at 2 i idx)) hi) lo)
    /\ forall (R : Type) (k : tensor -> result R),
         (b <- take_axis 2 i boxes ;;
          c <- clip_by_value b lo hi ;;
          k c) = k t.
Proof.
  intros Hb Hi.
  destruct (take_axis_rep 2 i boxes _ _ Hb ltac:(simpl; lia) ltac:(simpl; lia))
    as (b & Eb & Hbr). cbn [remove_at] in Hbr.
  destruct (clip_by_value_rep b _ _ lo hi Hbr) as (t & Et & Ht).
  exists t. split; [exact Ht|].
  intros R k. rewrite Eb. cbn [bind]. rewrite Et. reflexivity.
Qed.

Lemma image_extents fmt image H W :
  nth_error (shape image) (height_axis fmt) = Some H ->
  nth_error (shape image) (width_axis fmt) = Some W ->
  forall (R : Type) (k : Q * Q -> result R),
    (hw <- match fmt with
           | channels_first =>
               height <- py_index
                           (map (fun d => inject_Z (Z.of_nat d)) (shape image))
                           2 ;;
               width <- py_index
                          (map (fun d => inject_Z (Z.of_nat d)) (shape image))
                          3 ;;
               Ok (height, width)
           | channels_last =>
               height <- py_index
                           (map (fun d => inject_Z (Z.of_nat d)) (shape image))
                           1 ;;
               width <- py_index
                          (map (fun d => inject_Z (Z.of_nat d)) (shape image))
                          2 ;;
               Ok (height, width)
           end ;;
     k hw)
    = k (inject_Z (Z.of_nat H), inject_Z (Z.of_nat W)).
Proof.
  intros EH EW R k. unfold py_index.
  destruct fmt; cbn [height_axis width_axis] in EH, EW;
    rewrite !nth_error_map, EH, EW; reflexivity.
Qed.

Lemma call_general fmt image boxes H W B N C gb :
  nth_error (shape image) (height_axis fmt) = Some H ->
  nth_error (shape image) (width_axis fmt) = Some W ->
  represents boxes [B; N; C] gb -> 4 <= C ->
  exists out,
    ClipBoxes.call fmt image boxes = Ok out
    /\ shape out = [B; N; 4]
    /\ wf out
    /\ forall b i, b < B -> i < N ->
         get out [b; i; 0]
         = Qmax (Qmin (gb [b; i; 0]) (inject_Z (Z.of_nat W) - 1)) 0
         /\ get out [b; i; 1]
         = Qmax (Qmin (gb [b; i; 1]) (inject_Z (Z.of_nat H) - 1)) 0
         /\ get out [b; i; 2]
         = Qmax (Qmin (gb [b; i; 2]) (inject_Z (Z.of_nat W) - 1)) 0
         /\ get out [b; i; 3]
         = Qmax (Qmin (gb [b; i; 3]) (inject_Z (Z.of_nat H) - 1)) 0.
Proof.
  intros EH EW Hb HC. unfold ClipBoxes.call.
  rewrite (image_extents fmt image H W EH EW).
  set (hi_x := (inject_Z (Z.of_nat W) - 1)%Q).
  set (hi_y := (inject_Z (Z.of_nat H) - 1)%Q).
  destruct (clip_coordinate_general 0 boxes B N C gb 0 hi_x Hb ltac:(lia))
    as (x_1 & Hx1 & ->).
  destruct (clip_coordinate_general 1 boxes B N C gb 0 hi_y Hb ltac:(lia))
    as (y_1 & Hy1 & ->).
  destruct (clip_coordinate_general 2 boxes B N C gb 0 hi_x Hb ltac:(lia))
    as (x_2 & Hx2 & ->).
  destruct (clip_coordinate_general 3 boxes B N C gb 0 hi_y Hb ltac:(lia))
    as (y_2 & Hy2 & ->).
  destruct (stack4_rep 2 _ _ _ _ _ _ _ _ _ Hx1 Hy1 Hx2 Hy2 ltac:(simpl; lia))
    as (out & -> & (Eso & Hwo & Hgo)).
  exists out. split; [reflexivity|].
  split; [exact Eso|]. split; [exact Hwo|].
  intros b i Hbb Hi. cbn [insert_at] in Hgo.
  rewrite !Hgo by (apply in_bounds_rank3_intro; lia).
  cbn [nth remove_at insert_at]. repeat split; reflexivity.
Qed.

Lemma clip_monotone lo hi v1 v2 :
  (v1 <= v2)%Q ->
  (Qmax (Qmin v1 hi) lo <= Qmax (Qmin v2 hi) lo)%Q
  /\ (Qmax (Qmin v2 hi) lo - Qmax (Qmin v1 hi) lo <= v2 - v1)%Q.
Proof.
  intro Hle. unfold Qmax, Qmin, GenericMinMax.gmax, GenericMinMax.gmin.
  destruct (v1 ?= hi)%Q eqn:E1; destruct (v2 ?= hi)%Q eqn:E2;
    destruct (v1 ?= lo)%Q eqn:E3; destruct (v2 ?= lo)%Q eqn:E4;
    destruct (hi ?= lo)%Q eqn:E5;
    compare_to_order; split; lra.
Qed.

(** Boxes that already lie inside the image are returned as they are. *)
Theorem clip_boxes_leaves_inner_boxes_unchanged :
  forall (fmt : data_format) (image boxes : tensor) (H W B N : nat),
    nth_error (shape image) (height_axis fmt) = Some H ->
    nth_error (shape image) (width_axis fmt) = Some W ->
    has_shape boxes [B; N; 4] ->
    (forall b i, b < B -> i < N ->
       (0 <= coord boxes b i 0 <= inject_Z (Z.of_nat W) - 1)%Q
       /\ (0 <= coord boxes b i 1 <= inject_Z (Z.of_nat H) - 1)%Q
       /\ (0 <= coord boxes b i 2 <= inject_Z (Z.of_nat W) - 1)%Q
       /\ (0 <= coord boxes b i 3 <= inject_Z (Z.of_nat H) - 1)%Q) ->
    ClipBoxes.call fmt image boxes = Ok boxes.
Proof.
  intros fmt image boxes H W B N EH EW Hb Hin.
  destruct (call_general fmt image boxes H W B N 4 (get boxes) EH EW
              (represents_self _ _ Hb) ltac:(lia))
    as (out & E & Es & Hw & Hg).
  rewrite E. f_equal. destruct Hb as [Esb Hwb].
  apply tensor_ext; [congruence | assumption | assumption |].
  rewrite Es. intros idx Hidx. apply in_bounds_rank3 in Hidx.
  destruct Hidx as (b & i & c & -> & Hbb & Hi & Hc).
  destruct (Hg b i Hbb Hi) as (E0 & E1 & E2 & E3).
  destruct (Hin b i Hbb Hi) as (I0 & I1 & I2 & I3). unfold coord in *.
  destruct c as [|[|[|[|c]]]]; try lia.
  - rewrite E0. apply clip_fixed; tauto.
  - rewrite E1. apply clip_fixed; tauto.
  - rewrite E2. apply clip_fixed; tauto.
  - rewrite E3. apply clip_fixed; tauto.
Qed.

Lemma clip_boxes_leaves_inner_boxes_unchanged_witness :
  ClipBoxes.call channels_last (image_10x10 channels_last) (one_box 1 2 8 9)
  = Ok (one_box 1 2 8 9).
Proof.
  apply (clip_boxes_leaves_inner_boxes_unchanged channels_last
           (image_10x10 channels_last) (one_box 1 2 8 9) 10 10 1 1).
  - reflexivity.
  - reflexivity.
  - split; reflexivity.
  - intros b i Hb Hi. assert (b = 0) by lia. assert (i = 0) by lia. subst.
    unfold coord. vm_compute. repeat split; discriminate.
Defined.

(** Clipping keeps the order of the corners and never enlarges a box: from
    [x1 <= x2] it follows that [0 <= x2' - x1' <= x2 - x1], and likewise for
    y, for every image shape. *)
Theorem clip_boxes_keeps_order_and_never_enlarges :
  forall (fmt : data_format) (image boxes : tensor) (H W B N : nat),
    nth_error (shape image) (height_axis fmt) = Some H ->
    nth_error (shape image) (width_axis fmt) = Some W ->
    has_shape boxes [B; N; 4] ->
    exists out,
      ClipBoxes.call fmt image boxes = Ok out
      /\ forall b i, b < B -> i < N ->
           ((coord boxes b i 0 <= coord boxes b i 2)%Q ->
            (coord out b i 0 <= coord out b i 2)%Q
            /\ (coord out b i 2 - coord out b i 0
                <= coord boxes b i 2 - coord boxes b i 0)%Q)
           /\ ((coord boxes b i 1 <= coord boxes b i 3)%Q ->
               (coord out b i 1 <= coord out b i 3)%Q
               /\ (coord out b i 3 - coord out b i 1
                   <= coord boxes b i 3 - coord boxes b i 1)%Q).
Proof.
  intros fmt image boxes H W B N EH EW Hb.
  destruct (call_general fmt image boxes H W B N 4 (get boxes) EH EW
              (represents_self _ _ Hb) ltac:(lia))
    as (out & E & _ & _ & Hg).
  exists out. split; [exact E|].
  intros b i Hbb Hi. destruct (Hg b i Hbb Hi) as (E0 & E1 & E2 & E3).
  unfold coord. rewrite E0, E1, E2, E3.
  split; intro Hle; apply clip_monotone; exact Hle.
Qed.

Lemma clip_boxes_keeps_order_and_never_enlarges_witness :
  exists out,
    ClipBoxes.call channels_first (image_10x10 channels_first) three_boxes
    = Ok out
    /\ forall b i, b < 1 -> i < 3 ->
         ((coord three_boxes b i 0 <= coord three_boxes b i 2)%Q ->
          (coord out b i 0 <= coord out b i 2)%Q
          /\ (coord out b i 2 - coord out b i 0
              <= coord three_boxes b i 2 - coord three_boxes b i 0)%Q)
         /\ ((coord three_boxes b i 1 <= coord three_boxes b i 3)%Q ->
             (coord out b i 1 <= coord out b i 3)%Q
             /\ (coord out b i 3 - coord out b i 1
                 <= coord three_boxes b i 3 - coord three_boxes b i 1)%Q).
Proof.
  apply (clip_boxes_keeps_order_and_never_enlarges channels_first
           (image_10x10 channels_first) three_boxes 10 10 1 3).
  - reflexivity.
  - reflexivity.
  - split; reflexivity.
Defined.

(** [ClipBoxes.call] raises an index error when the image has no axis at the
    position read as width (fewer than 3 axes under channels-last, fewer
    than 4 under channels-first), and, for an image with enough axes, when
    the boxes have fewer than three axes or fewer than 4 columns. *)
Theorem clip_boxes_index_errors :
  forall (fmt : data_format) (image boxes : tensor),
    (length (shape image) <= width_axis fmt ->
     ClipBoxes.call fmt image boxes = Err IndexOutOfRange)
    /\ (width_axis fmt < length (shape image) ->
        length (shape boxes) < 3 ->
        ClipBoxes.call fmt image boxes = Err IndexOutOfRange)
    /\ (forall B N C,
          width_axis fmt < length (shape image) ->
          has_shape boxes [B; N; C] -> C < 4 ->
          ClipBoxes.call fmt image boxes = Err IndexOutOfRange).
Proof.
  intros fmt image boxes. split; [|split].
  - intro Hl. unfold ClipBoxes.call, py_index.
    destruct fmt; cbn [width_axis] in Hl; rewrite !nth_error_map.
    + destruct (nth_error (shape image) 2); [|reflexivity]. cbn [option_map bind].
      rewrite (proj2 (nth_error_None (shape image) 3)) by lia. reflexivity.
    + destruct (nth_error (shape image) 1); [|reflexivity]. cbn [option_map bind].
      rewrite (proj2 (nth_error_None (shape image) 2)) by lia. reflexivity.
  - intros Hl Hr.
    destruct (nth_error (shape image) (height_axis fmt)) as [H|] eqn:EH.
    2:{ apply nth_error_None in EH. destruct fmt; cbn in *; lia. }
    destruct (nth_error (shape image) (width_axis fmt)) as [W|] eqn:EW.
    2:{ apply nth_error_None in EW. lia. }
    unfold ClipBoxes.call. rewrite (image_extents fmt image H W EH EW).
    unfold take_axis at 1.
    replace (2 <? length (shape boxes)) with false
      by (symmetry; apply Nat.ltb_ge; lia).
    reflexivity.
  - intros B N C Hl Hb HC.
    destruct (nth_error (shape image) (height_axis fmt)) as [H|] eqn:EH.
    2:{ apply nth_error_None in EH. destruct fmt; cbn in *; lia. }
    destruct (nth_error (shape image) (width_axis fmt)) as [W|] eqn:EW.
    2:{ apply nth_error_None in EW. lia. }
    unfold ClipBoxes.call. rewrite (image_extents fmt image H W EH EW).
    pose proof (represents_self _ _ Hb) as Rb. destruct Hb as [Es _].
    destruct C as [|[|[|[|C]]]]; try lia.
    + unfold take_axis at 1. rewrite Es. reflexivity.
    + destruct (clip_coordinate_general 0 boxes B N 1 _ 0
                  (inject_Z (Z.of_nat W) - 1) Rb ltac:(lia)) as (? & _ & ->).
      unfold take_axis at 1. rewrite Es. reflexivity.
    + destruct (clip_coordinate_general 0 boxes B N 2 _ 0
                  (inject_Z (Z.of_nat W) - 1) Rb ltac:(lia)) as (? & _ & ->).
      destruct (clip_coordinate_general 1 boxes B N 2 _ 0
                  (inject_Z (Z.of_nat H) - 1) Rb ltac:(lia)) as (? & _ & ->).
      unfold take_axis at 1. rewrite Es. reflexivity.
    + destruct (clip_coordinate_general 0 boxes B N 3 _ 0
                  (inject_Z (Z.of_nat W) - 1) Rb ltac:(lia)) as (? & _ & ->).
      destruct (clip_coordinate_general 1 boxes B N 3 _ 0
                  (inject_Z (Z.of_nat H) - 1) Rb ltac:(lia)) as (? & _ & ->).
      destruct (clip_coordinate_general 2 boxes B N 3 _ 0
                  (inject_Z (Z.of_nat W) - 1) Rb ltac:(lia)) as (? & _ & ->).
      unfold take_axis at 1. rewrite Es. reflexivity.
Qed.

Lemma clip_boxes_index_errors_witness :
  ClipBoxes.call channels_first (mkTensor [10; 10; 3] (repeat 0%Q 300))
                 three_boxes
  = Err IndexOutOfRange.
Proof.
  apply (proj1 (clip_boxes_index_errors channels_first
                  (mkTensor [10; 10; 3] (repeat 0%Q 300)) three_boxes)).
  simpl. lia.
Defined.

(** The shape [compute_output_shape] announces is the shape of the boxes.
    It is the shape of the array [call] returns exactly when the boxes have
    4 columns: with more columns [call] drops the extra ones and returns
    [(B, N, 4)]. *)
Theorem clip_boxes_announced_shape_vs_returned_shape :
  forall (fmt : data_format) (image boxes : tensor) (H W B N C : nat),
    nth_error (shape image) (height_axis fmt) = Some H ->
    nth_error (shape image) (width_axis fmt) = Some W ->
    has_shape boxes [B; N; C] -> 4 <= C ->
    exists out,
      ClipBoxes.call fmt image boxes = Ok out
      /\ shape out = [B; N; 4]
      /\ ClipBoxes.compute_output_shape [shape image; shape boxes]
         = Ok [B; N; C]
      /\ (ClipBoxes.compute_output_shape [shape image; shape boxes]
          = Ok (shape out) <-> C = 4).
Proof.
  intros fmt image boxes H W B N C EH EW Hb HC.
  destruct (call_general fmt image boxes H W B N C (get boxes) EH EW
              (represents_self _ _ Hb) HC) as (out & E & Es & _ & _).
  exists out. split; [exact E|]. split; [exact Es|].
  destruct Hb as [Esb _]. unfold ClipBoxes.compute_output_shape.
  rewrite py_index_1, Esb, Es. split; [reflexivity|].
  split; [intros [= ->]; reflexivity | intros ->; reflexivity].
Qed.

Lemma clip_boxes_announced_shape_vs_returned_shape_witness :
  exists out,
    ClipBoxes.call channels_last (image_10x10 channels_last)
                   (mkTensor [1; 1; 5] [-5; -5; 15; 15; 7]%Q) = Ok out
    /\ shape out = [1; 1; 4]
    /\ ClipBoxes.compute_output_shape
         [shape (image_10x10 channels_last);
          shape (mkTensor [1; 1; 5] [-5; -5; 15; 15; 7]%Q)]
       = Ok [1; 1; 5]
    /\ (ClipBoxes.compute_output_shape
          [shape (image_10x10 channels_last);
           shape (mkTensor [1; 1; 5] [-5; -5; 15; 15; 7]%Q)]
        = Ok (shape out) <-> 5 = 4).
Proof.
  apply (clip_boxes_announced_shape_vs_returned_shape channels_last
           (image_10x10 channels_last)
           (mkTensor [1; 1; 5] [-5; -5; 15; 15; 7]%Q) 10 10 1 1 5).
  - reflexivity.
  - reflexivity.
  - split; reflexivity.
  - lia.
Defined.

(** The decoder and the clipper compose: on boxes and deltas of one shape
    [(B, N, 4)] and an image with [H, W >= 1], decoding followed by clipping
    raises nothing, the decoded array has the shape [(B, N, 4)] the clipper
    reads and returns, and [compute_output_shape] announces that shape. *)
Theorem decode_then_clip_composes :
  forall (fmt : data_format) (image boxes deltas : tensor)
         (H W B N : nat) (m0 m1 m2 m3 s0 s1 s2 s3 : Q),
    1 <= H -> 1 <= W ->
    nth_error (shape image) (height_axis fmt) = Some H ->
    nth_error (shape image) (width_axis fmt) = Some W ->
    has_shape boxes [B; N; 4] -> has_shape deltas [B; N; 4] ->
    exists decoded out,
      bbox_transform_inv boxes deltas (Some [m0; m1; m2; m3])
                         (Some [s0; s1; s2; s3]) = Ok decoded
      /\ has_shape decoded [B; N; 4]
      /\ ClipBoxes.call fmt image decoded = Ok out
      /\ has_shape out [B; N; 4]
      /\ ClipBoxes.compute_output_shape [shape image; shape decoded]
         = Ok (shape out).
Proof.
  intros fmt image boxes deltas H W B N m0 m1 m2 m3 s0 s1 s2 s3
         HH HW EH EW Hb Hd.
  destruct (bbox_transform_inv_spec boxes deltas B N (get boxes) (get deltas)
              m0 m1 m2 m3 s0 s1 s2 s3
              (represents_self _ _ Hb) (represents_self _ _ Hd))
    as (decoded & E & Es & Hw & _).
  destruct (call_general fmt image decoded H W B N 4 (get decoded) EH EW
              (represents_self _ _ (conj Es Hw)) ltac:(lia))
    as (out & E' & Es' & Hw' & _).
  exists decoded, out. split; [exact E|].
  split; [split; assumption|]. split; [exact E'|].
  split; [split; assumption|].
  unfold ClipBoxes.compute_output_shape. rewrite py_index_1, Es, Es'.
  reflexivity.
Qed.

Lemma decode_then_clip_composes_witness :
  exists decoded out,
    bbox_transform_inv three_boxes three_boxes (Some [0; 0; 0; 0]%Q)
                       (Some [0.2; 0.2; 0.2; 0.2]%Q) = Ok decoded
    /\ has_shape decoded [1; 3; 4]
    /\ ClipBoxes.call channels_last (image_10x10 channels_last) decoded
       = Ok out
    /\ has_shape out [1; 3; 4]
    /\ ClipBoxes.compute_output_shape
         [shape (image_10x10 channels_last); shape decoded]
       = Ok (shape out).
Proof.
  apply (decode_then_clip_composes channels_last
           (image_10x10 channels_last) three_boxes three_boxes 10 10 1 3).
  - lia.
  - lia.
  - reflexivity.
  - reflexivity.
  - split; reflexivity.
  - split; reflexivity.
Defined.

(** ** [tf_version], [assert_tf_version], [check_tf_version] *)

Module VersionFacts.

Import Ascii String.
Import Version.
Local Open Scope string_scope.

Lemma split_never_empty sep s : split sep s <> [].
Proof.
  induction s as [|c s IH]; simpl; [discriminate|].
  destruct (Ascii.eqb c sep); [discriminate|].
  destruct (split sep s); discriminate.
Qed.

Lemma split_without_separator sep s :
  contains sep s = false -> split sep s = [s].
Proof.
  induction s as [|c s IH]; simpl; [reflexivity|].
  intro H. apply orb_false_iff in H. destruct H as [Hc Hs].
  rewrite Hc, (IH Hs). reflexivity.
Qed.

Lemma split_at_first_separator sep s rest :
  contains sep s = false ->
  split sep (s ++ String sep rest) = s :: split sep rest.
Proof.
  induction s as [|c s IH]; simpl.
  - intros _. rewrite Ascii.eqb_refl. reflexivity.
  - intro H. apply orb_false_iff in H. destruct H as [Hc Hs].
    rewrite Hc, (IH Hs). reflexivity.
Qed.

Lemma split_concat sep cs :
  cs <> [] ->
  Forall (fun c => contains sep c = false) cs ->
  split sep (concat (String sep EmptyString) cs) = cs.
Proof.
  induction cs as [|x cs IH]; [congruence|].
  intros _ Hall. inversion Hall as [|? ? Hx Hcs]; subst.
  destruct cs as [|y cs].
  - simpl. apply split_without_separator. exact Hx.
  - change (concat (String sep EmptyString) (x :: y :: cs))
      with (x ++ String sep (concat (String sep EmptyString) (y :: cs))).
    rewrite split_at_first_separator by exact Hx.
    rewrite IH; [reflexivity | discriminate | exact Hcs].
Qed.

Lemma contains_append c a b :
  contains c (a ++ b) = contains c a || contains c b.
Proof.
  induction a as [|x a IH]; simpl; [reflexivity|].
  rewrite IH. apply orb_assoc.
Qed.

Lemma contains_concat c sep cs :
  contains c sep = false ->
  Forall (fun x => contains c x = false) cs ->
  contains c (concat sep cs) = false.
Proof.
  intros Hsep. induction cs as [|x cs IH]; intro Hall; [reflexivity|].
  inversion Hall as [|? ? Hx Hcs]; subst.
  destruct cs as [|y cs]; [exact Hx|].
  change (concat sep (x :: y :: cs)) with (x ++ sep ++ concat sep (y :: cs)).
  rewrite !contains_append, Hx, Hsep, (IH Hcs). reflexivity.
Qed.


Lemma map_int_all int cs ns :
  Forall2 (fun c n => int c = Some n) cs ns ->
  map_int int cs = Returns ns.
Proof.
  induction 1 as [|c n cs ns Hc _ IH]; simpl; [reflexivity|].
  rewrite Hc, IH. reflexivity.
Qed.

Lemma map_int_some_fails int cs :
  Exists (fun c => int c = None) cs ->
  map_int int cs = Raises ValueError.
Proof.
  induction cs as [|c cs IH]; intro H; [inversion H|].
  simpl. destruct (int c) as [n|] eqn:Ec; [|reflexivity].
  inversion H as [? ? Hc | ? ? Hcs]; subst; [congruence|].
  rewrite (IH Hcs). reflexivity.
Qed.

Lemma map_int_raises_value_error int cs e :
  map_int int cs = Raises e -> e = ValueError.
Proof.
  induction cs as [|c cs IH]; simpl; [discriminate|].
  destruct (int c); [|intros [= <-]; reflexivity].
  destruct (map_int int cs); [discriminate|].
  intros [= <-]. apply IH. reflexivity.
Qed.

Lemma tf_version_raises_value_error int V e :
  tf_version int V = Raises e -> e = ValueError.
Proof.
  unfold tf_version. pose proof (split_never_empty "-" V) as Hne.
  destruct (split "-" V) as [|first rest]; [congruence|].
  apply map_int_raises_value_error.
Qed.

(** [tf_version] reads the dot-separated components that come before the
    first ['-'] and nothing else: for components free of ['.'] and ['-'],
    the version [c1.c2...cn], with or without a suffix [-anything], is the
    tuple of the integers [int] reads from the components, and a
    [ValueError] as soon as [int] rejects one of them. *)
Theorem tf_version_reads_components_before_dash :
  forall (int : string -> option Z) (cs : list string) (V : string),
    cs <> [] ->
    Forall (fun c => contains "." c = false /\ contains "-" c = false) cs ->
    V = concat "." cs \/ (exists suffix, V = concat "." cs ++ "-" ++ suffix) ->
    (forall ns, Forall2 (fun c n => int c = Some n) cs ns ->
                tf_version int V = Returns ns)
    /\ (Exists (fun c => int c = None) cs ->
        tf_version int V = Raises ValueError).
Proof.
  intros int cs V Hne Hall HV.
  assert (Hdot : Forall (fun c => contains "." c = false) cs)
    by (eapply Forall_impl; [|exact Hall]; simpl; tauto).
  assert (Hdash : Forall (fun c => contains "-" c = false) cs)
    by (eapply Forall_impl; [|exact Hall]; simpl; tauto).
  assert (Hno : contains "-" (concat "." cs) = false)
    by (apply contains_concat; [reflexivity | exact Hdash]).
  assert (E : tf_version int V = map_int int cs).
  { unfold tf_version. destruct HV as [-> | [suffix ->]].
    - rewrite (split_without_separator _ _ Hno).
      change "." with (String "."%char EmptyString).
      rewrite split_concat by assumption. reflexivity.
    - change ("-" ++ suffix) with (String "-"%char suffix).
      rewrite (split_at_first_separator _ _ _ Hno).
      change "." with (String "."%char EmptyString).
      rewrite split_concat by assumption. reflexivity. }
  rewrite E. split.
  - apply map_int_all.
  - apply map_int_some_fails.
Qed.

Lemma tf_version_reads_components_before_dash_witness :
  (forall ns,
     Forall2 (fun c n => int_of_digits c = Some n) ["2"; "1"; "0"] ns ->
     tf_version int_of_digits "2.1.0-rc1" = Returns ns)
  /\ (Exists (fun c => int_of_digits c = None) ["2"; "1"; "0"] ->
      tf_version int_of_digits "2.1.0-rc1" = Raises ValueError).
Proof.
  apply (tf_version_reads_components_before_dash int_of_digits
           ["2"; "1"; "0"] "2.1.0-rc1").
  - discriminate.
  - repeat constructor.
  - right. exists "rc1". reflexivity.
Defined.

Lemma tf_version_ok_of_parsed int V v minimum blacklisted :
  tf_version int V = Returns v ->
  Version.tf_version_ok int V minimum blacklisted
  = Returns (tuple_ge v minimum && negb (tuple_in v blacklisted)).
Proof.
  intro E. unfold Version.tf_version_ok. rewrite E.
  destruct (tuple_ge v minimum); reflexivity.
Qed.

Lemma accepted_iff v minimum blacklisted :
  tuple_ge v minimum && negb (tuple_in v blacklisted) = true
  <-> lex_ge v minimum /\ ~ In v blacklisted.
Proof.
  rewrite andb_true_iff, negb_true_iff, tuple_ge_lex.
  rewrite <- not_true_iff_false, tuple_in_In. reflexivity.
Qed.

(** With assertions enabled, [assert_tf_version] returns exactly when the
    version read is lexicographically at least the minimum and is not
    blacklisted; otherwise it raises an [AssertionError] whose message
    quotes the version string as detected, the minimum joined by dots and
    the blacklist.  A version string [tf_version] cannot read raises
    [ValueError], not [AssertionError].  With assertions disabled
    ([python -O]) it returns for every version string, readable or not. *)
Theorem assert_tf_version_outcomes :
  forall (int : string -> option Z) (V : string) (minimum : list Z)
         (blacklisted : list (list Z)),
    (forall v, tf_version int V = Returns v ->
       (assert_tf_version int true V minimum blacklisted = Returns tt
        <-> lex_ge v minimum /\ ~ In v blacklisted)
       /\ (~ (lex_ge v minimum /\ ~ In v blacklisted) ->
           assert_tf_version int true V minimum blacklisted
           = Raises (AssertionError
                       ("You are using tensorflow version " ++ V
                        ++ ". The minimum required version is "
                        ++ concat "." (map str_int minimum)
                        ++ " (blacklisted: " ++ repr_list blacklisted
                        ++ ")."))))
    /\ (forall e, tf_version int V = Raises e ->
          assert_tf_version int true V minimum blacklisted
          = Raises ValueError)
    /\ assert_tf_version int false V minimum blacklisted = Returns tt.
Proof.
  intros int V minimum blacklisted. split; [|split].
  - intros v E. unfold assert_tf_version.
    rewrite (tf_version_ok_of_parsed _ _ _ _ _ E).
    pose proof (accepted_iff v minimum blacklisted) as Hacc.
    destruct (tuple_ge v minimum && negb (tuple_in v blacklisted)).
    + split; [split; [intros _; apply Hacc; reflexivity | reflexivity]|].
      intro Hn. exfalso. apply Hn. apply Hacc. reflexivity.
    + split.
      * split; [discriminate|]. intro H. apply Hacc in H. discriminate.
      * intros _. reflexivity.
  - intros e E. pose proof (tf_version_raises_value_error _ _ _ E) as ->.
    unfold assert_tf_version, Version.tf_version_ok. rewrite E. reflexivity.
  - reflexivity.
Qed.

Lemma assert_tf_version_outcomes_witness :
  assert_tf_version int_of_digits true "2.0.1" [1; 14; 0]%Z
                    [[2; 0; 0]; [2; 0; 1]]%Z
  = Raises (AssertionError
              ("You are using tensorflow version " ++ "2.0.1"
               ++ ". The minimum required version is "
               ++ concat "." (map str_int [1; 14; 0]%Z)
               ++ " (blacklisted: " ++ repr_list [[2; 0; 0]; [2; 0; 1]]%Z
               ++ ").")).
Proof.
  apply (proj2 (proj1 (assert_tf_version_outcomes int_of_digits "2.0.1"
                         [1; 14; 0]%Z [[2; 0; 0]; [2; 0; 1]]%Z)
                  [2; 0; 1]%Z eq_refl)).
  intros [_ Hn]. apply Hn. simpl. right. left. reflexivity.
Defined.



End VersionFacts.

(** ** [tf_version_ok]: monotonicity *)

Lemma lex_lt_trans a : forall b c, lex_lt a b -> lex_lt b c -> lex_lt a c.
Proof.
  induction a as [|x a IH]; intros b c Hab Hbc.
  - inversion Hab; subst. inversion Hbc; subst; constructor.
  - inversion Hab; subst.
    + inversion Hbc; subst.
      * apply lex_lt_head. lia.
      * apply lex_lt_head. assumption.
    + inversion Hbc; subst.
      * apply lex_lt_head. assumption.
      * apply lex_lt_tail. eapply IH; eassumption.
Qed.

Lemma lex_ge_trans a b c : lex_ge a b -> lex_ge b c -> lex_ge a c.
Proof.
  unfold lex_ge. intros [-> | Hab] [-> | Hbc]; auto.
  right. eapply lex_lt_trans; eassumption.
Qed.

(** Acceptance is monotone: once a version is accepted, every version that
    is lexicographically at least as large and not blacklisted is accepted
    too, also against any minimum that is no larger and any blacklist
    contained in the first. *)
Theorem tf_version_ok_monotone :
  forall (v v' minimum minimum' : list Z)
         (blacklisted blacklisted' : list (list Z)),
    tf_version_ok v minimum blacklisted = true ->
    lex_ge v' v -> lex_ge minimum minimum' ->
    ~ In v' blacklisted' ->
    tf_version_ok v' minimum' blacklisted' = true.
Proof.
  intros v v' minimum minimum' blacklisted blacklisted' Hok Hv Hm Hbl.
  unfold tf_version_ok in *.
  apply andb_true_iff in Hok. destruct Hok as [Hge _].
  apply tuple_ge_lex in Hge.
  apply andb_true_iff. split.
  - apply tuple_ge_lex. eapply lex_ge_trans; [exact Hv|].
    eapply lex_ge_trans; eassumption.
  - apply negb_true_iff. apply not_true_iff_false.
    rewrite tuple_in_In. exact Hbl.
Qed.

Lemma tf_version_ok_monotone_witness :
  tf_version_ok [2; 3; 1]%Z [1; 14; 0]%Z BLACKLISTED_TF_VERSIONS = true.
Proof.
  apply (tf_version_ok_monotone [1; 15; 0]%Z [2; 3; 1]%Z
           [1; 14; 0]%Z [1; 14; 0]%Z
           BLACKLISTED_TF_VERSIONS BLACKLISTED_TF_VERSIONS).
  - reflexivity.
  - right. apply lex_lt_head. lia.
  - left. reflexivity.
  - simpl. intros [E | [E | []]]; discriminate.
Defined.

(** ** [draw_boxes], [draw_detections] *)

Module VisualizationFacts.

Import Ascii String.
Import Visualization.
Local Open Scope string_scope.

Lemma index_map_some {A B : Type} (f : A -> B) (l : list A) (i : nat) (d : A) :
  (i < List.length l)%nat ->
  index (map f l) i = pure (f (nth i l d)).
Proof.
  intro H. unfold index. rewrite nth_error_map.
  rewrite (nth_error_nth' l d H). reflexivity.
Qed.

Lemma draw_box_raises box col thickness :
  draw_box box col thickness = ([], Raises (box_failure (List.length box))).
Proof.
  destruct box as [|b0 [|b1 [|b2 [|b3 rest]]]]; reflexivity.
Qed.

Lemma draw_caption_wide box caption :
  (2 <= List.length box)%nat ->
  draw_caption box caption = (caption_texts box caption, Returns tt).
Proof.
  intro H. unfold draw_caption.
  rewrite !(index_map_some astype_int box _ 0%Q) by lia. reflexivity.
Qed.

(** [draw_box] hands the image to [cv2.rectangle] under the keyword [image],
    which the binding does not have.  So it never draws and never returns:
    it raises [cv2.error] on a box of at least 4 entries and an index error
    on a shorter one.  [draw_boxes] therefore returns only for an empty
    matrix; otherwise it stops at the first row, and no row is drawn. *)
Theorem draw_boxes_stops_at_first_row :
  forall (col : color) (thickness : Z),
    (forall box,
       draw_box box col thickness
       = ([], Raises (if (4 <=? List.length box)%nat
                      then Cv2Error else IndexError)))
    /\ draw_boxes [] col thickness = ([], Returns tt)
    /\ (forall first rest,
          draw_boxes (first :: rest) col thickness
          = ([], Raises (if (4 <=? List.length first)%nat
                         then Cv2Error else IndexError))).
Proof.
  intros col thickness. split; [|split].
  - intro box. apply draw_box_raises.
  - reflexivity.
  - intros first rest. cbn [draw_boxes].
    rewrite draw_box_raises. reflexivity.
Qed.

Lemma selection_spec scores thr i :
  In i (selection scores thr)
  <-> (i < List.length scores)%nat /\ (thr < nth i scores 0)%Q.
Proof.
  unfold selection. rewrite filter_In, in_seq, negb_true_iff.
  rewrite <- not_true_iff_false, Qle_bool_iff.
  split.
  - intros [[_ Hi] Hn]. split; [lia|]. apply Qnot_le_lt. exact Hn.
  - intros [Hi Hlt]. split; [lia|]. apply Qlt_not_le. exact Hlt.
Qed.

Lemma filter_none {A : Type} (p : A -> bool) l :
  (forall x, In x l -> p x = false) -> filter p l = [].
Proof.
  induction l as [|x l IH]; intro H; [reflexivity|]. simpl.
  rewrite (H x) by (left; reflexivity).
  apply IH. intros y Hy. apply H. right. exact Hy.
Qed.

Lemma selection_first scores thr i0 :
  (i0 < List.length scores)%nat ->
  (thr < nth i0 scores 0)%Q ->
  (forall j, (j < i0)%nat -> (nth j scores 0 <= thr)%Q) ->
  exists rest, selection scores thr = i0 :: rest.
Proof.
  intros Hi Hlt Hbefore. unfold selection.
  replace (List.length scores) with (i0 + S (List.length scores - S i0))%nat
    by lia.
  rewrite seq_app, filter_app. simpl seq.
  rewrite (filter_none _ (seq 0 i0)).
  - cbn [filter app].
    replace (Qle_bool (nth i0 scores 0%Q) thr) with false.
    + cbn [negb]. eexists. reflexivity.
    + symmetry. apply not_true_iff_false. rewrite Qle_bool_iff.
      apply Qlt_not_le. exact Hlt.
  - intros j Hj. apply in_seq in Hj. apply negb_false_iff.
    apply Qle_bool_iff. apply Hbefore. lia.
Qed.

Lemma selection_none scores thr :
  (forall i, (i < List.length scores)%nat -> (nth i scores 0 <= thr)%Q) ->
  selection scores thr = [].
Proof.
  intro H. destruct (selection scores thr) as [|i rest] eqn:E; [reflexivity|].
  assert (Hin : In i (selection scores thr)) by (rewrite E; left; reflexivity).
  apply selection_spec in Hin. destruct Hin as [Hi Hlt].
  specialize (H i Hi). exfalso. apply (Qlt_not_le _ _ Hlt). exact H.
Qed.

(** A round of [draw_detections] draws nothing and raises: the rectangle
    comes first and [draw_box] never returns. *)
Lemma draw_detection_raises label_color format_2f boxes scores labels col
      label_to_name i :
  draw_detection label_color format_2f boxes scores labels col label_to_name i
  = ([], Raises (detection_failure boxes labels col i)).
Proof.
  unfold draw_detection, detection_failure, index.
  destruct col as [c|]; [|destruct (nth_error labels i) as [l|]];
    cbn [and_then pure raise]; try reflexivity;
    destruct (nth_error boxes i) as [box|]; cbn [and_then pure raise];
    try reflexivity;
    rewrite draw_box_raises; reflexivity.
Qed.

Lemma for_each_first_raises i rest body e :
  body i = ([], Raises e) -> for_each (i :: rest) body = ([], Raises e).
Proof. intro E. cbn [for_each]. rewrite E. reflexivity. Qed.

(** [draw_detections] never draws anything, with or without a
    [label_to_name]: the rectangle of a detection comes before its caption
    and [draw_box] never returns.  It returns exactly when no score is
    strictly above the threshold, and raises otherwise. *)
Theorem draw_detections_never_draws :
  forall (label_color : Q -> color) (format_2f : Q -> string)
         (boxes : list (list Q)) (scores : list Q) (labels : list Q)
         (col : option color) (label_to_name : option (Q -> string))
         (threshold : Q),
    fst (draw_detections label_color format_2f boxes scores labels col
                         label_to_name threshold) = []
    /\ (snd (draw_detections label_color format_2f boxes scores labels col
                             label_to_name threshold) = Returns tt
        <-> forall i, (i < List.length scores)%nat ->
                      (nth i scores 0 <= threshold)%Q).
Proof.
  intros label_color format_2f boxes scores labels col label_to_name threshold.
  unfold draw_detections.
  destruct (selection scores threshold) as [|i rest] eqn:E.
  - split; [reflexivity|]. split; [|reflexivity].
    intros _ i Hi. apply Qnot_lt_le. intro Hlt.
    assert (Hin : In i (selection scores threshold))
      by (apply selection_spec; split; assumption).
    rewrite E in Hin. exact Hin.
  - rewrite (for_each_first_raises _ _ _ _
               (draw_detection_raises label_color format_2f boxes scores
                  labels col label_to_name i)).
    split; [reflexivity|]. split; [discriminate|].
    intro Hall. rewrite (selection_none _ _ Hall) in E. discriminate.
Qed.

(** At the first detection whose score is above the threshold
    [draw_detections] stops with nothing drawn, whether a [label_to_name] is
    given or not: with [cv2.error] from the rectangle when the detection has
    a box of at least 4 entries (and a label, if the colour is to be taken
    from it), with an index error otherwise.  No caption is written and the
    [TypeError] of adding a number to a string is never reached. *)
Theorem draw_detections_stops_at_first_detection :
  forall (label_color : Q -> color) (format_2f : Q -> string)
         (boxes : list (list Q)) (scores : list Q) (labels : list Q)
         (col : option color) (label_to_name : option (Q -> string))
         (threshold : Q) (i0 : nat),
    (i0 < List.length scores)%nat ->
    (threshold < nth i0 scores 0)%Q ->
    (forall j, (j < i0)%nat -> (nth j scores 0 <= threshold)%Q) ->
    draw_detections label_color format_2f boxes scores labels col
                    label_to_name threshold
    = ([], Raises (if ((match col with Some _ => true | None => false end)
                       || (i0 <? List.length labels)%nat)
                      && (i0 <? List.length boxes)%nat
                      && (4 <=? List.length (nth i0 boxes []))%nat
                   then Cv2Error else IndexError)).
Proof.
  intros label_color format_2f boxes scores labels col label_to_name threshold
         i0 Hi Hlt Hbefore.
  unfold draw_detections.
  destruct (selection_first scores threshold i0 Hi Hlt Hbefore) as (rest & ->).
  rewrite (for_each_first_raises _ _ _ _
             (draw_detection_raises label_color format_2f boxes scores
                labels col label_to_name i0)).
  do 2 f_equal. unfold detection_failure, box_failure.
  destruct (i0 <? List.length labels)%nat eqn:El;
    [apply Nat.ltb_lt in El | apply Nat.ltb_ge in El];
    destruct (i0 <? List.length boxes)%nat eqn:Eb;
    [apply Nat.ltb_lt in Eb | apply Nat.ltb_ge in Eb
     | apply Nat.ltb_lt in Eb | apply Nat.ltb_ge in Eb];
    rewrite ?(nth_error_nth' labels 0%Q El), ?(nth_error_nth' boxes [] Eb),
      ?(proj2 (nth_error_None labels i0) El),
      ?(proj2 (nth_error_None boxes i0) Eb);
    destruct col as [c|]; cbn [orb andb];
    try reflexivity;
    destruct (4 <=? List.length (nth i0 boxes []))%nat; reflexivity.
Qed.

Lemma draw_detections_stops_at_first_detection_witness :
  draw_detections (fun _ => (0, 255, 0)%Z) (fun _ => "0.00")
                  [[1; 2; 3; 4]; [5; 6; 7; 8]; [9; 10; 11; 12]]%Q
                  [0.3; 0.8; 0.9]%Q [3; 4; 5]%Q None
                  (Some (fun _ => "object")) 0.5
  = ([], Raises Cv2Error).
Proof.
  apply (draw_detections_stops_at_first_detection
           (fun _ => (0, 255, 0)%Z) (fun _ => "0.00")
           [[1; 2; 3; 4]; [5; 6; 7; 8]; [9; 10; 11; 12]]%Q
           [0.3; 0.8; 0.9]%Q [3; 4; 5]%Q None (Some (fun _ => "object"))
           0.5 1).
  - simpl. lia.
  - reflexivity.
  - intros j Hj. assert (j = 0)%nat by lia. subst. simpl. discriminate.
Defined.

End VisualizationFacts.

(** ** [draw_annotations] *)

Module AnnotationFacts.

Import Ascii String.
Import Visualization VisualizationFacts.
Local Open Scope string_scope.

Lemma asserts_pass debug (bs : list (list Q)) (ls : list Q) :
  List.length bs = List.length ls ->
  assert debug (pure (has_key (Some bs))) = pure tt
  /\ assert debug (pure (has_key (Some ls))) = pure tt
  /\ assert debug
       (and_then (lookup (Some bs)) (fun bs' =>
        and_then (lookup (Some ls)) (fun ls' =>
        pure (List.length bs' =? List.length ls')%nat))) = pure tt.
Proof.
  intro E. destruct debug; cbn; rewrite ?E, ?Nat.eqb_refl; auto.
Qed.

(** The first round of the loop of [draw_annotations]: the caption is
    written, then [draw_box] raises. *)
Lemma draw_annotation_first label_color format_number box bs label ls col
      label_to_name :
  (2 <= List.length box)%nat ->
  draw_annotation label_color format_number (Some (box :: bs))
                  (Some (label :: ls)) col label_to_name 0
  = (caption_texts box
       (match label_to_name with
        | Some name => name label
        | None => format_number label
        end),
     Raises (box_failure (List.length box))).
Proof.
  intro Hw. unfold draw_annotation.
  cbn [lookup index nth_error and_then pure].
  rewrite (draw_caption_wide box _ Hw).
  cbn [and_then pure]. rewrite draw_box_raises.
  rewrite app_nil_r. reflexivity.
Qed.

Lemma draw_annotations_of_dict label_color format_number debug box bs
      label ls col label_to_name :
  List.length bs = List.length ls ->
  (2 <= List.length box)%nat ->
  draw_annotations label_color format_number debug
                   (Dict (Some (box :: bs)) (Some (label :: ls)))
                   col label_to_name
  = (caption_texts box
       (match label_to_name with
        | Some name => name label
        | None => format_number label
        end),
     Raises (box_failure (List.length box))).
Proof.
  intros E Hw. unfold draw_annotations. cbn [and_then pure].
  destruct (asserts_pass debug (box :: bs) (label :: ls)
              ltac:(simpl; lia)) as (-> & -> & ->).
  cbn [and_then pure lookup app List.length seq for_each].
  rewrite (draw_annotation_first _ _ _ _ _ _ _ _ Hw). reflexivity.
Qed.

Lemma caption_texts_firstn row caption :
  (4 <= List.length row)%nat ->
  caption_texts (firstn 4 row) caption = caption_texts row caption.
Proof.
  intro H. destruct row as [|b0 [|b1 [|b2 [|b3 rest]]]]; simpl in H; try lia.
  reflexivity.
Qed.

(** [draw_annotations] writes the caption of the first annotation (the name
    of the label, or the label itself), black under white, and then stops
    with [cv2.error] at the rectangle: no box is ever drawn and no later
    annotation is reached.  This holds for a matrix with at least 5 columns,
    whose columns 0 to 3 are the box and whose column 4 is the label, and
    for a dictionary with equally many boxes of at least 4 entries and
    labels.  Without any annotation it draws nothing and returns. *)
Theorem draw_annotations_stops_after_first_caption :
  forall (label_color : Q -> color) (format_number : Q -> string)
         (debug : bool) (col : option color)
         (label_to_name : option (Q -> string)),
    let caption_of (label : Q) :=
      match label_to_name with
      | Some name => name label
      | None => format_number label
      end in
    (forall columns first rest,
       (5 <= columns)%nat ->
       Forall (fun row => List.length row = columns) (first :: rest) ->
       draw_annotations label_color format_number debug
                        (NdArray columns (first :: rest)) col label_to_name
       = (caption_texts first (caption_of (nth 4 first 0%Q)),
          Raises Cv2Error))
    /\ (forall box bboxes label labels,
          List.length bboxes = List.length labels ->
          (4 <= List.length box)%nat ->
          draw_annotations label_color format_number debug
                           (Dict (Some (box :: bboxes))
                                 (Some (label :: labels))) col label_to_name
          = (caption_texts box (caption_of label), Raises Cv2Error))
    /\ (forall columns,
          (5 <= columns)%nat ->
          draw_annotations label_color format_number debug
                           (NdArray columns []) col label_to_name
          = ([], Returns tt))
    /\ draw_annotations label_color format_number debug
                        (Dict (Some []) (Some [])) col label_to_name
       = ([], Returns tt).
Proof.
  intros label_color format_number debug col label_to_name caption_of.
  split; [|split; [|split]].
  - intros columns first rest Hc Hrows.
    assert (Hfirst : List.length first = columns)
      by (inversion Hrows; assumption).
    pose proof (draw_annotations_of_dict label_color format_number debug
                  (firstn 4 first) (map (firstn 4) rest)
                  (nth 4 first 0%Q) (map (fun row => nth 4 row 0%Q) rest)
                  col label_to_name) as H.
    unfold draw_annotations in *.
    replace (4 <? columns)%nat with true by (symmetry; apply Nat.ltb_lt; lia).
    cbn [and_then pure map] in *.
    rewrite H.
    + rewrite caption_texts_firstn by lia.
      rewrite length_firstn.
      replace (Nat.min 4 (List.length first)) with 4%nat by lia.
      reflexivity.
    + rewrite !length_map. reflexivity.
    + rewrite length_firstn. lia.
  - intros box bboxes label labels E Hw.
    rewrite (draw_annotations_of_dict label_color format_number debug
               box bboxes label labels col label_to_name E ltac:(lia)).
    unfold box_failure.
    replace (4 <=? List.length box)%nat with true
      by (symmetry; apply Nat.leb_le; exact Hw).
    reflexivity.
  - intros columns Hc. unfold draw_annotations.
    replace (4 <? columns)%nat with true by (symmetry; apply Nat.ltb_lt; lia).
    destruct debug; reflexivity.
  - destruct debug; reflexivity.
Qed.

Lemma draw_annotations_stops_after_first_caption_witness :
  draw_annotations (fun _ => (0, 0, 255)%Z) (fun _ => "1.0") true
                   (NdArray 5 [[1; 2; 3; 4; 1]; [5; 6; 7; 8; 1]]%Q)
                   (Some (0, 255, 0)%Z) None
  = (caption_texts [1; 2; 3; 4; 1]%Q
       (match @None (Q -> string) with
        | Some name => name (nth 4 [1; 2; 3; 4; 1]%Q 0%Q)
        | None => (fun _ : Q => "1.0") (nth 4 [1; 2; 3; 4; 1]%Q 0%Q)
        end),
     Raises Cv2Error).
Proof.
  apply (proj1 (draw_annotations_stops_after_first_caption
                  (fun _ => (0, 0, 255)%Z) (fun _ => "1.0") true
                  (Some (0, 255, 0)%Z) None) 5
           [1; 2; 3; 4; 1]%Q [[5; 6; 7; 8; 1]]%Q).
  - lia.
  - repeat constructor.
Defined.

(** [draw_annotations] refuses malformed annotations before it draws
    anything: a matrix with fewer than 5 columns raises an index error, and,
    with assertions enabled, a dictionary without ['bboxes'] or ['labels'] or
    with a different number of boxes and labels raises an assertion error.
    With assertions disabled a dictionary without ['bboxes'] raises a key
    error. *)
Theorem draw_annotations_refuses_before_drawing :
  forall (label_color : Q -> color) (format_number : Q -> string)
         (col : option color) (label_to_name : option (Q -> string)),
    (forall debug columns rows,
       (columns < 5)%nat ->
       draw_annotations label_color format_number debug
                        (NdArray columns rows) col label_to_name
       = ([], Raises IndexError))
    /\ (forall bboxes labels,
          bboxes = None \/ labels = None
          \/ (exists bs ls, bboxes = Some bs /\ labels = Some ls
                            /\ List.length bs <> List.length ls) ->
          draw_annotations label_color format_number true
                           (Dict bboxes labels) col label_to_name
          = ([], Raises AssertionError))
    /\ (forall labels,
          draw_annotations label_color format_number false
                           (Dict None labels) col label_to_name
          = ([], Raises KeyError)).
Proof.
  intros label_color format_number col label_to_name.
  split; [|split].
  - intros debug columns rows Hc. unfold draw_annotations.
    replace (4 <? columns)%nat with false by (symmetry; apply Nat.ltb_ge; lia).
    reflexivity.
  - intros bboxes labels H. unfold draw_annotations.
    destruct bboxes as [bs|]; [|reflexivity].
    destruct labels as [ls|]; [|reflexivity].
    destruct H as [H | [H | (bs' & ls' & [= <-] & [= <-] & Hne)]];
      try discriminate.
    cbn. apply Nat.eqb_neq in Hne. rewrite Hne. reflexivity.
  - intros labels. reflexivity.
Qed.

Lemma draw_annotations_refuses_before_drawing_witness :
  draw_annotations (fun _ => (0, 0, 255)%Z) (fun _ => "1.0") true
                   (Dict (Some [[1; 2; 3; 4]; [5; 6; 7; 8]]%Q) (Some [1]%Q))
                   (Some (0, 255, 0)%Z) None
  = ([], Raises AssertionError).
Proof.
  apply (proj1 (proj2 (draw_annotations_refuses_before_drawing
                         (fun _ => (0, 0, 255)%Z) (fun _ => "1.0")
                         (Some (0, 255, 0)%Z) None))).
  right. right. exists [[1; 2; 3; 4]; [5; 6; 7; 8]]%Q, [1]%Q.
  repeat split. simpl. lia.
Defined.

End AnnotationFacts.

Lemma tuple_ge_extension v : forall rest, tuple_ge (v ++ rest) v = true.
Proof.
  induction v as [|x v IH]; intro rest; simpl.
  - destruct rest; reflexivity.
  - rewrite Z.eqb_refl. apply IH.
Qed.

Lemma tuple_ge_proper_prefix v : forall rest,
  rest <> [] -> tuple_ge v (v ++ rest) = false.
Proof.
  induction v as [|x v IH]; intros rest Hne; simpl.
  - destruct rest; [congruence | reflexivity].
  - rewrite Z.eqb_refl. apply IH. exact Hne.
Qed.

(** A version with fewer components than the minimum that agrees with it as
    far as it goes is refused ([(1, 14)] against [(1, 14, 0)]); a version
    that extends the minimum by further components is accepted unless it is
    blacklisted. *)
Theorem tf_version_ok_on_prefixes_and_extensions :
  forall (v rest : list Z) (blacklisted : list (list Z)),
    (rest <> [] -> tf_version_ok v (v ++ rest) blacklisted = false)
    /\ (~ In (v ++ rest) blacklisted ->
        tf_version_ok (v ++ rest) v blacklisted = true).
Proof.
  intros v rest blacklisted. unfold tf_version_ok. split.
  - intro Hne. rewrite (tuple_ge_proper_prefix v rest Hne). reflexivity.
  - intro Hbl. rewrite tuple_ge_extension. cbn [andb].
    apply negb_true_iff, not_true_iff_false.
    rewrite tuple_in_In. exact Hbl.
Qed.

Lemma tf_version_ok_on_prefixes_and_extensions_witness :
  tf_version_ok [1; 14]%Z ([1; 14] ++ [0])%Z BLACKLISTED_TF_VERSIONS = false.
Proof.
  apply (proj1 (tf_version_ok_on_prefixes_and_extensions
                  [1; 14]%Z [0]%Z BLACKLISTED_TF_VERSIONS)).
  discriminate.
Defined.
